(** * The Pintos thread scheduler ([src/threads/thread.c])

    A shallow embedding of the scheduler: thread records live in a store
    indexed by their page address, the intrusive lists ([ready_list],
    [ready_queues], [waiting_list], [all_list]) are lists of such addresses,
    and every function of [thread.c] is a function on the kernel state that
    either returns a new state, panics on a failed [ASSERT], faults on an
    access outside any thread record, or hands the CPU to another thread and
    leaves a continuation for the time it is scheduled again.

    The first part holds the definitions, in the order of the source; the
    second part holds the properties, each with the number of the statement
    of the specification it settles. *)

From Stdlib Require Import ZArith String Lia.
From stdpp Require Import base option list gmap strings.

Local Open Scope Z_scope.

(** ** Machine integers *)

(** A C [int] is a 32-bit two's complement number; arithmetic on it wraps. *)
Definition wrap32 (z : Z) : Z := (z + 2 ^ 31) `mod` 2 ^ 32 - 2 ^ 31.

(** [int64_t], the type of tick counts. *)
Definition wrap64 (z : Z) : Z := (z + 2 ^ 63) `mod` 2 ^ 64 - 2 ^ 63.

Definition int32 (z : Z) : Prop := - 2 ^ 31 <= z < 2 ^ 31.

(** ** Fixed-point arithmetic ([fixpoint.h]) *)

Module FixedPoint.

(** Modelled from the spec: [fixpoint.h] is not among the sources.  The
    format is signed 17.14: a value is a 32-bit integer scaled by [2^14];
    overflow is not trapped, division truncates toward zero, and the
    conversion to an integer adds or subtracts half the scale before it
    truncates. *)
Definition FP_F : Z := 2 ^ 14.

(** Modelled from the spec: [convert_fp] of [fixpoint.h], integer to fixed
    point. *)
Definition convert_fp (n : Z) : Z := wrap32 (n * FP_F).

(** Modelled from the spec: [convert_int_near] of [fixpoint.h], fixed point
    to the nearest integer. *)
Definition convert_int_near (x : Z) : Z :=
  if 0 <=? x then wrap32 (x + FP_F `quot` 2) `quot` FP_F
  else wrap32 (x - FP_F `quot` 2) `quot` FP_F.

(** Modelled from the spec: the sum and the difference of two fixed-point
    values, which [thread.c] writes with [+] and [-] on [int]. *)
Definition add_fp (x y : Z) : Z := wrap32 (x + y).
Definition sub_fp (x y : Z) : Z := wrap32 (x - y).

(** Modelled from the spec: [add_fp_int], [mul_fp_int] and [div_fp_int] of
    [fixpoint.h], a fixed-point value and an integer. *)
Definition add_fp_int (x n : Z) : Z := wrap32 (x + n * FP_F).
Definition mul_fp_int (x n : Z) : Z := wrap32 (x * n).
Definition div_fp_int (x n : Z) : Z := wrap32 (x `quot` n).

(** Modelled from the spec: [mul_fp] and [div_fp] of [fixpoint.h], two
    fixed-point values, with a 64-bit intermediate product.  (The scheduler
    divides by [60.0] and by [2 * load_avg + 1.0] only; a zero divisor, a
    trap on the machine, gives [0] here.) *)
Definition mul_fp (x y : Z) : Z := wrap32 ((x * y) `quot` FP_F).
Definition div_fp (x y : Z) : Z := wrap32 ((x * FP_F) `quot` y).

End FixedPoint.
Import FixedPoint.

(** ** Thread records ([thread.h]) *)

(** Modelled from the spec: [thread.h] is not among the sources; the
    priority range is the one the spec gives, and [NQ] is one band for each
    priority. *)
Definition PRI_MIN : Z := 0.
Definition PRI_DEFAULT : Z := 31.
Definition PRI_MAX : Z := 63.
Definition NQ : Z := 64.

(** Modelled from the spec: [devices/timer.h] is not among the sources;
    one hundred ticks make a second. *)
Definition TIMER_FREQ : Z := 100.

(** [TIME_SLICE], line 72. *)
Definition TIME_SLICE : Z := 4.

(** Modelled from the spec: [enum thread_status] of [thread.h]. *)
Inductive thread_status :=
  | THREAD_NASCENT
  | THREAD_READY
  | THREAD_RUNNING
  | THREAD_BLOCKED
  | THREAD_DYING.

Global Instance thread_status_eq_dec : EqDecision thread_status.
Proof. solve_decision. Defined.

(** A thread is named by the address of its page. *)
Abbreviation tptr := nat (only parsing).

(** Modelled from the spec: the fields of [struct thread] ([thread.h]) that
    [thread.c] reads and writes; [ticks_wait] has the type of the argument
    of [thread_wait].  The [magic] field is the page being in the store, and
    the two list hooks are membership in the lists of the kernel state. *)
Record thread := mkThread {
  tid : Z;
  status : thread_status;
  name : string;
  priority : Z;
  priority_orig : Z;
  nice : Z;
  recent_cpu : Z;
  ticks_wait : Z;
  num_lock_donors : Z;
  parent : tptr;
}.

(** Assignment to a field. *)
Definition set_tid (v : Z) (t : thread) : thread :=
  mkThread v (status t) (name t) (priority t) (priority_orig t) (nice t)
           (recent_cpu t) (ticks_wait t) (num_lock_donors t) (parent t).
Definition set_status (v : thread_status) (t : thread) : thread :=
  mkThread (tid t) v (name t) (priority t) (priority_orig t) (nice t)
           (recent_cpu t) (ticks_wait t) (num_lock_donors t) (parent t).
Definition set_priority (v : Z) (t : thread) : thread :=
  mkThread (tid t) (status t) (name t) v (priority_orig t) (nice t)
           (recent_cpu t) (ticks_wait t) (num_lock_donors t) (parent t).
Definition set_priority_orig (v : Z) (t : thread) : thread :=
  mkThread (tid t) (status t) (name t) (priority t) v (nice t)
           (recent_cpu t) (ticks_wait t) (num_lock_donors t) (parent t).
Definition set_nice (v : Z) (t : thread) : thread :=
  mkThread (tid t) (status t) (name t) (priority t) (priority_orig t) v
           (recent_cpu t) (ticks_wait t) (num_lock_donors t) (parent t).
Definition set_recent_cpu (v : Z) (t : thread) : thread :=
  mkThread (tid t) (status t) (name t) (priority t) (priority_orig t) (nice t)
           v (ticks_wait t) (num_lock_donors t) (parent t).
Definition set_ticks_wait (v : Z) (t : thread) : thread :=
  mkThread (tid t) (status t) (name t) (priority t) (priority_orig t) (nice t)
           (recent_cpu t) v (num_lock_donors t) (parent t).
Definition set_num_lock_donors (v : Z) (t : thread) : thread :=
  mkThread (tid t) (status t) (name t) (priority t) (priority_orig t) (nice t)
           (recent_cpu t) (ticks_wait t) v (parent t).
Definition set_parent (v : nat) (t : thread) : thread :=
  mkThread (tid t) (status t) (name t) (priority t) (priority_orig t) (nice t)
           (recent_cpu t) (ticks_wait t) (num_lock_donors t) v.

(** ** The priority engine *)

(** [recalculate_priority], lines 163-174. *)
Definition recalculate_priority (t : thread) : Z :=
  let priority :=
    convert_int_near
      (sub_fp (sub_fp (convert_fp PRI_MAX) (div_fp_int (recent_cpu t) 4))
              (mul_fp_int (convert_fp (nice t)) 2)) in
  if priority <? PRI_MIN then PRI_MIN
  else if priority >? PRI_MAX then PRI_MAX
  else priority.

(** The formula as the specification words it: the exact fixed-point value
    [PRI_MAX - recent_cpu/4 - 2*nice], without any wrap-around. *)
Definition priority_fp_spec (t : thread) : Z :=
  PRI_MAX * FP_F - recent_cpu t `quot` 4 - 2 * nice t * FP_F.

(** Rounding a fixed-point value to the nearest integer, halves away from
    zero. *)
Definition round_to_nearest (x : Z) : Z :=
  if 0 <=? x then (x + FP_F `quot` 2) `quot` FP_F
  else (x - FP_F `quot` 2) `quot` FP_F.

Definition clamp_priority (p : Z) : Z := Z.max PRI_MIN (Z.min PRI_MAX p).

(** ** The kernel state *)

(** The globals of [thread.c], the store of thread pages, the thread whose
    stack the CPU is on ([running_thread ()]) and the interrupt flags the
    code consults.  A null pointer is address [0].  The lists hold the
    addresses of the threads linked through [elem] ([ready_list],
    [ready_queues], [waiting_list]) or through [allelem] ([all_list]). *)
Record kstate := mkK {
  threads : gmap nat thread;
  ready_list : list nat;
  ready_queues : list (list nat);
  waiting_list : list nat;
  all_list : list nat;
  idle_thread : nat;
  initial_thread : nat;
  load_avg : Z;
  idle_ticks : Z;
  kernel_ticks : Z;
  total_ticks : Z;
  thread_ticks : Z;
  thread_mlfqs : bool;
  next_tid : Z;
  running : nat;
  intr_on : bool;
  intr_ctx : bool;
  yield_on_return : bool;
}.

Definition set_threads (v : gmap nat thread) (s : kstate) : kstate :=
  mkK v (ready_list s) (ready_queues s) (waiting_list s) (all_list s)
      (idle_thread s) (initial_thread s) (load_avg s) (idle_ticks s)
      (kernel_ticks s) (total_ticks s) (thread_ticks s) (thread_mlfqs s)
      (next_tid s) (running s) (intr_on s) (intr_ctx s) (yield_on_return s).
Definition set_ready_list (v : list nat) (s : kstate) : kstate :=
  mkK (threads s) v (ready_queues s) (waiting_list s) (all_list s)
      (idle_thread s) (initial_thread s) (load_avg s) (idle_ticks s)
      (kernel_ticks s) (total_ticks s) (thread_ticks s) (thread_mlfqs s)
      (next_tid s) (running s) (intr_on s) (intr_ctx s) (yield_on_return s).
Definition set_ready_queues (v : list (list nat)) (s : kstate) : kstate :=
  mkK (threads s) (ready_list s) v (waiting_list s) (all_list s)
      (idle_thread s) (initial_thread s) (load_avg s) (idle_ticks s)
      (kernel_ticks s) (total_ticks s) (thread_ticks s) (thread_mlfqs s)
      (next_tid s) (running s) (intr_on s) (intr_ctx s) (yield_on_return s).
Definition set_waiting_list (v : list nat) (s : kstate) : kstate :=
  mkK (threads s) (ready_list s) (ready_queues s) v (all_list s)
      (idle_thread s) (initial_thread s) (load_avg s) (idle_ticks s)
      (kernel_ticks s) (total_ticks s) (thread_ticks s) (thread_mlfqs s)
      (next_tid s) (running s) (intr_on s) (intr_ctx s) (yield_on_return s).
Definition set_all_list (v : list nat) (s : kstate) : kstate :=
  mkK (threads s) (ready_list s) (ready_queues s) (waiting_list s) v
      (idle_thread s) (initial_thread s) (load_avg s) (idle_ticks s)
      (kernel_ticks s) (total_ticks s) (thread_ticks s) (thread_mlfqs s)
      (next_tid s) (running s) (intr_on s) (intr_ctx s) (yield_on_return s).
Definition set_idle_thread (v : nat) (s : kstate) : kstate :=
  mkK (threads s) (ready_list s) (ready_queues s) (waiting_list s)
      (all_list s) v (initial_thread s) (load_avg s) (idle_ticks s)
      (kernel_ticks s) (total_ticks s) (thread_ticks s) (thread_mlfqs s)
      (next_tid s) (running s) (intr_on s) (intr_ctx s) (yield_on_return s).
Definition set_initial_thread (v : nat) (s : kstate) : kstate :=
  mkK (threads s) (ready_list s) (ready_queues s) (waiting_list s)
      (all_list s) (idle_thread s) v (load_avg s) (idle_ticks s)
      (kernel_ticks s) (total_ticks s) (thread_ticks s) (thread_mlfqs s)
      (next_tid s) (running s) (intr_on s) (intr_ctx s) (yield_on_return s).
Definition set_load_avg (v : Z) (s : kstate) : kstate :=
  mkK (threads s) (ready_list s) (ready_queues s) (waiting_list s)
      (all_list s) (idle_thread s) (initial_thread s) v (idle_ticks s)
      (kernel_ticks s) (total_ticks s) (thread_ticks s) (thread_mlfqs s)
      (next_tid s) (running s) (intr_on s) (intr_ctx s) (yield_on_return s).
Definition set_idle_ticks (v : Z) (s : kstate) : kstate :=
  mkK (threads s) (ready_list s) (ready_queues s) (waiting_list s)
      (all_list s) (idle_thread s) (initial_thread s) (load_avg s) v
      (kernel_ticks s) (total_ticks s) (thread_ticks s) (thread_mlfqs s)
      (next_tid s) (running s) (intr_on s) (intr_ctx s) (yield_on_return s).
Definition set_kernel_ticks (v : Z) (s : kstate) : kstate :=
  mkK (threads s) (ready_list s) (ready_queues s) (waiting_list s)
      (all_list s) (idle_thread s) (initial_thread s) (load_avg s)
      (idle_ticks s) v (total_ticks s) (thread_ticks s) (thread_mlfqs s)
      (next_tid s) (running s) (intr_on s) (intr_ctx s) (yield_on_return s).
Definition set_total_ticks (v : Z) (s : kstate) : kstate :=
  mkK (threads s) (ready_list s) (ready_queues s) (waiting_list s)
      (all_list s) (idle_thread s) (initial_thread s) (load_avg s)
      (idle_ticks s) (kernel_ticks s) v (thread_ticks s) (thread_mlfqs s)
      (next_tid s) (running s) (intr_on s) (intr_ctx s) (yield_on_return s).
Definition set_thread_ticks (v : Z) (s : kstate) : kstate :=
  mkK (threads s) (ready_list s) (ready_queues s) (waiting_list s)
      (all_list s) (idle_thread s) (initial_thread s) (load_avg s)
      (idle_ticks s) (kernel_ticks s) (total_ticks s) v (thread_mlfqs s)
      (next_tid s) (running s) (intr_on s) (intr_ctx s) (yield_on_return s).
Definition set_thread_mlfqs (v : bool) (s : kstate) : kstate :=
  mkK (threads s) (ready_list s) (ready_queues s) (waiting_list s)
      (all_list s) (idle_thread s) (initial_thread s) (load_avg s)
      (idle_ticks s) (kernel_ticks s) (total_ticks s) (thread_ticks s) v
      (next_tid s) (running s) (intr_on s) (intr_ctx s) (yield_on_return s).
Definition set_next_tid (v : Z) (s : kstate) : kstate :=
  mkK (threads s) (ready_list s) (ready_queues s) (waiting_list s)
      (all_list s) (idle_thread s) (initial_thread s) (load_avg s)
      (idle_ticks s) (kernel_ticks s) (total_ticks s) (thread_ticks s)
      (thread_mlfqs s) v (running s) (intr_on s) (intr_ctx s)
      (yield_on_return s).
Definition set_running (v : nat) (s : kstate) : kstate :=
  mkK (threads s) (ready_list s) (ready_queues s) (waiting_list s)
      (all_list s) (idle_thread s) (initial_thread s) (load_avg s)
      (idle_ticks s) (kernel_ticks s) (total_ticks s) (thread_ticks s)
      (thread_mlfqs s) (next_tid s) v (intr_on s) (intr_ctx s)
      (yield_on_return s).
Definition set_intr_on (v : bool) (s : kstate) : kstate :=
  mkK (threads s) (ready_list s) (ready_queues s) (waiting_list s)
      (all_list s) (idle_thread s) (initial_thread s) (load_avg s)
      (idle_ticks s) (kernel_ticks s) (total_ticks s) (thread_ticks s)
      (thread_mlfqs s) (next_tid s) (running s) v (intr_ctx s)
      (yield_on_return s).
Definition set_intr_ctx (v : bool) (s : kstate) : kstate :=
  mkK (threads s) (ready_list s) (ready_queues s) (waiting_list s)
      (all_list s) (idle_thread s) (initial_thread s) (load_avg s)
      (idle_ticks s) (kernel_ticks s) (total_ticks s) (thread_ticks s)
      (thread_mlfqs s) (next_tid s) (running s) (intr_on s) v
      (yield_on_return s).
Definition set_yield_on_return (v : bool) (s : kstate) : kstate :=
  mkK (threads s) (ready_list s) (ready_queues s) (waiting_list s)
      (all_list s) (idle_thread s) (initial_thread s) (load_avg s)
      (idle_ticks s) (kernel_ticks s) (total_ticks s) (thread_ticks s)
      (thread_mlfqs s) (next_tid s) (running s) (intr_on s) (intr_ctx s) v.

(** Writing through a thread pointer. *)
Definition update (t : nat) (f : thread -> thread) (s : kstate) : kstate :=
  set_threads (alter f t (threads s)) s.

(** ** Outcomes *)

(** Code that runs to its end gives [Done]; a failed [ASSERT] gives [Panic];
    an access outside every thread record (a dangling or sentinel pointer, a
    band index outside the array) gives [Fault].  [Resched s k] is a thread
    that reached [switch_threads]: [s] is the state once the next thread is
    on the CPU, and [k] is what the suspended thread goes on to do from the
    state in which it is scheduled again. *)
Inductive run : Type :=
  | Done (s : kstate)
  | Panic
  | Fault
  | Resched (s : kstate) (k : kstate -> run).

Fixpoint bind (r : run) (f : kstate -> run) : run :=
  match r with
  | Done s => f s
  | Panic => Panic
  | Fault => Fault
  | Resched s k => Resched s (fun s' => bind (k s') f)
  end.

Definition kassert (b : bool) (k : run) : run := if b then k else Panic.

Definition fetch {A} (o : option A) (k : A -> run) : run :=
  match o with Some a => k a | None => Fault end.

Notation "'ASSERT' b ;; k" := (kassert b k)
  (at level 10, b at level 99, k at level 200, only parsing).
Notation "'let?' x := o 'in' k" := (fetch o (fun x => k))
  (at level 10, x pattern, o at level 99, k at level 200, only parsing).
Notation "'do' x <- r ;; k" := (bind r (fun x => k))
  (at level 10, x name, r at level 99, k at level 200, only parsing).

(** The state in which the CPU is left, when the code got that far. *)
Definition outcome (r : run) : option kstate :=
  match r with
  | Done s | Resched s _ => Some s
  | Panic | Fault => None
  end.

(** Whether the calling thread gave up the CPU. *)
Definition switched (r : run) : bool :=
  match r with Resched _ _ => true | _ => false end.

(** ** Kernel lists ([lib/kernel/list.c]) *)

(** Modelled from the spec: the list library is not among the sources.  A
    kernel list is the sequence of the threads linked into it;
    [list_push_back] appends. *)
Definition list_push_back (l : list nat) (e : nat) : list nat := l ++ [e].

(** Modelled from the spec: [list_empty]. *)
Definition list_empty (l : list nat) : bool :=
  match l with [] => true | _ => false end.

(** Modelled from the spec: [list_remove] unlinks the element. *)
Definition list_remove (e : nat) (l : list nat) : list nat :=
  filter (fun x => x ≠ e) l.

(** [list_remove (&t->elem)]: the element is unlinked from whichever of the
    [elem] lists holds it. *)
Definition list_remove_elem (t : nat) (s : kstate) : kstate :=
  set_ready_list (list_remove t (ready_list s))
    (set_ready_queues (list_remove t <$> ready_queues s)
       (set_waiting_list (list_remove t (waiting_list s)) s)).

(** [list_remove (&t->allelem)]. *)
Definition list_remove_allelem (t : nat) (s : kstate) : kstate :=
  set_all_list (list_remove t (all_list s)) s.

(** [priority_less], lines 524-534. *)
Definition priority_less (s : kstate) (a b : nat) : option bool :=
  l1 ← threads s !! a; l2 ← threads s !! b;
  Some (priority l1 <? priority l2).

(** Modelled from the spec: the linear scan of [list_max], which keeps the
    earlier of two elements of equal priority. *)
Fixpoint list_max_from (s : kstate) (max : nat) (l : list nat) : option nat :=
  match l with
  | [] => Some max
  | e :: l' =>
      lt ← priority_less s max e;
      list_max_from s (if lt : bool then e else max) l'
  end.

(** Modelled from the spec: [list_max (&ready_list, priority_less, NULL)].
    The inner [None] is the tail sentinel that [list_max] returns for an
    empty list. *)
Definition list_max (s : kstate) (l : list nat) : option (option nat) :=
  match l with
  | [] => Some None
  | e :: l' => Some <$> list_max_from s e l'
  end.

(** [&ready_queues[i]]. *)
Definition band (s : kstate) (i : Z) : option (list nat) :=
  if 0 <=? i then ready_queues s !! Z.to_nat i else None.

(** The idiom that [thread.c] repeats wherever a thread becomes ready:
    [if (!thread_mlfqs) list_push_back (&ready_list, &t->elem);
     else list_push_back (&ready_queues[t->priority], &t->elem);] *)
Definition push_ready (t : nat) (s : kstate) : option kstate :=
  if negb (thread_mlfqs s) then
    Some (set_ready_list (list_push_back (ready_list s) t) s)
  else
    th ← threads s !! t;
    q ← band s (priority th);
    Some (set_ready_queues
            (<[Z.to_nat (priority th) := list_push_back q t]> (ready_queues s)) s).

(** ** The scheduler core *)

(** [is_thread], lines 697-701: a page holds a thread when its [magic] field
    is intact, that is, when it is a page of the store. *)
Definition is_thread (s : kstate) (t : nat) : bool :=
  negb (t =? 0)%nat && bool_decide (is_Some (threads s !! t)).

(** [thread_current], lines 439-453. *)
Definition thread_current (s : kstate) (k : nat -> thread -> run) : run :=
  let t := running s in
  ASSERT is_thread s t ;;
  let? th := threads s !! t in
  ASSERT bool_decide (status th = THREAD_RUNNING) ;;
  k t th.

(** The [for] loop of [next_thread_to_run] over the bands, from
    [PRI_MAX] down to [0]; [n] is one more than the band looked at. *)
Fixpoint next_band (n : nat) (s : kstate) (k : nat -> kstate -> run) : run :=
  match n with
  | O => k (idle_thread s) s
  | S i =>
      let? q := ready_queues s !! i in
      match q with
      | [] => next_band i s k
      | max :: _ => k max (list_remove_elem max s)
      end
  end.

(** [next_thread_to_run], lines 778-805. *)
Definition next_thread_to_run (s : kstate) (k : nat -> kstate -> run) : run :=
  if negb (thread_mlfqs s) then
    if list_empty (ready_list s) then k (idle_thread s) s
    else
      let? m := list_max s (ready_list s) in
      let? max := m in
      k max (list_remove_elem max s)
  else next_band (Z.to_nat (PRI_MAX + 1)) s k.

(** [palloc_free_page (prev)]: the page leaves the store. *)
Definition palloc_free_page (t : nat) (s : kstate) : kstate :=
  set_threads (delete t (threads s)) s.

(** [thread_schedule_tail], lines 823-855. *)
Definition thread_schedule_tail (prev : nat) (s : kstate) : run :=
  let cur := running s in
  ASSERT negb (intr_on s) ;;
  let? _ := threads s !! cur in
  let s := update cur (set_status THREAD_RUNNING) s in
  let s := set_thread_ticks 0 s in
  let? cth := threads s !! cur in
  let s := if (num_lock_donors cth =? 0) && negb (thread_mlfqs s)
           then update cur (set_priority (priority_orig cth)) s else s in
  if (prev =? 0)%nat then Done s
  else
    let? pth := threads s !! prev in
    if bool_decide (status pth = THREAD_DYING)
       && negb (prev =? initial_thread s)%nat
    then ASSERT negb (prev =? cur)%nat ;; Done (palloc_free_page prev s)
    else Done s.

(** [schedule], lines 864-878.  When [switch_threads] is reached the CPU
    goes on in [next], whose first act is [thread_schedule_tail] with the
    thread it was switched from. *)
Definition schedule (s : kstate) : run :=
  let cur := running s in
  next_thread_to_run s (fun next s =>
  ASSERT negb (intr_on s) ;;
  let? cth := threads s !! cur in
  ASSERT negb (bool_decide (status cth = THREAD_RUNNING)) ;;
  ASSERT is_thread s next ;;
  if negb (cur =? next)%nat then
    do s <- thread_schedule_tail cur (set_running next s) ;;
    Resched s Done
  else thread_schedule_tail 0%nat s).

(** ** Blocking, waking and yielding *)

(** [thread_wait], lines 354-366. *)
Definition thread_wait (ticks : Z) (s : kstate) : run :=
  thread_current s (fun cur _ =>
  ASSERT negb (intr_ctx s) ;;
  ASSERT negb (intr_on s) ;;
  let s := update cur (set_status THREAD_BLOCKED) s in
  let s := update cur (set_ticks_wait ticks) s in
  let s := set_waiting_list (list_push_back (waiting_list s) cur) s in
  schedule s).

(** [thread_block], lines 374-382. *)
Definition thread_block (s : kstate) : run :=
  ASSERT negb (intr_ctx s) ;;
  ASSERT negb (intr_on s) ;;
  thread_current s (fun cur _ =>
  let s := update cur (set_status THREAD_BLOCKED) s in
  schedule s).

(** [thread_unblock], lines 392-427. *)
Definition thread_unblock (t : nat) (s : kstate) : run :=
  ASSERT is_thread s t ;;
  let? th := threads s !! t in
  ASSERT bool_decide (status th = THREAD_BLOCKED)
         || bool_decide (status th = THREAD_NASCENT) ;;
  let old_level := intr_on s in
  let s := set_intr_on false s in
  thread_current s (fun cur cth =>
  let? s := push_ready t s in
  let s := update t (set_status THREAD_READY) s in
  do s <- (if (priority th >? priority cth) && negb (intr_ctx s) then
             let s := update cur (set_status THREAD_READY) s in
             let? s := push_ready cur s in
             schedule s
           else Done s) ;;
  Done (set_intr_on old_level s)).

(** [thread_exit], lines 464-481. *)
Definition thread_exit (s : kstate) : run :=
  ASSERT negb (intr_ctx s) ;;
  let s := set_intr_on false s in
  thread_current s (fun cur _ =>
  let s := list_remove_allelem cur s in
  let s := update cur (set_status THREAD_DYING) s in
  do _ <- schedule s ;;
  Panic).

(** [thread_yield], lines 485-505. *)
Definition thread_yield (s : kstate) : run :=
  thread_current s (fun cur _ =>
  ASSERT negb (intr_ctx s) ;;
  let old_level := intr_on s in
  let s := set_intr_on false s in
  let? s := (if negb (cur =? idle_thread s)%nat then push_ready cur s
             else Some s) in
  let s := update cur (set_status THREAD_READY) s in
  do s <- schedule s ;;
  Done (set_intr_on old_level s)).

(** ** The tick handler *)

(** A loop over a kernel list whose body may set the local flag
    [priority_supersded]; [None] is an access outside the thread records. *)
Fixpoint list_foreach (l : list nat)
    (body : nat -> kstate * bool -> option (kstate * bool))
    (acc : kstate * bool) : option (kstate * bool) :=
  match l with
  | [] => Some acc
  | e :: l' => acc' ← body e acc; list_foreach l' body acc'
  end.

(** Lines 207-212: the threads of [all_list] that are ready or running. *)
Fixpoint count_ready (s : kstate) (l : list nat) (ready_threads : Z)
    : option Z :=
  match l with
  | [] => Some ready_threads
  | e :: l' =>
      t ← threads s !! e;
      count_ready s l'
        (if bool_decide (status t = THREAD_READY)
            || bool_decide (status t = THREAD_RUNNING)
         then wrap32 (ready_threads + 1) else ready_threads)
  end.

(** Lines 214-215. *)
Definition next_load_avg (load_avg ready_threads : Z) : Z :=
  add_fp (mul_fp (div_fp (convert_fp 59) (convert_fp 60)) load_avg)
         (mul_fp (div_fp (convert_fp 1) (convert_fp 60))
                 (convert_fp ready_threads)).

(** Line 222. *)
Definition next_recent_cpu (load_avg : Z) (t : thread) : Z :=
  add_fp_int
    (mul_fp (div_fp (mul_fp_int load_avg 2)
                    (add_fp_int (mul_fp_int load_avg 2) 1))
            (recent_cpu t))
    (nice t).

(** Lines 220-234: the body of the recomputation pass. *)
Definition recompute (ticks : Z) (cur : nat) (e : nat)
    (acc : kstate * bool) : option (kstate * bool) :=
  let '(s, priority_supersded) := acc in
  t ← threads s !! e;
  if negb (bool_decide (status t = THREAD_NASCENT)) then
    let s :=
      if ticks `rem` TIMER_FREQ =? 0
      then update e (fun t => set_recent_cpu (next_recent_cpu (load_avg s) t) t) s
      else s in
    t ← threads s !! e;
    let old_priority := priority t in
    let s := update e (fun t => set_priority (recalculate_priority t) t) s in
    t ← threads s !! e;
    if bool_decide (status t = THREAD_READY)
       && negb (old_priority =? priority t) then
      let s := list_remove_elem e s in
      q ← band s (priority t);
      let s := set_ready_queues
                 (<[Z.to_nat (priority t) := list_push_back q e]> (ready_queues s)) s in
      c ← threads s !! cur;
      Some (s, if priority t >? priority c then true else priority_supersded)
    else Some (s, priority_supersded)
  else Some (s, priority_supersded).

(** Lines 198-236: the multi-level feedback queue branch. *)
Definition mlfqs_tick (ticks : Z) (cur : nat) (s : kstate)
    : option (kstate * bool) :=
  let s := if negb (cur =? idle_thread s)%nat
           then update cur (fun t => set_recent_cpu (add_fp_int (recent_cpu t) 1) t) s
           else s in
  if ticks `rem` 4 =? 0 then
    s ← (if ticks `rem` TIMER_FREQ =? 0 then
           ready_threads ← count_ready s (all_list s) 0;
           Some (set_load_avg (next_load_avg (load_avg s) ready_threads) s)
         else Some s);
    list_foreach (all_list s) (recompute ticks cur) (s, false)
  else Some (s, false).

(** Lines 241-247: priority aging of the ready threads. *)
Fixpoint age_ready (l : list nat) (s : kstate) : option kstate :=
  match l with
  | [] => Some s
  | e :: l' =>
      t ← threads s !! e;
      age_ready l'
        (if priority t <? PRI_MAX
         then update e (set_priority (priority t + 1)) s else s)
  end.

(** Lines 238-248: the round-robin branch. *)
Definition rr_tick (s : kstate) : option kstate :=
  let s := set_total_ticks (total_ticks s + 1) s in
  if total_ticks s `rem` (TIME_SLICE * 4) =? 0
  then age_ready (ready_list s) s else Some s.

(** Lines 256-275: the scan of the sleepers; [l] is what is left of
    [waiting_list] from [e] on.  The scan stops at the first sleeper it
    wakes. *)
Fixpoint wake_scan (cur : nat) (l : list nat) (acc : kstate * bool)
    : option (kstate * bool) :=
  match l with
  | [] => Some acc
  | e :: l' =>
      let '(s, priority_supersded) := acc in
      _ ← threads s !! e;
      let s := update e (fun t => set_ticks_wait (wrap64 (ticks_wait t - 1)) t) s in
      sleeper ← threads s !! e;
      if ticks_wait sleeper =? 0 then
        let s := list_remove_elem e s in
        s ← push_ready e s;
        let s := update e (set_status THREAD_READY) s in
        c ← threads s !! cur;
        Some (s, if priority sleeper >? priority c then true
                 else priority_supersded)
      else wake_scan cur l' (s, priority_supersded)
  end.

(** [thread_tick], lines 178-287, built without [USERPROG]: the arm of
    lines 191-194, which counts [user_ticks] and reads [t->pagedir] through
    a local pointer that nothing has set yet, is compiled out, and with it
    the third counter.  The statistics are [long long] counters that no run
    can overflow; [thread_ticks] is [unsigned]. *)
Definition thread_tick (ticks : Z) (s : kstate) : run :=
  thread_current s (fun cur _ =>
  let s := if (cur =? idle_thread s)%nat
           then set_idle_ticks (idle_ticks s + 1) s
           else set_kernel_ticks (kernel_ticks s + 1) s in
  let? (s, priority_supersded) :=
    (if thread_mlfqs s then mlfqs_tick ticks cur s
     else s ← rr_tick s; Some (s, false)) in
  let? (s, priority_supersded) :=
    (if negb (list_empty (waiting_list s))
     then wake_scan cur (waiting_list s) (s, priority_supersded)
     else Some (s, priority_supersded)) in
  let s := set_thread_ticks ((thread_ticks s + 1) `mod` 2 ^ 32) s in
  Done (if (thread_ticks s >=? TIME_SLICE) || priority_supersded
        then set_yield_on_return true s else s)).

(** ** Creating threads *)

(** [strlcpy (t->name, name, sizeof t->name)] with the sixteen bytes the
    spec gives the field: at most fifteen characters are kept. *)
Definition strlcpy_name (name : string) : string := substring 0 15 name.

(** [is_main_thread], lines 703-707. *)
Definition is_main_thread (t : thread) : bool := String.eqb (name t) "main".

(** The record after [memset (t, 0, sizeof *t)] and the first assignments
    of [init_thread]. *)
Definition blank_thread (name : string) : thread :=
  mkThread 0 THREAD_NASCENT (strlcpy_name name) 0 0 0 0 0 0 0%nat.

(** [t->priority_orig = t->priority], line 745. *)
Definition copy_priority_orig (t : thread) : thread :=
  set_priority_orig (priority t) t.

(** [init_thread], lines 711-758. *)
Definition init_thread (t : nat) (name : string) (priority : Z) (s : kstate)
    : run :=
  ASSERT negb (t =? 0)%nat ;;
  ASSERT (PRI_MIN <=? priority) && (priority <=? PRI_MAX) ;;
  let s := set_threads (<[t := blank_thread name]> (threads s)) s in
  let? th := threads s !! t in
  do s <- (if negb (is_main_thread th)
           then thread_current s (fun cur _ => Done (update t (set_parent cur) s))
           else Done (update t (set_parent t) s)) ;;
  do s <- (if negb (thread_mlfqs s) then
             Done (update t (fun x => set_priority_orig priority
                                        (set_priority priority x)) s)
           else
             do s <- (if negb (is_main_thread th) then
                        thread_current s (fun _ c =>
                          Done (update t (fun x => set_recent_cpu (recent_cpu c)
                                                     (set_nice (nice c) x)) s))
                      else
                        Done (update t (fun x => set_recent_cpu 0 (set_nice 0 x)) s)) ;;
             let s := if negb (String.eqb name "idle")
                      then update t (fun x => set_priority (recalculate_priority x) x) s
                      else update t (set_priority priority) s in
             Done (update t copy_priority_orig s)) ;;
  Done (set_all_list (list_push_back (all_list s) t) s).

(** [allocate_tid], lines 881-896; [INT_MAX] is [2^31 - 1]. *)
Definition allocate_tid (s : kstate) : Z * kstate :=
  let tid := next_tid s in
  (tid, set_next_tid (if tid =? 2 ^ 31 - 1 then 2 else tid + 1) s).

(** [thread_init], lines 105-130. *)
Definition thread_init (s : kstate) : run :=
  ASSERT negb (intr_on s) ;;
  let s := set_ready_list [] s in
  let s := set_all_list [] s in
  let s := set_waiting_list [] s in
  let s := if thread_mlfqs s
           then set_ready_queues (replicate (Z.to_nat NQ) []) s else s in
  let s := set_load_avg 0 s in
  let s := set_initial_thread (running s) s in
  do s <- init_thread (initial_thread s) "main" PRI_DEFAULT s ;;
  let s := update (initial_thread s) (set_status THREAD_RUNNING) s in
  let (tid, s) := allocate_tid s in
  Done (update (initial_thread s) (set_tid tid) s).

(** [thread_create], lines 312-352.  [page] is what [palloc_get_page]
    returned, null when no page is left; the stack frames of the new thread
    are not part of this model. *)
Definition thread_create (name : string) (priority : Z) (page : nat)
    (s : kstate) : run :=
  let t := page in
  if (t =? 0)%nat then Done s
  else
    do s <- init_thread t name priority s ;;
    let (tid, s) := allocate_tid s in
    let s := update t (set_tid tid) s in
    thread_unblock t s.

(** [thread_start], lines 134-153: the function up to and including
    [intr_enable ()], not up to its return.  What follows in the source is
    [sema_down (&idle_started)] ([synch.c], not among the sources), which
    blocks the caller until the idle thread has run; facts about
    [thread_start] below are facts about the state at line 153. *)
Definition thread_start (page : nat) (s : kstate) : run :=
  do s <- thread_create "idle" PRI_MIN page s ;;
  let? q := (if negb (thread_mlfqs s) then Some (ready_list s)
             else band s PRI_MIN) in
  match q with
  | [] => Panic
  | front :: _ =>
      let s := set_idle_thread front s in
      let s := list_remove_elem (idle_thread s) s in
      let s := list_remove_allelem (idle_thread s) s in
      Done (set_intr_on true s)
  end.

(** ** Setting priorities *)

(** The [for] loop of [thread_assign_priority], lines 548-551; [n] counts
    the bands from [i] down to [new_priority + 1]. *)
Fixpoint assign_scan (n : nat) (i : Z) (s : kstate) : run :=
  match n with
  | O => Done s
  | S n' =>
      let? q := band s i in
      do s <- (if negb (list_empty q) then thread_yield s else Done s) ;;
      assign_scan n' (i - 1) s
  end.

(** [thread_assign_priority], lines 536-560. *)
Definition thread_assign_priority (new_priority : Z) (cur : nat) (s : kstate)
    : run :=
  let? c := threads s !! cur in
  let old_priority := priority c in
  let s := update cur (set_priority new_priority) s in
  if thread_mlfqs s && (new_priority <? old_priority) then
    assign_scan (Z.to_nat (old_priority - new_priority)) old_priority s
  else
    let s := update cur (set_priority_orig new_priority) s in
    let? m := list_max s (ready_list s) in
    let? t := m in
    let? t := threads s !! t in
    let? c := threads s !! cur in
    if priority c <? priority t then thread_yield s else Done s.

(** [thread_set_priority], lines 563-577. *)
Definition thread_set_priority (new_priority : Z) (s : kstate) : run :=
  thread_current s (fun cur c =>
  if thread_mlfqs s then Done s
  else if negb (num_lock_donors c =? 0) && (new_priority <=? priority c)
  then Done (update cur (set_priority_orig new_priority) s)
  else thread_assign_priority new_priority cur s).

(** [thread_assign_priority] runs with interrupts enabled, and a timer
    interrupt can be taken between its statements.  The next two definitions
    cut it where that matters.  Lines 543-544: the old priority is read and
    the new one stored; the result is the local [old_priority] and the state
    after the store. *)
Definition thread_assign_priority_store (new_priority : Z) (cur : nat)
    (s : kstate) : option (Z * kstate) :=
  c ← threads s !! cur;
  Some (priority c, update cur (set_priority new_priority) s).

(** Lines 546-559 of [thread_assign_priority]: what follows the store, with
    the local [old_priority] in hand. *)
Definition thread_assign_priority_rest (new_priority old_priority : Z)
    (cur : nat) (s : kstate) : run :=
  if thread_mlfqs s && (new_priority <? old_priority) then
    assign_scan (Z.to_nat (old_priority - new_priority)) old_priority s
  else
    let s := update cur (set_priority_orig new_priority) s in
    let? m := list_max s (ready_list s) in
    let? t := m in
    let? t := threads s !! t in
    let? c := threads s !! cur in
    if priority c <? priority t then thread_yield s else Done s.

(** [thread_set_nice], lines 587-601. *)
Definition thread_set_nice (nice : Z) (s : kstate) : run :=
  thread_current s (fun cur _ =>
  ASSERT (-20 <=? nice) && (nice <=? 20) ;;
  if thread_mlfqs s then
    let s := update cur (set_nice nice) s in
    let old_level := intr_on s in
    let s := set_intr_on false s in
    let? c := threads s !! cur in
    do s <- thread_assign_priority (recalculate_priority c) cur s ;;
    Done (set_intr_on old_level s)
  else Done s).

(** [thread_get_priority] and [thread_get_nice], lines 580-608. *)
Definition thread_get_priority (s : kstate) : option Z :=
  priority <$> threads s !! running s.
Definition thread_get_nice (s : kstate) : option Z :=
  nice <$> threads s !! running s.

(** [thread_get_load_avg], lines 611-622. *)
Definition thread_get_load_avg (s : kstate) : Z * kstate :=
  let old_level := intr_on s in
  let s := set_intr_on false s in
  let lah := convert_int_near (mul_fp_int (load_avg s) 100) in
  (lah, set_intr_on old_level s).

(** [thread_get_recent_cpu], lines 625-629; [None] where [thread_current]
    stops on a failed [ASSERT]. *)
Definition thread_get_recent_cpu (s : kstate) : option Z :=
  let t := running s in
  if is_thread s t then
    th ← threads s !! t;
    if bool_decide (status th = THREAD_RUNNING)
    then Some (convert_int_near (mul_fp_int (recent_cpu th) 100))
    else None
  else None.

(** ** Runs of the system *)

(** The machine before [thread_init]: interrupts are off, the statics are
    zero, the boot option has chosen the scheduler, and the loader has put
    the stack in the page [page]. *)
Definition boot (mlfqs : bool) (page : nat) : kstate :=
  mkK ∅ [] [] [] [] 0%nat 0%nat 0 0 0 0 0 mlfqs 1 page false false false.

(** Modelled from the spec: the interrupt layer ([interrupt.c]) is not among
    the sources.  The timer interrupt is taken with interrupts enabled, runs
    the tick handler in interrupt context with interrupts off, and yields on
    return when the handler asked for it. *)
Definition timer_interrupt (ticks : Z) (s : kstate) : run :=
  ASSERT intr_on s ;;
  let s := set_yield_on_return false (set_intr_ctx true (set_intr_on false s)) in
  do s <- thread_tick ticks s ;;
  let s := set_intr_ctx false s in
  do s <- (if yield_on_return s then thread_yield s else Done s) ;;
  Done (set_intr_on true s).

(** Modelled from the spec: [thread_unblock] called by an interrupt
    handler, which runs with interrupts off and in interrupt context. *)
Definition intr_unblock (t : nat) (s : kstate) : run :=
  ASSERT intr_on s ;;
  do s <- thread_unblock t (set_intr_ctx true (set_intr_on false s)) ;;
  Done (set_intr_on true (set_intr_ctx false s)).

(** Modelled from the spec: the lock layer ([synch.c]) is not among the
    sources.  A donor raises the holder's [priority] and counts itself in
    [num_lock_donors]; releasing the lock takes the count down again. *)
Definition donate (t : nat) (p : Z) (s : kstate) : kstate :=
  update t (fun x => set_num_lock_donors (num_lock_donors x + 1)
                       (set_priority (Z.max p (priority x)) x)) s.
(** Modelled from the spec: the release of a lock that donated. *)
Definition undonate (t : nat) (s : kstate) : kstate :=
  update t (fun x => set_num_lock_donors (Z.max 0 (num_lock_donors x - 1)) x) s.

(** What can happen next: the running thread calls into [thread.c] (the
    callers of [thread_block] and [thread_wait] turn interrupts off first,
    and the page of a new thread is a free one), an interrupt arrives, or the
    lock layer donates.  Every call is taken whole: an interrupt arrives
    between two calls, never inside one.  [thread_set_priority] and
    [thread_set_nice] run with interrupts enabled, so the source has runs
    that this machine has not, those in which a timer interrupt falls
    between two statements of such a call
    ([thread_assign_priority_store], [thread_assign_priority_rest]). *)
Inductive call :=
  | Create (name : string) (priority : Z) (page : nat)
  | Block
  | Wait (ticks : Z)
  | Unblock (t : nat)
  | Yield
  | Exit
  | SetPriority (new_priority : Z)
  | SetNice (nice : Z)
  | IntrLevel (level : bool)
  | Timer (ticks : Z)
  | IntrUnblock (t : nat)
  | Donate (t : nat) (p : Z)
  | Undonate (t : nat).

Definition perform (c : call) (s : kstate) : run :=
  match c with
  | Create name priority page =>
      ASSERT bool_decide (threads s !! page = None) ;;
      thread_create name priority page s
  | Block => thread_block (set_intr_on false s)
  | Wait ticks => thread_wait ticks (set_intr_on false s)
  | Unblock t => thread_unblock t s
  | Yield => thread_yield s
  | Exit => thread_exit s
  | SetPriority new_priority => thread_set_priority new_priority s
  | SetNice nice => thread_set_nice nice s
  | IntrLevel level => Done (set_intr_on level s)
  | Timer ticks => timer_interrupt ticks s
  | IntrUnblock t => intr_unblock t s
  | Donate t p => Done (donate t p s)
  | Undonate t => Done (undonate t s)
  end.

(** One step of the system.  A step ends where the CPU is handed over; what
    a suspended thread does once it runs again are further steps. *)
Definition step (s s' : kstate) : Prop :=
  exists c, outcome (perform c s) = Some s'.

(** [thread_init] and [thread_start] on the booted machine. *)
Definition start (mlfqs : bool) (page idle_page : nat) : option kstate :=
  s ← outcome (thread_init (boot mlfqs page));
  outcome (thread_start idle_page s).

(** The states the system passes through once [thread_init] and
    [thread_start] have run. *)
Inductive reachable (mlfqs : bool) : kstate -> Prop :=
  | reachable_start page idle_page s :
      start mlfqs page idle_page = Some s ->
      reachable mlfqs s
  | reachable_step s s' :
      reachable mlfqs s -> step s s' -> reachable mlfqs s'.

(** ** Observations and sample states *)

(** Reading a field of a thread of the store. *)
Definition field {A} (f : thread -> A) (t : nat) (s : kstate) : option A :=
  f <$> threads s !! t.

(** The ready structure: the list of the round-robin scheduler and the bands
    of the feedback queue. *)
Definition in_ready_structure (t : nat) (s : kstate) : Prop :=
  t ∈ ready_list s ∨ Exists (fun q => t ∈ q) (ready_queues s).

(** A script of calls, run from a state. *)
Fixpoint exec (cs : list call) (s : kstate) : option kstate :=
  match cs with
  | [] => Some s
  | c :: cs' => s' ← outcome (perform c s); exec cs' s'
  end.

Global Instance in_ready_structure_dec t s : Decision (in_ready_structure t s).
Proof. unfold in_ready_structure. apply _. Defined.

(** Main creates two threads of higher priority; each runs at once and goes
    to sleep for one tick. *)
Definition two_sleepers : option kstate :=
  start false 1 2 ≫=
  exec [Create "a" 40 3; Wait 1; Create "b" 40 4; Wait 1; IntrLevel true].

(** The ready bands hold threads of the store, and not the thread [cur]
    that is on the CPU. *)
Definition bands_ok (cur : nat) (s : kstate) : bool :=
  forallb (forallb (fun t => is_thread s t && negb (t =? cur)%nat))
          (ready_queues s).

(** Main, at priority 63 in feedback queue mode, has created a thread that
    waits in band 63. *)
Definition main_with_peer : kstate :=
  default (boot true 0)
          (start true 1 2 ≫= exec [Create "a" 31 3]).

(** Main and its peer of [main_with_peer], at the moment the timer interrupt
    enters its handler: interrupts off, in interrupt context. *)
Definition main_with_peer_in_handler : kstate :=
  set_intr_ctx true (set_intr_on false main_with_peer).

(** The threads that count for the load average: ready or running. *)
Definition ready_or_running (th : thread) : bool :=
  bool_decide (status th = THREAD_READY)
  || bool_decide (status th = THREAD_RUNNING).

(** An entry of the store that counts: any such thread but the idle one. *)
Definition counted (s : kstate) (p : nat * thread) : Prop :=
  p.1 <> idle_thread s /\ ready_or_running p.2 = true.

Global Instance counted_dec s p : Decision (counted s p).
Proof. unfold counted. apply _. Defined.

(** The record of thread [t] once line 201 has charged the tick to the
    running thread. *)
Definition charged (s : kstate) (t : nat) (th : thread) : thread :=
  if bool_decide (t = running s /\ t <> idle_thread s)
  then set_recent_cpu (add_fp_int (recent_cpu th) 1) th else th.

(** What one round of the recomputation pass makes of [recent_cpu]. *)
Definition pass_recent_cpu (ticks load_avg : Z) (th : thread) : Z :=
  if bool_decide (status th = THREAD_NASCENT) then recent_cpu th
  else if ticks `rem` TIMER_FREQ =? 0 then next_recent_cpu load_avg th
  else recent_cpu th.

(** A priority that indexes a band. *)
Definition priority_in_range (th : thread) : Prop :=
  PRI_MIN <= priority th <= PRI_MAX.

Global Instance priority_in_range_dec th : Decision (priority_in_range th).
Proof. unfold priority_in_range. apply _. Defined.

(** What the tick handler finds when the timer interrupts a sound feedback
    queue machine: a running thread on the CPU, the bands in place, threads
    behind every element of [all_list] and [waiting_list], and priorities
    that index a band. *)
Definition tick_ready (s : kstate) : Prop :=
  is_thread s (running s) = true /\
  field status (running s) s = Some THREAD_RUNNING /\
  length (ready_queues s) = Z.to_nat NQ /\
  Forall (fun t => is_Some (threads s !! t)) (all_list s) /\
  Forall (fun t => is_Some (threads s !! t)) (waiting_list s) /\
  map_Forall (fun _ => priority_in_range) (threads s).

Global Instance tick_ready_dec s : Decision (tick_ready s).
Proof. unfold tick_ready. apply _. Defined.

(** Records on which the fixed-point arithmetic of the tick handler stays
    within an [int]: [nice] in its range and [recent_cpu] within [2^29]
    either way. *)
Definition fp_small (th : thread) : Prop :=
  -20 <= nice th <= 20 /\ - 2 ^ 29 <= recent_cpu th <= 2 ^ 29.

Global Instance fp_small_dec th : Decision (fp_small th).
Proof. unfold fp_small. apply _. Defined.

(** What donation may do to a thread: raise [priority] above
    [priority_orig], never the other way round. *)
Definition donation_ok (th : thread) : Prop := priority_orig th <= priority th.

(** The round-robin machine with every thread in that shape. *)
Definition rr_inv (s : kstate) : Prop :=
  thread_mlfqs s = false /\ map_Forall (fun _ => donation_ok) (threads s).

(** A property that holds wherever a run hands over or ends, given that it
    holds again whenever the suspended thread is resumed. *)
Fixpoint run_sat (P : kstate -> Prop) (r : run) : Prop :=
  match r with
  | Done s => P s
  | Resched s k => P s /\ forall s', P s' -> run_sat P (k s')
  | Panic | Fault => True
  end.

(** An update of a thread record that leaves both priorities alone. *)
Definition keeps (f : thread -> thread) : Prop :=
  forall th, priority (f th) = priority th /\
             priority_orig (f th) = priority_orig th.

(** Round-robin mode: main holds a donated priority of 50 and then asks
    for priority 10. *)
Definition donated_state : kstate :=
  default (boot false 0)
          (start false 1 2 ≫=
           exec [Create "a" 20 3; Donate 1 50; SetPriority 10]).

(** ** More observations and sample states *)

(** What the loops of the tick handler leave alone: every global but the
    [elem] lists, and the set of pages that hold a thread. *)
Definition tick_frame (s s' : kstate) : Prop :=
  dom (threads s') = dom (threads s) /\
  all_list s' = all_list s /\ idle_thread s' = idle_thread s /\
  initial_thread s' = initial_thread s /\ load_avg s' = load_avg s /\
  idle_ticks s' = idle_ticks s /\ kernel_ticks s' = kernel_ticks s /\
  total_ticks s' = total_ticks s /\ thread_ticks s' = thread_ticks s /\
  thread_mlfqs s' = thread_mlfqs s /\ next_tid s' = next_tid s /\
  running s' = running s /\ intr_on s' = intr_on s /\
  intr_ctx s' = intr_ctx s /\ yield_on_return s' = yield_on_return s.

(** The machine of [main_with_peer] once the tick of a full second has
    been handled. *)
Definition main_with_peer_ticked : kstate :=
  default main_with_peer (outcome (thread_tick 100 main_with_peer)).

(** The machine of [main_with_peer] after a tick inside the second. *)
Definition main_with_peer_ticked_7 : kstate :=
  default main_with_peer (outcome (thread_tick 7 main_with_peer)).

(** [n] calls of [allocate_tid] in a row, with the tids they return. *)
Fixpoint allocate_tids (n : nat) (s : kstate) : list Z * kstate :=
  match n with
  | O => ([], s)
  | S n' =>
      let (tid, s) := allocate_tid s in
      let (l, s) := allocate_tids n' s in
      (tid :: l, s)
  end.

(** The priority that [priority_less] reads through a list element. *)
Definition priority_of (s : kstate) (t : nat) : option Z := field priority t s.

(** A ready list whose threads are of the store: main and two peers of
    priority 20, the round-robin scheduler. *)
Definition rr_two_ready : kstate :=
  default (boot false 0)
          (start false 1 2 ≫= exec [Create "a" 20 3; Create "b" 20 4]).

(** No thread but the one on the CPU has status [THREAD_RUNNING]. *)
Definition one_running (s : kstate) : Prop :=
  forall t th, threads s !! t = Some th -> status th = THREAD_RUNNING ->
               t = running s.

(** An update of a thread record that does not make a thread
    [THREAD_RUNNING]. *)
Definition calm (f : thread -> thread) : Prop :=
  forall th, status (f th) = THREAD_RUNNING -> status th = THREAD_RUNNING.

(** Round-robin mode: main has created a thread of higher priority, which
    took the CPU at once. *)
Definition preempted_main : kstate :=
  default (boot false 0) (start false 1 2 ≫= exec [Create "a" 40 3]).

(** What a context switch leaves as it was: everything but the thread
    records, the lists linked through [elem], the thread on the CPU and the
    count of its ticks. *)
Definition switch_frame (s s' : kstate) : Prop :=
  all_list s' = all_list s /\ idle_thread s' = idle_thread s /\
  initial_thread s' = initial_thread s /\ load_avg s' = load_avg s /\
  idle_ticks s' = idle_ticks s /\ kernel_ticks s' = kernel_ticks s /\
  total_ticks s' = total_ticks s /\ thread_mlfqs s' = thread_mlfqs s /\
  next_tid s' = next_tid s /\ intr_on s' = intr_on s /\
  intr_ctx s' = intr_ctx s /\ yield_on_return s' = yield_on_return s.

(** No thread is ready: the list of the round-robin scheduler, or all the
    bands of the feedback queue, are empty. *)
Definition none_ready (s : kstate) : Prop :=
  if thread_mlfqs s
  then forall i q, (i < 64)%nat -> ready_queues s !! i = Some q -> q = []
  else ready_list s = [].

(** Main of [rr_two_ready] at the point where [thread_block] calls
    [schedule]. *)
Definition blocking_main : kstate :=
  update 1 (set_status THREAD_BLOCKED) (set_intr_on false rr_two_ready).

(** The state that [schedule] leaves from [blocking_main]. *)
Definition blocking_main_scheduled : kstate :=
  default blocking_main (outcome (schedule blocking_main)).

(** The state in which the thread 3 of [preempted_main] has exited. *)
Definition preempted_main_exited : kstate :=
  default preempted_main (outcome (thread_exit preempted_main)).

(** Main of [rr_two_ready] has blocked: thread 3 is on the CPU, thread 4 is
    ready, and main waits to be unblocked. *)
Definition main_blocked : kstate :=
  default (boot false 0)
          (start false 1 2 ≫= exec [Create "a" 20 3; Create "b" 20 4; Block]).

(** [main_blocked] after an interrupt handler has unblocked main. *)
Definition main_unblocked : kstate :=
  default main_blocked
          (outcome (thread_unblock 1 (set_intr_ctx true (set_intr_on false main_blocked)))).

(** The state in which main of [rr_two_ready] has yielded. *)
Definition rr_two_ready_yielded : kstate :=
  default rr_two_ready (outcome (thread_yield rr_two_ready)).

(** The fixed-point values whose hundredfold still fits an [int] with room
    for the rounding. *)
Definition centuple_fits (x : Z) : Prop :=
  - 2 ^ 31 + 2 ^ 13 <= 100 * x < 2 ^ 31 - 2 ^ 13.

(** Round-robin mode with two ready threads, fifteen ticks after the
    start. *)
Definition rr_before_aging : kstate :=
  set_total_ticks 15 (set_intr_ctx true (set_intr_on false rr_two_ready)).

(** [rr_before_aging] after the sixteenth tick. *)
Definition rr_aged : kstate :=
  default rr_before_aging (outcome (thread_tick 16 rr_before_aging)).

(** [main_with_peer] after the fourth tick. *)
Definition main_with_peer_ticked_4 : kstate :=
  default main_with_peer (outcome (thread_tick 4 main_with_peer)).

(** [main_with_peer] with main at [nice] 5. *)
Definition nice_main_with_peer : kstate := update 1 (set_nice 5) main_with_peer.

(** What [init_thread] makes of page 5 when the main of
    [nice_main_with_peer] creates a thread in it. *)
Definition nice_main_child : kstate :=
  default nice_main_with_peer
          (outcome (init_thread 5 "worker" 10 nice_main_with_peer)).

(** The feedback queue machine once [thread_init] has run. *)
Definition booted_main : kstate :=
  default (boot true 1) (outcome (thread_init (boot true 1))).

(** The fields of a thread record that a context switch leaves alone: all
    of them but [status] and [priority]. *)
Definition same_identity (a b : thread) : Prop :=
  set_priority 0 (set_status THREAD_RUNNING a)
  = set_priority 0 (set_status THREAD_RUNNING b).



(** The machine of [booted_main] once [thread_start] has turned interrupts
    on (line 153). *)
Definition started_main : kstate :=
  default booted_main (outcome (thread_start 2 booted_main)).

(** The state in which main of [rr_two_ready] has gone to sleep for five
    ticks. *)
Definition rr_two_ready_asleep : kstate :=
  default rr_two_ready
          (outcome (thread_wait 5 (set_intr_on false rr_two_ready))).

(** The state in which main of [rr_two_ready] has blocked. *)
Definition rr_two_ready_blocked : kstate :=
  default rr_two_ready
          (outcome (thread_block (set_intr_on false rr_two_ready))).

(** * Properties *)

(** ** Machine arithmetic *)

Lemma wrap32_id z : int32 z -> wrap32 z = z.
Proof.
  unfold int32, wrap32. intros Hz.
  rewrite Z.mod_small by lia. lia.
Qed.

Lemma wrap64_id z : - 2 ^ 63 <= z < 2 ^ 63 -> wrap64 z = z.
Proof.
  unfold wrap64. intros Hz.
  rewrite Z.mod_small by lia. lia.
Qed.

Lemma round_to_nearest_close x :
  2 * Z.abs (round_to_nearest x * FP_F - x) <= FP_F.
Proof.
  unfold round_to_nearest, FP_F.
  change (2 ^ 14 `quot` 2) with 8192. change (2 ^ 14) with 16384.
  destruct (Z.leb_spec 0 x) as [Hx|Hx].
  - rewrite Z.quot_div_nonneg by lia.
    pose proof (Z.div_mod (x + 8192) 16384 ltac:(lia)).
    pose proof (Z.mod_pos_bound (x + 8192) 16384 ltac:(lia)). lia.
  - Z.to_euclidean_division_equations. lia.
Qed.

Lemma recalculate_priority_exact t :
  int32 (recent_cpu t) -> -20 <= nice t <= 20 ->
  recalculate_priority t = clamp_priority (round_to_nearest (priority_fp_spec t)).
Proof.
  unfold int32. intros Hrc Hn.
  assert (Hq : - 2 ^ 29 <= recent_cpu t `quot` 4 <= 2 ^ 29).
  { Z.to_euclidean_division_equations. lia. }
  unfold recalculate_priority, convert_int_near, sub_fp, convert_fp,
    div_fp_int, mul_fp_int, clamp_priority, round_to_nearest, priority_fp_spec,
    PRI_MAX, PRI_MIN, FP_F in *.
  change (2 ^ 14 `quot` 2) with 8192. change (2 ^ 14) with 16384.
  rewrite !(wrap32_id (63 * 16384)) by (unfold int32; lia).
  rewrite (wrap32_id (recent_cpu t `quot` 4)) by (unfold int32; lia).
  rewrite (wrap32_id (nice t * 16384)) by (unfold int32; lia).
  rewrite (wrap32_id (nice t * 16384 * 2)) by (unfold int32; lia).
  rewrite (wrap32_id (63 * 16384 - _)) by (unfold int32; lia).
  rewrite (wrap32_id (63 * 16384 - _ - _)) by (unfold int32; lia).
  replace (63 * 16384 - recent_cpu t `quot` 4 - nice t * 16384 * 2)
    with (63 * 16384 - recent_cpu t `quot` 4 - 2 * nice t * 16384) by lia.
  set (x := 63 * 16384 - recent_cpu t `quot` 4 - 2 * nice t * 16384).
  assert (Hx : - 2 ^ 30 <= x <= 2 ^ 30) by (subst x; lia).
  destruct (Z.leb_spec 0 x).
  - rewrite (wrap32_id (x + 8192)) by (unfold int32; lia).
    set (r := (x + 8192) `quot` 16384).
    destruct (Z.ltb_spec r 0); [lia|].
    destruct (Z.gtb_spec r 63); lia.
  - rewrite (wrap32_id (x - 8192)) by (unfold int32; lia).
    set (r := (x - 8192) `quot` 16384).
    destruct (Z.ltb_spec r 0); [lia|].
    destruct (Z.gtb_spec r 63); lia.
Qed.

Lemma recalculate_priority_range t :
  PRI_MIN <= recalculate_priority t <= PRI_MAX.
Proof.
  unfold recalculate_priority, PRI_MIN, PRI_MAX.
  set (p := convert_int_near _).
  destruct (Z.ltb_spec p 0); [lia|].
  destruct (Z.gtb_spec p 63); lia.
Qed.

(** ** Scripts *)

Lemma exec_reachable mlfqs cs : forall s s',
  reachable mlfqs s -> exec cs s = Some s' -> reachable mlfqs s'.
Proof.
  induction cs as [|c cs IH]; intros s s' Hs He; simpl in He.
  - by injection He as <-.
  - destruct (outcome (perform c s)) as [s1|] eqn:E; [|done].
    simpl in He. apply (IH s1); [|done].
    eapply reachable_step; [done|]. by exists c.
Qed.

Lemma script_reachable mlfqs page idle_page cs s :
  (start mlfqs page idle_page ≫= exec cs) = Some s -> reachable mlfqs s.
Proof.
  destruct (start mlfqs page idle_page) as [s0|] eqn:E; [|done].
  simpl. apply exec_reachable. by eapply reachable_start.
Qed.

(** Facts about a concrete run are settled by evaluation. *)
Ltac evaluate :=
  repeat match goal with
         | |- _ /\ _ => split; [vm_compute; reflexivity|]
         end;
  vm_compute; reflexivity.

(** ** The sleep queue *)

(** Once a sleeper is woken, what is behind it on the list plays no part
    in the scan. *)
Lemma wake_scan_stops_at_first_woken cur e l s b sleeper :
  threads s !! e = Some sleeper -> wrap64 (ticks_wait sleeper - 1) = 0 ->
  wake_scan cur (e :: l) (s, b) = wake_scan cur [e] (s, b).
Proof.
  intros He Hz. cbn [wake_scan]. rewrite He. cbn [mbind option_bind].
  cbn [threads update set_threads]. rewrite lookup_alter_eq, He.
  cbn [fmap option_fmap option_map mbind option_bind ticks_wait set_ticks_wait].
  rewrite Hz. reflexivity.
Qed.

(** A sleeper whose count is zero or less is counted down further and
    passed over. *)
Lemma wake_scan_passes_over cur e l s b sleeper :
  threads s !! e = Some sleeper -> - 2 ^ 63 < ticks_wait sleeper <= 0 ->
  wake_scan cur (e :: l) (s, b)
  = wake_scan cur l
      (update e (fun t => set_ticks_wait (wrap64 (ticks_wait t - 1)) t) s, b).
Proof.
  intros He Hz. cbn [wake_scan]. rewrite He. cbn [mbind option_bind].
  cbn [threads update set_threads]. rewrite lookup_alter_eq, He.
  cbn [fmap option_fmap option_map mbind option_bind ticks_wait set_ticks_wait].
  rewrite wrap64_id by lia.
  destruct (Z.eqb_spec (ticks_wait sleeper - 1) 0); [lia|]. reflexivity.
Qed.

(** C1.  The tick handler leaves its scan of [waiting_list] at the first
    sleeper it wakes: with two sleepers that both have one tick left, the
    first becomes ready and the second is neither woken nor counted down. *)
Theorem thread_tick_wakes_first_sleeper_only :
  exists s s',
    two_sleepers = Some s /\ reachable false s /\
    waiting_list s = [3; 4]%nat /\
    field ticks_wait 3 s = Some 1 /\ field ticks_wait 4 s = Some 1 /\
    thread_tick 1 s = Done s' /\
    field status 3 s' = Some THREAD_READY /\ ready_list s' = [3]%nat /\
    field status 4 s' = Some THREAD_BLOCKED /\ field ticks_wait 4 s' = Some 1 /\
    waiting_list s' = [4]%nat.
Proof.
  eexists. eexists.
  split; [vm_compute; reflexivity|].
  split; [apply (script_reachable false 1 2
            [Create "a" 40 3; Wait 1; Create "b" 40 4; Wait 1; IntrLevel true]%nat);
          vm_compute; reflexivity|].
  evaluate.
Qed.

(** C2.  [thread_wait (0)] is not a no-op: the caller is blocked, put on
    [waiting_list] with [ticks_wait = 0] and switched out; the next ticks
    count it down below zero, so it stays asleep. *)
Theorem thread_wait_zero_sleeps :
  exists s0 s s3,
    start false 1 2 = Some s0 /\ running s0 = 1%nat /\
    outcome (thread_wait 0 (set_intr_on false s0)) = Some s /\
    switched (thread_wait 0 (set_intr_on false s0)) = true /\
    running s = 2%nat /\ waiting_list s = [1]%nat /\
    field status 1 s = Some THREAD_BLOCKED /\ field ticks_wait 1 s = Some 0 /\
    exec [IntrLevel true; Timer 1; Timer 2; Timer 3] s = Some s3 /\
    waiting_list s3 = [1]%nat /\
    field status 1 s3 = Some THREAD_BLOCKED /\
    field ticks_wait 1 s3 = Some (-3).
Proof.
  do 3 eexists. evaluate.
Qed.

(** ** The idle thread *)

(** C4.  In either mode: main blocks (as it does on the semaphore of
    [thread_start]), the idle thread runs and is in neither the ready
    structure nor [all_list]; it then unblocks main outside interrupt
    context, and [thread_unblock] appends the idle thread to the ready
    structure before it switches to main. *)
Theorem thread_unblock_readies_idle_thread (mlfqs : bool) :
  exists s s',
    (start mlfqs 1 2 ≫= exec [Block]) = Some s /\ reachable mlfqs s /\
    running s = idle_thread s /\ intr_ctx s = false /\
    ~ in_ready_structure (idle_thread s) s /\ (idle_thread s ∉ all_list s) /\
    outcome (thread_unblock 1 s) = Some s' /\ reachable mlfqs s' /\
    running s' = 1%nat /\ idle_thread s' = idle_thread s /\
    in_ready_structure (idle_thread s') s'.
Proof.
  destruct mlfqs.
  - do 2 eexists.
    split; [vm_compute; reflexivity|].
    split; [apply (script_reachable true 1 2 [Block]); vm_compute; reflexivity|].
    split; [vm_compute; reflexivity|]. split; [vm_compute; reflexivity|].
    split; [apply (bool_decide_unpack _); vm_compute; exact I|].
    split; [apply (bool_decide_unpack _); vm_compute; exact I|].
    split; [vm_compute; reflexivity|].
    split; [apply (script_reachable true 1 2 [Block; Unblock 1%nat]);
            vm_compute; reflexivity|].
    split; [vm_compute; reflexivity|]. split; [vm_compute; reflexivity|].
    apply (bool_decide_unpack _); vm_compute; exact I.
  - do 2 eexists.
    split; [vm_compute; reflexivity|].
    split; [apply (script_reachable false 1 2 [Block]); vm_compute; reflexivity|].
    split; [vm_compute; reflexivity|]. split; [vm_compute; reflexivity|].
    split; [apply (bool_decide_unpack _); vm_compute; exact I|].
    split; [apply (bool_decide_unpack _); vm_compute; exact I|].
    split; [vm_compute; reflexivity|].
    split; [apply (script_reachable false 1 2 [Block; Unblock 1%nat]);
            vm_compute; reflexivity|].
    split; [vm_compute; reflexivity|]. split; [vm_compute; reflexivity|].
    apply (bool_decide_unpack _); vm_compute; exact I.
Qed.

(** ** Range checks *)

(** The sibling checks: [thread_set_nice] and [init_thread] refuse a value
    outside the range. *)
Lemma thread_set_nice_rejects_out_of_range nice s :
  ~ (-20 <= nice <= 20) -> outcome (thread_set_nice nice s) = None.
Proof.
  intros Hn. unfold thread_set_nice, thread_current, kassert, fetch.
  destruct (is_thread s (running s)); [|done].
  destruct (threads s !! running s) as [c|]; [|done].
  destruct (bool_decide _); [|done].
  destruct (Z.leb_spec (-20) nice), (Z.leb_spec nice 20); try done. lia.
Qed.

Lemma init_thread_rejects_out_of_range t name priority s :
  ~ (PRI_MIN <= priority <= PRI_MAX) ->
  init_thread t name priority s = Panic.
Proof.
  intros Hp. unfold init_thread, kassert.
  destruct (negb _); [|done].
  destruct (Z.leb_spec PRI_MIN priority), (Z.leb_spec priority PRI_MAX);
    try done. lia.
Qed.

(** C5.  [thread_set_priority] has no range check: in round-robin mode a
    thread without donors that asks for priority 64 gets it, in [priority]
    and in [priority_orig]. *)
Theorem thread_set_priority_stores_out_of_range :
  exists s s',
    (start false 1 2 ≫= exec [Create "a" 20 3]) = Some s /\
    reachable false s /\ running s = 1%nat /\
    thread_set_priority 64 s = Done s' /\
    field priority 1 s' = Some 64 /\ field priority_orig 1 s' = Some 64 /\
    thread_get_priority s' = Some 64 /\ PRI_MAX < 64.
Proof.
  do 2 eexists.
  split; [vm_compute; reflexivity|].
  split; [apply (script_reachable false 1 2 [Create "a" 20 3%nat]);
          vm_compute; reflexivity|].
  evaluate.
Qed.

(** ** Inheritance of [nice] and [recent_cpu] *)

(** C9.  [init_thread] tells the initial thread by its name: in feedback
    queue mode a thread that the running thread (nice 5, one tick of CPU)
    creates under the name ["main"] starts with [nice] and [recent_cpu] zero
    and as its own parent, although it is not [initial_thread]; under any
    other name it inherits both values. *)
Theorem init_thread_tells_main_by_name :
  exists s s' s'',
    (start true 1 2 ≫= exec [SetNice 5; Timer 1]) = Some s /\
    reachable true s /\ running s = 1%nat /\ initial_thread s = 1%nat /\
    field nice 1 s = Some 5 /\ field recent_cpu 1 s = Some (convert_fp 1) /\
    init_thread 3 "main" PRI_DEFAULT s = Done s' /\
    initial_thread s' = 1%nat /\
    field nice 3 s' = Some 0 /\ field recent_cpu 3 s' = Some 0 /\
    field parent 3 s' = Some 3%nat /\
    init_thread 3 "worker" PRI_DEFAULT s = Done s'' /\
    field nice 3 s'' = Some 5 /\ field recent_cpu 3 s'' = Some (convert_fp 1) /\
    field parent 3 s'' = Some 1%nat.
Proof.
  do 3 eexists.
  split; [vm_compute; reflexivity|].
  split; [apply (script_reachable true 1 2 [SetNice 5; Timer 1]);
          vm_compute; reflexivity|].
  evaluate.
Qed.

(** ** The maximum of an empty ready list *)

(** C10.  The branch of [thread_assign_priority] that does not lower a
    feedback-queue priority takes [list_max] of [ready_list] without looking
    whether the list is empty.  Right after [thread_start] it is: in
    feedback queue mode [thread_set_nice (0)], and in round-robin mode
    [thread_set_priority (PRI_DEFAULT)], read [priority] through the tail
    sentinel. *)
Theorem thread_assign_priority_reads_sentinel :
  exists s s',
    start true 1 2 = Some s /\ reachable true s /\
    ready_list s = [] /\ list_max s (ready_list s) = Some None /\
    thread_set_nice 0 s = Fault /\
    start false 1 2 = Some s' /\ reachable false s' /\
    ready_list s' = [] /\ list_max s' (ready_list s') = Some None /\
    thread_set_priority PRI_DEFAULT s' = Fault.
Proof.
  do 2 eexists.
  split; [vm_compute; reflexivity|].
  split; [apply (reachable_start true 1 2); vm_compute; reflexivity|].
  split; [vm_compute; reflexivity|]. split; [vm_compute; reflexivity|].
  split; [vm_compute; reflexivity|]. split; [vm_compute; reflexivity|].
  split; [apply (reachable_start false 1 2); vm_compute; reflexivity|].
  evaluate.
Qed.

(** ** The priority formula *)

(** C7.  For a thread whose [recent_cpu] is a 32-bit value and whose [nice]
    lies in [-20, 20], [recalculate_priority] computes the fixed-point value
    [PRI_MAX - recent_cpu/4 - 2*nice] without overflow, converts it to the
    nearest integer (the result is at most half a unit away from the
    fixed-point value) and clamps that integer to [PRI_MIN, PRI_MAX]. *)
Theorem recalculate_priority_rounds_and_clamps (t : thread) :
  int32 (recent_cpu t) -> -20 <= nice t <= 20 ->
  recalculate_priority t
    = clamp_priority (round_to_nearest (priority_fp_spec t)) /\
  2 * Z.abs (round_to_nearest (priority_fp_spec t) * FP_F - priority_fp_spec t)
    <= FP_F /\
  PRI_MIN <= recalculate_priority t <= PRI_MAX.
Proof.
  intros Hrc Hn. split; [by apply recalculate_priority_exact|].
  split; [apply round_to_nearest_close|apply recalculate_priority_range].
Qed.

Lemma recalculate_priority_rounds_and_clamps_witness :
  let t := mkThread 3 THREAD_READY "worker" 31 31 5 (convert_fp 9 + 8192) 0 0 1 in
  (int32 (recent_cpu t) /\ -20 <= nice t <= 20) /\
  recalculate_priority t = 51 /\
  recalculate_priority t
    = clamp_priority (round_to_nearest (priority_fp_spec t)).
Proof.
  intros t.
  assert (Hrc : int32 (recent_cpu t)) by (unfold int32; vm_compute; split; [discriminate|reflexivity]).
  assert (Hn : -20 <= nice t <= 20) by (simpl; lia).
  split; [split; assumption|].
  split; [reflexivity|].
  exact (proj1 (recalculate_priority_rounds_and_clamps t Hrc Hn)).
Defined.

(** ** Yielding when the priority drops *)

Lemma switched_bind r f : switched r = true -> switched (bind r f) = true.
Proof. by destruct r. Qed.

Lemma next_band_found n : forall s k i max q,
  (i < n)%nat -> ready_queues s !! i = Some (max :: q) ->
  (forall j, (i < j < n)%nat -> ready_queues s !! j = Some []) ->
  next_band n s k = k max (list_remove_elem max s).
Proof.
  induction n as [|n IH]; intros s k i max q Hi Hq Hempty; [lia|].
  simpl. destruct (decide (i = n)) as [->|Hne].
  - by rewrite Hq.
  - rewrite (Hempty n) by lia. simpl.
    apply (IH s k i max q); [lia|done|]. intros j Hj. apply Hempty. lia.
Qed.

Lemma highest_band (l : list (list nat)) n :
  (n <= length l)%nat ->
  (exists j x q, (j < n)%nat /\ l !! j = Some (x :: q)) ->
  exists i x q, (i < n)%nat /\ l !! i = Some (x :: q) /\
                forall j, (i < j < n)%nat -> l !! j = Some [].
Proof.
  induction n as [|n IH]; intros Hn (j & x & q & Hj & Hl); [lia|].
  destruct (l !! n) as [[|y q']|] eqn:E.
  - destruct IH as (i & x' & q'' & Hi & Hl' & Hall); [lia| |].
    + exists j, x, q. split; [|done].
      destruct (decide (j = n)); [congruence|lia].
    + exists i, x', q''. split; [lia|]. split; [done|].
      intros j' Hj'. destruct (decide (j' = n)) as [->|]; [done|apply Hall; lia].
  - exists n, y, q'. split; [lia|]. split; [done|]. intros; lia.
  - apply lookup_ge_None in E. lia.
Qed.

Lemma thread_schedule_tail_done prev s c p :
  intr_on s = false -> threads s !! running s = Some c ->
  prev <> 0%nat -> prev <> running s -> threads s !! prev = Some p ->
  status p <> THREAD_DYING ->
  exists s', thread_schedule_tail prev s = Done s'.
Proof.
  intros Hi Hc H0 Hne Hp Hd. unfold thread_schedule_tail.
  rewrite Hi. cbn. rewrite Hc. cbn. rewrite lookup_alter_eq, Hc. cbn.
  apply Nat.eqb_neq in H0. rewrite H0.
  destruct (_ && _).
  - cbn. rewrite !lookup_alter_ne, Hp by done. cbn.
    rewrite bool_decide_eq_false_2 by done. cbn. eauto.
  - cbn. rewrite !lookup_alter_ne, Hp by done. cbn.
    rewrite bool_decide_eq_false_2 by done. cbn. eauto.
Qed.

Lemma bands_ok_front cur s i x q :
  bands_ok cur s = true -> ready_queues s !! i = Some (x :: q) ->
  is_thread s x = true /\ x <> cur.
Proof.
  unfold bands_ok. intros Hok Hq.
  rewrite forallb_forall in Hok.
  assert (Hin : In (x :: q) (ready_queues s)).
  { apply list_elem_of_In, list_elem_of_lookup. eauto. }
  specialize (Hok _ Hin). simpl in Hok.
  apply andb_prop in Hok as [Hx _]. apply andb_prop in Hx as [Ht Hne].
  split; [done|]. apply negb_true_iff, Nat.eqb_neq in Hne. done.
Qed.

Lemma schedule_switches s c :
  thread_mlfqs s = true -> intr_on s = false ->
  running s <> 0%nat -> threads s !! running s = Some c ->
  status c = THREAD_READY ->
  (exists i x q, (i < 64)%nat /\ ready_queues s !! i = Some (x :: q) /\
     (forall j, (i < j < 64)%nat -> ready_queues s !! j = Some []) /\
     x <> running s /\ is_thread s x = true) ->
  switched (schedule s) = true.
Proof.
  intros Hm Hi H0 Hc Hst (i & x & q & Hlt & Hq & Hempty & Hne & Hx).
  unfold schedule, next_thread_to_run. rewrite Hm. cbn [negb].
  change (Z.to_nat (PRI_MAX + 1)) with 64%nat.
  rewrite (next_band_found 64 s _ i x q) by done.
  cbn. rewrite Hi, Hc. cbn. rewrite Hst. cbn.
  change (is_thread (list_remove_elem x s) x) with (is_thread s x).
  rewrite Hx. cbn.
  assert (Hneb : (running s =? x)%nat = false) by (apply Nat.eqb_neq; done).
  rewrite Hneb. cbn.
  unfold is_thread in Hx. apply andb_prop in Hx as [_ Hx].
  apply bool_decide_eq_true_1 in Hx as [xt Hxt].
  destruct (thread_schedule_tail_done (running s)
              (set_running x (list_remove_elem x s)) xt c) as [s' Hs'];
    try done.
  - rewrite Hst. done.
  - rewrite Hs'. done.
Qed.

Lemma thread_yield_switches s c :
  thread_mlfqs s = true -> intr_ctx s = false ->
  running s <> 0%nat -> threads s !! running s = Some c ->
  status c = THREAD_RUNNING ->
  length (ready_queues s) = 64%nat -> bands_ok (running s) s = true ->
  0 <= priority c ->
  (exists j x q, priority c < j /\ band s j = Some (x :: q)) ->
  switched (thread_yield s) = true.
Proof.
  intros Hm Hctx H0 Hc Hst Hlen Hok Hp (j & x & q & Hj & Hband).
  unfold band in Hband. destruct (Z.leb_spec 0 j) as [Hj0|]; [|done].
  assert (Hjn : (Z.to_nat j < 64)%nat).
  { apply lookup_lt_Some in Hband. lia. }
  unfold thread_yield, thread_current.
  assert (Hth : is_thread s (running s) = true).
  { unfold is_thread. apply andb_true_intro. split.
    - by apply negb_true_iff, Nat.eqb_neq.
    - apply bool_decide_eq_true_2. eauto. }
  rewrite Hth, Hc. cbn. rewrite Hst, Hctx. cbn.
  assert (Hpush : exists s2,
    (if negb (running s =? idle_thread s)%nat
     then push_ready (running s) (set_intr_on false s)
     else Some (set_intr_on false s)) = Some s2 /\
    threads s2 = threads s /\ running s2 = running s /\
    thread_mlfqs s2 = true /\ intr_on s2 = false /\
    length (ready_queues s2) = length (ready_queues s) /\
    forall i, i <> Z.to_nat (priority c) ->
              ready_queues s2 !! i = ready_queues s !! i).
  { destruct (negb _).
    - unfold push_ready. cbn. rewrite Hm, Hc. cbn.
      unfold band. cbn. destruct (Z.leb_spec 0 (priority c)); [|lia].
      destruct (ready_queues s !! Z.to_nat (priority c)) as [q0|] eqn:Eq.
      + cbn. eexists. split; [done|]. cbn. repeat split; try done.
        * by rewrite length_insert.
        * intros i Hi. by rewrite list_lookup_insert_ne.
      + apply lookup_ge_None in Eq.
        apply lookup_lt_Some in Hband. lia.
    - eexists. split; [done|]. cbn. repeat split; done. }
  destruct Hpush as (s2 & -> & Ht2 & Hr2 & Hm2 & Hi2 & Hl2 & Hq2). cbn.
  apply switched_bind.
  apply (schedule_switches _ (set_status THREAD_READY c)); cbn; try done.
  - congruence.
  - rewrite Hr2, Ht2, lookup_alter_eq, Hc. done.
  - destruct (highest_band (ready_queues s2) 64) as (i & y & q' & Hi & Hy & Hall).
    + lia.
    + exists (Z.to_nat j), x, q. split; [done|]. rewrite Hq2 by lia. done.
    + assert (Hij : (Z.to_nat j <= i)%nat).
      { destruct (decide (Z.to_nat j <= i)%nat); [done|].
        specialize (Hall (Z.to_nat j) ltac:(lia)).
        rewrite Hq2 in Hall by lia. congruence. }
      rewrite Hq2 in Hy by lia.
      destruct (bands_ok_front _ _ _ _ _ Hok Hy) as [Hty Hney].
      exists i, y, q'. split; [done|]. split; [by rewrite Hq2 by lia|].
      split; [done|]. split; [congruence|].
      unfold is_thread in *. cbn. rewrite Ht2.
      apply andb_prop in Hty as [Hy0 Hys]. rewrite Hy0. cbn.
      apply bool_decide_eq_true_2. apply bool_decide_eq_true_1 in Hys.
      apply lookup_alter_is_Some. done.
Qed.

Lemma is_thread_update t f s x : is_thread (update t f s) x = is_thread s x.
Proof.
  unfold is_thread. cbn. f_equal. apply bool_decide_ext.
  by rewrite lookup_alter_is_Some.
Qed.

Lemma bands_ok_update cur t f s :
  bands_ok cur s = true -> bands_ok cur (update t f s) = true.
Proof.
  unfold bands_ok. cbn. intros Hok.
  rewrite forallb_forall in Hok.
  apply forallb_forall. intros q Hq. specialize (Hok q Hq).
  rewrite forallb_forall in Hok.
  apply forallb_forall. intros x Hx. specialize (Hok x Hx).
  by rewrite is_thread_update.
Qed.

Lemma assign_scan_switched n : forall i s,
  switched (assign_scan n i s) = true ->
  exists j q, i - Z.of_nat n < j <= i /\ band s j = Some q /\ q <> [].
Proof.
  induction n as [|n IH]; intros i s Hsw; [done|].
  cbn [assign_scan] in Hsw.
  destruct (band s i) as [[|x q]|] eqn:E; cbn in Hsw; [| |done].
  - destruct (IH _ _ Hsw) as (j & q & Hj & Hq & Hne).
    exists j, q. split; [lia|done].
  - exists i, (x :: q). split; [lia|done].
Qed.

Lemma assign_scan_yields n : forall i s,
  (forall j, i - Z.of_nat n < j <= i -> is_Some (band s j)) ->
  (exists j q, i - Z.of_nat n < j <= i /\ band s j = Some q /\ q <> []) ->
  switched (thread_yield s) = true ->
  switched (assign_scan n i s) = true.
Proof.
  induction n as [|n IH]; intros i s Hall (j & q & Hj & Hq & Hne) Hy; [lia|].
  cbn [assign_scan].
  destruct (Hall i ltac:(lia)) as [[|x q'] E]; rewrite E; cbn.
  - apply IH; [intros; apply Hall; lia| |done].
    exists j, q. split; [|done].
    destruct (decide (j = i)) as [->|]; [congruence|lia].
  - by apply switched_bind.
Qed.


(** What the loop of lines 548-551 looks at.  In feedback queue mode, when
    [thread_assign_priority] lowers the priority of the running thread, the
    thread gives up the CPU exactly when one of the bands from
    [new_priority + 1] up to the old priority is non-empty. *)
Theorem thread_assign_priority_yields_iff
    (new_priority : Z) (cur : nat) (c : thread) (s : kstate) :
  thread_mlfqs s = true -> intr_ctx s = false ->
  running s = cur -> cur <> 0%nat ->
  threads s !! cur = Some c -> status c = THREAD_RUNNING ->
  length (ready_queues s) = Z.to_nat NQ -> bands_ok cur s = true ->
  PRI_MIN <= new_priority < priority c -> priority c <= PRI_MAX ->
  switched (thread_assign_priority new_priority cur s) = true <->
  exists i q, new_priority < i <= priority c /\ band s i = Some q /\ q <> [].
Proof.
  intros Hm Hctx Hrun H0 Hc Hst Hlen Hok Hnew Hold. subst cur.
  unfold PRI_MIN, PRI_MAX in *. change (Z.to_nat NQ) with 64%nat in Hlen.
  unfold thread_assign_priority. rewrite Hc. cbn. rewrite Hm.
  destruct (Z.ltb_spec new_priority (priority c)) as [_|]; [|lia]. cbn.
  set (s1 := update (running s) (set_priority new_priority) s).
  split.
  - intros Hsw. destruct (assign_scan_switched _ _ _ Hsw) as (j & q & Hj & Hq & Hne).
    exists j, q. split; [lia|done].
  - intros (i & q & Hi & Hq & Hne).
    apply assign_scan_yields.
    + intros j Hj. unfold band. cbn.
      destruct (Z.leb_spec 0 j); [|lia].
      apply lookup_lt_is_Some. lia.
    + exists i, q. split; [lia|done].
    + destruct q as [|x q]; [done|].
      apply (thread_yield_switches s1 (set_priority new_priority c)); try done.
      * subst s1. cbn. by rewrite lookup_alter_eq, Hc.
      * by apply bands_ok_update.
      * cbn. lia.
      * exists i, x, q. split; [cbn; lia|done].
Qed.

Example thread_assign_priority_yields_to_band_63 :
  switched (thread_assign_priority 53 1 main_with_peer) = true.
Proof.
  eapply (thread_assign_priority_yields_iff 53 1 _ main_with_peer).
  - vm_compute; reflexivity.
  - vm_compute; reflexivity.
  - vm_compute; reflexivity.
  - discriminate.
  - vm_compute; reflexivity.
  - vm_compute; reflexivity.
  - vm_compute; reflexivity.
  - vm_compute; reflexivity.
  - vm_compute. split; [discriminate|reflexivity].
  - vm_compute. discriminate.
  - exists 63, [3%nat]. split; [simpl; lia|]. split; [vm_compute; reflexivity|done].
Qed.

(** C6.  In feedback queue mode main runs at priority 43 while a thread
    that an interrupt handler made ready waits in band 63, a band strictly
    above the new priority 33; lowering main to 33 through
    [thread_assign_priority] (as [thread_set_nice 15] does) scans the empty
    bands 43 down to 34 only, and main keeps the CPU.  The
    round-robin branch of the same function compares with the highest ready
    priority and does yield to a thread above the caller's old priority:
    with main at 31 and a thread of priority 40 made ready in the same way,
    lowering main to 21 gives up the CPU. *)
Theorem thread_assign_priority_ignores_higher_bands :
  (exists s,
     (start true 1 2 ≫=
      exec [Create "a" 31 3; Yield; Block; SetNice 10; IntrLevel true;
            IntrUnblock 3]) = Some s /\
     reachable true s /\ thread_mlfqs s = true /\ running s = 1%nat /\
     field priority 1 s = Some 43 /\ band s 63 = Some [3%nat] /\
     field status 3 s = Some THREAD_READY /\ field priority 3 s = Some 63 /\
     switched (thread_assign_priority 33 1 s) = false /\
     switched (thread_set_nice 15 s) = false /\
     (outcome (thread_set_nice 15 s) ≫= field priority 1) = Some 33) /\
  (exists s,
     (start false 1 2 ≫=
      exec [Create "a" 40 3; Block; IntrLevel true; IntrUnblock 3]) = Some s /\
     reachable false s /\ thread_mlfqs s = false /\ running s = 1%nat /\
     field priority 1 s = Some 31 /\ ready_list s = [3%nat] /\
     field status 3 s = Some THREAD_READY /\ field priority 3 s = Some 40 /\
     switched (thread_assign_priority 21 1 s) = true /\
     switched (thread_set_priority 21 s) = true).
Proof.
  split.
  - eexists.
    split; [vm_compute; reflexivity|].
    split; [apply (script_reachable true 1 2
              [Create "a" 31 3%nat; Yield; Block; SetNice 10; IntrLevel true;
               IntrUnblock 3%nat]); vm_compute; reflexivity|].
    evaluate.
  - eexists.
    split; [vm_compute; reflexivity|].
    split; [apply (script_reachable false 1 2
              [Create "a" 40 3%nat; Block; IntrLevel true; IntrUnblock 3%nat]);
            vm_compute; reflexivity|].
    evaluate.
Qed.

(** ** The load average *)

(** The update in numbers: [16110 / 2^14] stands for [59/60] and
    [273 / 2^14] for [1/60]. *)
Lemma next_load_avg_value la n :
  0 <= la < 2 ^ 30 -> 0 <= n < 2 ^ 16 ->
  next_load_avg la n = (16110 * la) `quot` 16384 + 273 * n.
Proof.
  intros Hla Hn. unfold next_load_avg.
  replace (div_fp (convert_fp 59) (convert_fp 60)) with 16110
    by (vm_compute; reflexivity).
  replace (div_fp (convert_fp 1) (convert_fp 60)) with 273
    by (vm_compute; reflexivity).
  unfold add_fp, mul_fp, convert_fp, FP_F. change (2 ^ 14) with 16384.
  rewrite (wrap32_id (n * 16384)) by (unfold int32; lia).
  replace (273 * (n * 16384)) with (273 * n * 16384) by lia.
  rewrite Z.quot_mul by lia.
  assert (0 <= (16110 * la) `quot` 16384 <= la).
  { Z.to_euclidean_division_equations. lia. }
  rewrite (wrap32_id ((16110 * la) `quot` 16384)) by (unfold int32; lia).
  rewrite (wrap32_id (273 * n)) by (unfold int32; lia).
  rewrite wrap32_id by (unfold int32; lia). reflexivity.
Qed.

(** The recomputation of [recent_cpu] in numbers: the coefficient
    [2 * load_avg / (2 * load_avg + 1)] is a fixed-point quotient with a
    positive divisor, and nothing overflows. *)
Lemma next_recent_cpu_value la t :
  0 <= la < 2 ^ 30 - 2 ^ 13 -> -20 <= nice t <= 20 ->
  - 2 ^ 30 <= recent_cpu t <= 2 ^ 30 ->
  next_recent_cpu la t
  = ((2 * la * FP_F) `quot` (2 * la + FP_F) * recent_cpu t) `quot` FP_F
    + nice t * FP_F.
Proof.
  intros Hla Hn Hr. unfold next_recent_cpu.
  unfold add_fp_int, mul_fp, div_fp, mul_fp_int, FP_F.
  change (2 ^ 14) with 16384. change (2 ^ 30) with 1073741824 in *.
  change (2 ^ 13) with 8192 in *.
  replace (la * 2) with (2 * la) by lia.
  rewrite (wrap32_id (2 * la)) by (unfold int32; lia).
  rewrite Z.mul_1_l.
  rewrite (wrap32_id (2 * la + 16384)) by (unfold int32; lia).
  assert (Hc : 0 <= (2 * la * 16384) `quot` (2 * la + 16384) < 16384).
  { rewrite Z.quot_div_nonneg by lia. split.
    - apply Z.div_pos; lia.
    - apply Z.div_lt_upper_bound; lia. }
  set (c := (2 * la * 16384) `quot` (2 * la + 16384)) in *.
  rewrite (wrap32_id c) by (unfold int32; lia).
  assert (Hm : - 1073741824 <= (c * recent_cpu t) `quot` 16384 <= 1073741824).
  { destruct (Z_le_gt_dec 0 (recent_cpu t)) as [Hp|Hp].
    - rewrite Z.quot_div_nonneg by nia. split.
      + etrans; [|apply Z.div_pos; nia]. lia.
      + apply Z.lt_le_incl, Z.div_lt_upper_bound; nia.
    - replace (c * recent_cpu t) with (- (c * - recent_cpu t)) by lia.
      rewrite Z.quot_opp_l by lia.
      rewrite Z.quot_div_nonneg by nia. split.
      + enough ((c * - recent_cpu t) `div` 16384 < 1073741824) by lia.
        apply Z.div_lt_upper_bound; nia.
      + enough (0 <= (c * - recent_cpu t) `div` 16384) by lia.
        apply Z.div_pos; nia. }
  rewrite (wrap32_id ((c * recent_cpu t) `quot` 16384)) by (unfold int32; lia).
  rewrite wrap32_id by (unfold int32; lia). reflexivity.
Qed.

Local Opaque wrap32 wrap64 recalculate_priority next_recent_cpu next_load_avg.

Lemma count_ready_spec s l : forall acc r,
  0 <= acc -> acc + Z.of_nat (length l) < 2 ^ 31 ->
  count_ready s l acc = Some r ->
  r = acc + Z.of_nat (length (filter (fun t => from_option ready_or_running false (threads s !! t) = true) l)).
Proof.
  induction l as [|e l IH]; intros acc r Hacc Hlen Hc; cbn in Hc.
  - injection Hc as <-. cbn. lia.
  - destruct (threads s !! e) as [th|] eqn:E; [|done]. cbn in Hc.
    cbn [length] in Hlen.
    rewrite filter_cons. rewrite E. cbn [from_option].
    fold (ready_or_running th) in Hc.
    destruct (ready_or_running th) eqn:R.
    + rewrite wrap32_id in Hc by (unfold int32; lia).
      apply IH in Hc; [|lia..].
      rewrite decide_True by done. cbn [length]. lia.
    + apply IH in Hc; [|lia..].
      rewrite decide_False by done. lia.
Qed.

Lemma recompute_spec ticks cur e s b s' b' :
  recompute ticks cur e (s, b) = Some (s', b') ->
  load_avg s' = load_avg s /\ all_list s' = all_list s /\
  (forall t, t <> e -> threads s' !! t = threads s !! t) /\
  exists th th',
    threads s !! e = Some th /\ threads s' !! e = Some th' /\
    nice th' = nice th /\ status th' = status th /\
    recent_cpu th' = pass_recent_cpu ticks (load_avg s) th.
Proof.
  unfold recompute, pass_recent_cpu.
  destruct (threads s !! e) as [th|] eqn:E; [|done]. cbn.
  destruct (bool_decide (status th = THREAD_NASCENT)) eqn:N; cbn.
  { intros [= <- <-]. repeat split; try done. exists th, th. by rewrite N. }
  destruct (ticks `rem` TIMER_FREQ =? 0) eqn:T; cbn;
    rewrite ?lookup_alter_eq, ?E; cbn;
    rewrite ?lookup_alter_eq, ?E; cbn.
  all: destruct (_ && _); cbn.
  all: repeat match goal with
       | |- context [band ?s ?i ≫= _] =>
           destruct (band s i); cbn [mbind option_bind]; [|done]
       | |- context [(?m !! ?c) ≫= _] =>
           destruct (m !! c); cbn [mbind option_bind]; [|done]
       end.
  all: intros [= <- <-].
  all: split; [reflexivity|]; split; [reflexivity|]; split.
  all: cbn [threads update set_threads set_ready_queues list_remove_elem
            set_ready_list set_waiting_list].
  all: try (intros ? ?; rewrite ?lookup_alter_ne by done; reflexivity).
  all: do 2 eexists; split; [reflexivity|];
       rewrite ?lookup_alter_eq, ?E; cbn [fmap option_fmap option_map].
  all: split; [reflexivity|]; cbn; rewrite ?N, ?T; done.
Qed.


Lemma pass_spec ticks cur l : NoDup l -> forall s b s' b',
  list_foreach l (recompute ticks cur) (s, b) = Some (s', b') ->
  load_avg s' = load_avg s /\ all_list s' = all_list s /\
  (forall t, t ∉ l -> threads s' !! t = threads s !! t) /\
  forall t, t ∈ l -> exists th th',
    threads s !! t = Some th /\ threads s' !! t = Some th' /\
    nice th' = nice th /\ status th' = status th /\
    recent_cpu th' = pass_recent_cpu ticks (load_avg s) th.
Proof.
  induction 1 as [|e l He Hl IH]; intros s b s' b' Hrun;
    cbn [list_foreach] in Hrun.
  - injection Hrun as <- <-. split; [done|]. split; [done|]. split; [done|].
    intros t Ht. inversion Ht.
  - destruct (recompute ticks cur e (s, b)) as [[s1 b1]|] eqn:E1; [|done].
    cbn [mbind option_bind] in Hrun.
    destruct (recompute_spec _ _ _ _ _ _ _ E1)
      as (Hla1 & Hal1 & Hoth1 & th & th1 & Hth & Hth1 & Hn1 & Hs1 & Hr1).
    destruct (IH _ _ _ _ Hrun) as (Hla & Hal & Hoth & Hin).
    split; [congruence|]. split; [congruence|]. split.
    + intros t Ht. apply not_elem_of_cons in Ht as [Hte Htl].
      rewrite Hoth by done. by apply Hoth1.
    + intros t Ht. apply elem_of_cons in Ht as [->|Ht].
      * exists th, th1. rewrite Hoth by done. done.
      * destruct (Hin t Ht) as (th0 & th' & H0 & H' & Hn & Hs & Hr).
        assert (t <> e) by (intros ->; done).
        rewrite Hoth1 in H0 by done.
        exists th0, th'. rewrite Hla1 in Hr. done.
Qed.

Lemma push_ready_frame t s s' :
  push_ready t s = Some s' ->
  threads s' = threads s /\ load_avg s' = load_avg s.
Proof.
  unfold push_ready. destruct (negb _).
  - by intros [= <-].
  - destruct (threads s !! t); cbn; [|done].
    destruct (band s _); cbn; [|done]. by intros [= <-].
Qed.

Lemma wake_scan_frame cur l : forall s b s' b',
  wake_scan cur l (s, b) = Some (s', b') ->
  load_avg s' = load_avg s /\
  forall t, recent_cpu <$> threads s' !! t = recent_cpu <$> threads s !! t.
Proof.
  induction l as [|e l IH]; intros s b s' b' Hrun; cbn [wake_scan] in Hrun.
  - by injection Hrun as <- <-.
  - destruct (threads s !! e) as [th|] eqn:E; cbn [mbind option_bind] in Hrun;
      [|done].
    assert (Hupd : forall f t, (forall x, recent_cpu (f x) = recent_cpu x) ->
              forall m : gmap nat thread,
              recent_cpu <$> alter f e m !! t = recent_cpu <$> m !! t).
    { intros f t Hf m. destruct (decide (e = t)) as [->|].
      - rewrite lookup_alter_eq. destruct (m !! t); cbn; [|done]. by rewrite Hf.
      - by rewrite lookup_alter_ne. }
    cbn [threads update set_threads] in Hrun.
    rewrite lookup_alter_eq, E in Hrun. cbn in Hrun.
    destruct (wrap64 (ticks_wait th - 1) =? 0).
    + destruct (push_ready e _) as [s2|] eqn:P; cbn in Hrun; [|done].
      apply push_ready_frame in P as [Pt Pl]. cbn in Pt, Pl.
      destruct (alter _ e (threads s2) !! cur) as [c|]; cbn in Hrun; [|done].
      injection Hrun as <- <-. cbn. split; [done|].
      intros t. rewrite Hupd by done. rewrite Pt. by rewrite Hupd.
    + apply IH in Hrun as [Hla Hrc]. cbn in Hla, Hrc. split; [done|].
      intros t. rewrite Hrc. by rewrite Hupd.
Qed.

Lemma ready_count (m0 : gmap nat thread) s :
  (forall t, status <$> m0 !! t = status <$> threads s !! t) ->
  NoDup (all_list s) -> idle_thread s ∉ all_list s ->
  (forall t th, threads s !! t = Some th -> ready_or_running th = true ->
                t <> idle_thread s -> t ∈ all_list s) ->
  length (filter (fun t => from_option ready_or_running false (m0 !! t) = true)
                 (all_list s))
  = size (filter (counted s) (threads s)).
Proof.
  intros Hst Hnd Hidle Hall.
  rewrite <- length_map_to_list, <- (length_fmap fst).
  apply Permutation_length, NoDup_Permutation.
  - by apply NoDup_filter.
  - apply NoDup_fst_map_to_list.
  - intros t. rewrite list_elem_of_filter, list_elem_of_fmap.
    assert (Hror : from_option ready_or_running false (m0 !! t)
                   = from_option ready_or_running false (threads s !! t)).
    { specialize (Hst t). unfold ready_or_running.
      destruct (m0 !! t), (threads s !! t); cbn in *; try done.
      by injection Hst as ->. }
    rewrite Hror. split.
    + intros [Hq Hin]. destruct (threads s !! t) as [th|] eqn:E; [|done].
      exists (t, th). split; [done|].
      apply elem_of_map_to_list, map_lookup_filter_Some. split; [done|].
      split; [|done]. cbn. intros ->. done.
    + intros ([t' th] & -> & Hin).
      apply elem_of_map_to_list, map_lookup_filter_Some in Hin as [E [Hne Hr]].
      cbn in *. rewrite E. cbn. split; [done|]. by eapply Hall.
Qed.

Lemma rem_timer_freq ticks : ticks `rem` TIMER_FREQ = 0 -> ticks `rem` 4 = 0.
Proof. unfold TIMER_FREQ. Z.to_euclidean_division_equations. lia. Qed.

(** What a tick that returns has done to [load_avg] and [recent_cpu]. *)
Lemma thread_tick_load_avg_spec (ticks : Z) (s s' : kstate) :
  thread_mlfqs s = true -> ticks `rem` TIMER_FREQ = 0 ->
  NoDup (all_list s) -> Z.of_nat (length (all_list s)) < 2 ^ 31 ->
  idle_thread s ∉ all_list s ->
  (forall t th, threads s !! t = Some th -> ready_or_running th = true ->
                t <> idle_thread s -> t ∈ all_list s) ->
  thread_tick ticks s = Done s' ->
  load_avg s'
    = next_load_avg (load_avg s)
        (Z.of_nat (size (filter (counted s) (threads s)))) /\
  forall t th,
    t ∈ all_list s -> threads s !! t = Some th ->
    status th <> THREAD_NASCENT ->
    field recent_cpu t s'
      = Some (next_recent_cpu (load_avg s') (charged s t th)).
Proof.
  intros Hm Hticks Hnd Hlen Hidle Hall Htick.
  unfold thread_tick, thread_current in Htick.
  destruct (is_thread s (running s)); [|done]. cbn [kassert] in Htick.
  destruct (threads s !! running s) as [c|] eqn:Ec; [|done].
  cbn [fetch] in Htick.
  destruct (bool_decide (status c = THREAD_RUNNING)); [|done].
  cbn [kassert] in Htick.
  set (sa := if (running s =? idle_thread s)%nat then _ else _) in Htick.
  assert (Hsa : threads sa = threads s /\ all_list sa = all_list s /\
                load_avg sa = load_avg s /\ thread_mlfqs sa = true /\
                idle_thread sa = idle_thread s).
  { subst sa. by destruct (_ =? _)%nat. }
  destruct Hsa as (Hta & Hala & Hlaa & Hma & Hia). rewrite Hma in Htick.
  destruct (mlfqs_tick ticks (running s) sa) as [[sb sup]|] eqn:Emt; [|done].
  cbn [fetch] in Htick.
  destruct (if negb (list_empty (waiting_list sb)) then _ else _)
    as [[sc sup']|] eqn:Ew; [|done].
  cbn [fetch] in Htick.
  assert (Hw : load_avg sc = load_avg sb /\
               forall t, recent_cpu <$> threads sc !! t
                         = recent_cpu <$> threads sb !! t).
  { destruct (negb _).
    - by eapply wake_scan_frame.
    - by injection Ew as <- <-. }
  destruct Hw as [Hlac Hrcc].
  assert (Hs' : load_avg s' = load_avg sc /\ threads s' = threads sc).
  { injection Htick as <-. by destruct (_ || _). }
  destruct Hs' as [Hla' Ht']. clear Htick Ew.
  unfold mlfqs_tick in Emt.
  set (s0 := if negb (running s =? idle_thread sa)%nat then _ else _) in Emt.
  rewrite (rem_timer_freq _ Hticks), Hticks in Emt.
  change (0 =? 0) with true in Emt. cbn match in Emt.
  destruct (count_ready s0 (all_list s0) 0) as [rt|] eqn:Ecnt;
    cbn [mbind option_bind] in Emt; [|done].
  assert (Hs0 : all_list s0 = all_list s /\ load_avg s0 = load_avg s /\
                forall t, threads s0 !! t = charged s t <$> threads s !! t).
  { subst s0. rewrite Hia. unfold charged.
    destruct (Nat.eqb_spec (running s) (idle_thread s)) as [Heq|Hne]; cbn.
    - split; [done|]. split; [done|]. intros t. rewrite ?Hta.
      rewrite bool_decide_eq_false_2 by (intros [-> ?]; done).
      by destruct (threads s !! t).
    - split; [done|]. split; [done|]. intros t. rewrite ?Hta.
      destruct (decide (t = running s)) as [->|Hnt].
      + rewrite lookup_alter_eq. by rewrite bool_decide_eq_true_2.
      + rewrite lookup_alter_ne by done.
        rewrite bool_decide_eq_false_2 by (intros [-> ?]; done).
        by destruct (threads s !! t). }
  destruct Hs0 as (Hal0 & Hla0 & Ht0).
  rewrite Hal0 in Ecnt.
  apply count_ready_spec in Ecnt; [|lia..].
  rewrite (ready_count _ s) in Ecnt; try done.
  2:{ intros t. rewrite Ht0. unfold charged.
      destruct (threads s !! t); cbn; [|done]. by destruct (bool_decide _). }
  rewrite Z.add_0_l in Ecnt. subst rt.
  cbn [all_list set_load_avg] in Emt. rewrite Hal0 in Emt.
  apply pass_spec in Emt as (Hlab & _ & _ & Hin); [|done].
  cbn [load_avg set_load_avg] in Hlab, Hin. rewrite Hla0 in Hlab, Hin.
  split; [congruence|].
  intros t th Ht Hth Hnas.
  destruct (Hin t Ht) as (th0 & thb & H0 & Hb & _ & _ & Hr).
  cbn [threads set_load_avg] in H0. rewrite Ht0, Hth in H0.
  injection H0 as <-.
  unfold field. rewrite Ht'. rewrite Hrcc, Hb. cbn. f_equal.
  rewrite Hr. unfold pass_recent_cpu.
  rewrite bool_decide_eq_false_2.
  - rewrite Hticks. cbn. congruence.
  - unfold charged. by destruct (bool_decide _).
Qed.

Lemma map_Forall_alter_2 (P : thread -> Prop) f i (m : gmap nat thread) :
  (forall x, m !! i = Some x -> P (f x)) ->
  map_Forall (fun _ => P) m -> map_Forall (fun _ => P) (alter f i m).
Proof.
  intros Hf Hm j x Hj. destruct (decide (i = j)) as [->|Hne].
  - rewrite lookup_alter_eq in Hj. destruct (m !! j) eqn:E; [|done].
    injection Hj as <-. by apply Hf.
  - rewrite lookup_alter_ne in Hj by done. by eapply Hm.
Qed.

Ltac range_alter Hall :=
  first
    [ exact Hall
    | apply map_Forall_alter_2;
      [ let x := fresh "x" in
        let Hx := fresh "Hx" in
        intros x Hx;
        first [apply recalculate_priority_range|exact (Hall _ _ Hx)]
      | range_alter Hall ] ].

Lemma recompute_total ticks cur e s b :
  is_Some (threads s !! e) -> is_Some (threads s !! cur) ->
  length (ready_queues s) = 64%nat ->
  exists s' b',
    recompute ticks cur e (s, b) = Some (s', b') /\
    length (ready_queues s') = 64%nat /\
    thread_mlfqs s' = thread_mlfqs s /\
    (forall t, t ∈ waiting_list s' -> t ∈ waiting_list s) /\
    (map_Forall (fun _ => priority_in_range) (threads s) ->
     map_Forall (fun _ => priority_in_range) (threads s')).
Proof.
  intros [th E] [c Ec] Hlen. unfold recompute. rewrite E.
  cbn [mbind option_bind].
  destruct (bool_decide (status th = THREAD_NASCENT)); cbn [negb].
  { exists s, b. done. }
  assert (Hcur : forall f g, is_Some (alter f e (alter g e (threads s)) !! cur)).
  { intros f g. rewrite !lookup_alter_is_Some. eauto. }
  assert (Hcur' : forall f, is_Some (alter f e (threads s) !! cur)).
  { intros f. rewrite !lookup_alter_is_Some. eauto. }
  assert (Hwl : forall t, t ∈ list_remove e (waiting_list s) -> t ∈ waiting_list s).
  { intros t Ht. unfold list_remove in Ht. by apply list_elem_of_filter in Ht as [_ ?]. }
  assert (Hband : forall p, PRI_MIN <= p <= PRI_MAX ->
            is_Some ((list_remove e <$> ready_queues s) !! Z.to_nat p)).
  { intros p Hp. apply lookup_lt_is_Some. rewrite length_fmap.
    unfold PRI_MIN, PRI_MAX in Hp. lia. }
  destruct (ticks `rem` TIMER_FREQ =? 0); cbv zeta;
    cbn [threads update set_threads];
    rewrite ?lookup_alter_eq, ?E;
    cbn [fmap option_fmap option_map mbind option_bind];
    rewrite ?lookup_alter_eq, ?E;
    cbn [fmap option_fmap option_map mbind option_bind status set_priority
         set_recent_cpu priority].
  all: destruct (_ && _).
  all: try (do 2 eexists; split; [reflexivity|]; split; [exact Hlen|];
            split; [reflexivity|]; split; [intros t Ht; exact Ht|];
            intros Hall; cbn [threads update set_threads];
            range_alter Hall).
  all: unfold band;
       match goal with
       | |- context [0 <=? recalculate_priority ?x] =>
           pose proof (recalculate_priority_range x) as Hp;
           destruct (Z.leb_spec 0 (recalculate_priority x));
             [|unfold PRI_MIN in Hp; lia];
           destruct (Hband _ Hp) as [q Hq]
       end.
  all: cbn [ready_queues threads waiting_list thread_mlfqs update set_threads
            list_remove_elem set_ready_list set_ready_queues set_waiting_list].
  all: rewrite Hq; cbn [mbind option_bind].
  all: match goal with
       | |- context [alter ?f _ (alter ?g _ (threads _)) !! _] =>
           destruct (Hcur f g) as [c0 Hc0]
       | |- context [alter ?f _ (threads _) !! _] =>
           destruct (Hcur' f) as [c0 Hc0]
       end.
  all: rewrite Hc0; cbn [mbind option_bind].
  all: do 2 eexists; split; [reflexivity|].
  all: cbn [ready_queues threads waiting_list thread_mlfqs update set_threads
            list_remove_elem set_ready_list set_ready_queues set_waiting_list].
  all: split; [by rewrite length_insert, length_fmap|].
  all: split; [reflexivity|]; split; [exact Hwl|].
  all: intros Hall; range_alter Hall.
Qed.

Lemma count_ready_total s l : forall acc,
  Forall (fun t => is_Some (threads s !! t)) l ->
  is_Some (count_ready s l acc).
Proof.
  induction l as [|e l IH]; intros acc Hl; cbn [count_ready]; [done|].
  apply Forall_cons in Hl as [[th E] Hl]. rewrite E.
  cbn [mbind option_bind]. by apply IH.
Qed.

Lemma recompute_store ticks cur e s b s' b' :
  recompute ticks cur e (s, b) = Some (s', b') ->
  forall t, is_Some (threads s' !! t) <-> is_Some (threads s !! t).
Proof.
  intros Hrun t.
  destruct (recompute_spec _ _ _ _ _ _ _ Hrun)
    as (_ & _ & Hoth & th & th' & Hth & Hth' & _).
  destruct (decide (t = e)) as [->|Hne].
  - rewrite Hth, Hth'. split; eauto.
  - by rewrite Hoth.
Qed.

Lemma pass_total ticks cur l : forall s b,
  Forall (fun t => is_Some (threads s !! t)) l ->
  is_Some (threads s !! cur) -> length (ready_queues s) = 64%nat ->
  exists s' b',
    list_foreach l (recompute ticks cur) (s, b) = Some (s', b') /\
    length (ready_queues s') = 64%nat /\
    thread_mlfqs s' = thread_mlfqs s /\
    (forall t, t ∈ waiting_list s' -> t ∈ waiting_list s) /\
    (forall t, is_Some (threads s' !! t) <-> is_Some (threads s !! t)) /\
    (map_Forall (fun _ => priority_in_range) (threads s) ->
     map_Forall (fun _ => priority_in_range) (threads s')).
Proof.
  induction l as [|e l IH]; intros s b Hl Hcur Hlen; cbn [list_foreach].
  - exists s, b. done.
  - apply Forall_cons in Hl as [He Hl].
    destruct (recompute_total ticks cur e s b He Hcur Hlen)
      as (s1 & b1 & E1 & Hlen1 & Hm1 & Hw1 & Hp1).
    rewrite E1. cbn [mbind option_bind].
    pose proof (recompute_store _ _ _ _ _ _ _ E1) as Hst1.
    destruct (IH s1 b1) as (s' & b' & E' & Hlen' & Hm' & Hw' & Hst' & Hp').
    + eapply Forall_impl; [exact Hl|]. intros t Ht. by apply Hst1.
    + by apply Hst1.
    + done.
    + exists s', b'. split; [done|]. split; [done|]. split; [congruence|].
      split; [auto|]. split; [|auto].
      intros t. by rewrite Hst', Hst1.
Qed.

Lemma wake_scan_total cur l : forall s b,
  thread_mlfqs s = true ->
  Forall (fun t => is_Some (threads s !! t)) l ->
  is_Some (threads s !! cur) -> length (ready_queues s) = 64%nat ->
  map_Forall (fun _ => priority_in_range) (threads s) ->
  is_Some (wake_scan cur l (s, b)).
Proof.
  induction l as [|e l IH]; intros s b Hm Hl Hcur Hlen Hpri; cbn [wake_scan];
    [done|].
  apply Forall_cons in Hl as [[th E] Hl]. rewrite E.
  cbn [mbind option_bind threads update set_threads].
  rewrite lookup_alter_eq, E.
  cbn [fmap option_fmap option_map mbind option_bind ticks_wait set_ticks_wait].
  destruct (_ =? 0).
  - unfold push_ready.
    cbn [thread_mlfqs threads ready_queues update set_threads list_remove_elem
         set_ready_list set_ready_queues set_waiting_list].
    rewrite Hm. cbn [negb]. rewrite lookup_alter_eq, E.
    cbn [fmap option_fmap option_map mbind option_bind priority set_ticks_wait].
    pose proof (Hpri _ _ E) as Hp.
    unfold band. unfold priority_in_range, PRI_MIN, PRI_MAX in Hp.
    destruct (Z.leb_spec 0 (priority th)); [|lia].
    cbn [ready_queues set_ready_list set_ready_queues set_waiting_list update
         set_threads].
    match goal with
    | |- context [ready_queues (list_remove_elem ?x ?s0)] =>
        change (ready_queues (list_remove_elem x s0))
          with (list_remove e <$> ready_queues s)
    end.
    destruct ((list_remove e <$> ready_queues s) !! Z.to_nat (priority th))
      as [q|] eqn:Eq.
    2:{ apply lookup_ge_None in Eq. rewrite length_fmap in Eq. lia. }
    cbn [mbind option_bind threads update set_threads set_ready_queues
         set_ready_list set_waiting_list].
    match goal with
    | |- is_Some (?o ≫= _) =>
        assert (Ho : is_Some o); [|destruct Ho as [c0 ->]; cbn; eauto]
    end.
    rewrite lookup_alter_is_Some.
    cbn [threads list_remove_elem set_ready_list set_ready_queues
         set_waiting_list update set_threads].
    by rewrite lookup_alter_is_Some.
  - apply IH; cbn [thread_mlfqs threads ready_queues update set_threads];
      try done.
    + eapply Forall_impl; [exact Hl|]. intros t Ht. cbn beta.
      by rewrite lookup_alter_is_Some.
    + by rewrite lookup_alter_is_Some.
    + apply map_Forall_alter_2; [|done]. intros x Hx. exact (Hpri _ _ Hx).
Qed.

Lemma thread_tick_returns ticks s :
  thread_mlfqs s = true -> tick_ready s ->
  exists s', thread_tick ticks s = Done s'.
Proof.
  intros Hm (Hrun & Hst & Hlen & Hal & Hwl & Hpri).
  change (Z.to_nat NQ) with 64%nat in Hlen.
  unfold thread_tick, thread_current. rewrite Hrun. cbn [kassert].
  unfold field in Hst.
  destruct (threads s !! running s) as [c|] eqn:Ec; [|done].
  injection Hst as Hst. cbn [fetch]. rewrite Hst.
  rewrite bool_decide_eq_true_2 by done. cbn [kassert]. cbv zeta.
  set (sa := if (running s =? idle_thread s)%nat then _ else _).
  assert (Hsa : threads sa = threads s /\ all_list sa = all_list s /\
                waiting_list sa = waiting_list s /\ thread_mlfqs sa = true /\
                ready_queues sa = ready_queues s).
  { subst sa. by destruct (_ =? _)%nat. }
  destruct Hsa as (Hta & Hala & Hwla & Hma & Hqa). clearbody sa.
  rewrite Hma.
  assert (Hmt : exists sb sup,
             mlfqs_tick ticks (running s) sa = Some (sb, sup) /\
             length (ready_queues sb) = 64%nat /\ thread_mlfqs sb = true /\
             (forall t, t ∈ waiting_list sb -> t ∈ waiting_list s) /\
             (forall t, is_Some (threads sb !! t) <-> is_Some (threads s !! t)) /\
             map_Forall (fun _ => priority_in_range) (threads sb)).
  { unfold mlfqs_tick. cbv zeta.
    set (s0 := if negb (running s =? idle_thread sa)%nat then _ else _).
    assert (Hs0 : all_list s0 = all_list s /\ waiting_list s0 = waiting_list s /\
                  thread_mlfqs s0 = true /\ ready_queues s0 = ready_queues s /\
                  (forall t, is_Some (threads s0 !! t) <-> is_Some (threads s !! t)) /\
                  map_Forall (fun _ => priority_in_range) (threads s0)).
    { subst s0. destruct (negb _).
      - cbn. rewrite Hta.
        split; [done|]. split; [done|]. split; [done|]. split; [done|].
        split.
        + intros t. by rewrite lookup_alter_is_Some.
        + apply map_Forall_alter_2; [|done]. intros x Hx. exact (Hpri _ _ Hx).
      - rewrite Hta. done. }
    destruct Hs0 as (Hal0 & Hwl0 & Hm0 & Hq0 & Hst0 & Hp0). clearbody s0.
    destruct (ticks `rem` 4 =? 0).
    2:{ exists s0, false. rewrite Hq0, Hwl0. done. }
    assert (Hall0 : Forall (fun t => is_Some (threads s0 !! t)) (all_list s0)).
    { rewrite Hal0. eapply Forall_impl; [exact Hal|]. intros t Ht. by apply Hst0. }
    set (s1 := if ticks `rem` TIMER_FREQ =? 0 then _ else Some s0).
    assert (H1 : exists s1', s1 = Some s1' /\ threads s1' = threads s0 /\
                   all_list s1' = all_list s0 /\
                   waiting_list s1' = waiting_list s0 /\
                   thread_mlfqs s1' = true /\ ready_queues s1' = ready_queues s0).
    { subst s1. destruct (_ =? 0).
      - destruct (count_ready_total s0 (all_list s0) 0 Hall0) as [rt ->].
        cbn [mbind option_bind]. eexists. split; [done|]. done.
      - eexists. split; [done|]. done. }
    destruct H1 as (s1' & -> & Ht1 & Hal1 & Hwl1 & Hm1 & Hq1).
    cbn [mbind option_bind].
    destruct (pass_total ticks (running s) (all_list s1') s1' false)
      as (sb & sup & Eb & Hlenb & Hmb & Hwb & Hstb & Hpb).
    - by rewrite Hal1, Ht1.
    - rewrite Ht1. apply Hst0. eauto.
    - rewrite Hq1, Hq0. done.
    - exists sb, sup. split; [done|]. split; [done|]. split; [congruence|].
      split; [intros t Ht; rewrite <- Hwl0, <- Hwl1; by apply Hwb|].
      split; [intros t; rewrite Hstb, Ht1; apply Hst0|].
      apply Hpb. by rewrite Ht1. }
  destruct Hmt as (sb & sup & -> & Hlenb & Hmb & Hwb & Hstb & Hpb).
  cbn [fetch].
  assert (Hw : is_Some (if negb (list_empty (waiting_list sb))
                        then wake_scan (running s) (waiting_list sb) (sb, sup)
                        else Some (sb, sup))).
  { destruct (negb _); [|done].
    apply wake_scan_total; try done.
    - apply Forall_forall. intros t Ht. apply Hstb.
      rewrite Forall_forall in Hwl. apply Hwl. by apply Hwb.
    - apply Hstb. eauto. }
  destruct Hw as [[sc sup'] ->]. cbn [fetch]. eauto.
Qed.

(** C8.  In feedback queue mode the timer interrupt, in its handler with
    interrupts off, takes a tick that is a multiple of [TIMER_FREQ] on a
    sound machine whose [all_list] holds every ready or running thread but
    the idle one (once each, fewer than [2^16] of them), with [load_avg]
    from [0] up to [2^29] and every thread's [nice] and [recent_cpu] in
    range.  Then the tick handler returns and: [load_avg] has become
    [(59/60) * load_avg + (1/60) * ready_threads] in fixed point ([59/60]
    is [(59 * FP_F) / 60] and a product is divided by [FP_F], every division
    truncating), where [ready_threads] is the number of threads of the
    store, the idle thread left out, that are ready or running; and the
    [recent_cpu] of every thread of [all_list] past [THREAD_NASCENT] has
    been recomputed with that new [load_avg], not the old one, as
    [(2 * load_avg) / (2 * load_avg + 1) * recent_cpu + nice], where the
    divisor is positive and [recent_cpu] is the value the thread had, plus
    the tick just charged if it is the running thread and not the idle
    one. *)
Theorem thread_tick_load_avg_first (ticks : Z) (s : kstate) :
  thread_mlfqs s = true -> intr_ctx s = true -> intr_on s = false ->
  ticks `rem` TIMER_FREQ = 0 -> tick_ready s ->
  NoDup (all_list s) -> Z.of_nat (length (all_list s)) < 2 ^ 16 ->
  idle_thread s ∉ all_list s ->
  (forall t th, threads s !! t = Some th -> ready_or_running th = true ->
                t <> idle_thread s -> t ∈ all_list s) ->
  0 <= load_avg s < 2 ^ 29 ->
  map_Forall (fun _ => fp_small) (threads s) ->
  exists s',
    thread_tick ticks s = Done s' /\
    load_avg s'
      = ((59 * FP_F) `quot` 60 * load_avg s) `quot` FP_F
        + FP_F `quot` 60
          * Z.of_nat (size (filter (counted s) (threads s))) /\
    0 < 2 * load_avg s' + FP_F /\
    forall t th,
      t ∈ all_list s -> threads s !! t = Some th ->
      status th <> THREAD_NASCENT ->
      field recent_cpu t s'
        = Some (((2 * load_avg s' * FP_F) `quot` (2 * load_avg s' + FP_F)
                 * (recent_cpu th
                    + (if bool_decide (t = running s /\ t <> idle_thread s)
                       then FP_F else 0))) `quot` FP_F
                + nice th * FP_F).
Proof.
  intros Hm _ _ Hticks Hready Hnd Hlen Hidle Hall Hla Hsmall.
  destruct (thread_tick_returns ticks s Hm Hready) as [s' Hs'].
  assert (Hl31 : Z.of_nat (length (all_list s)) < 2 ^ 31) by lia.
  destruct (thread_tick_load_avg_spec ticks s s' Hm Hticks Hnd Hl31 Hidle
              Hall Hs') as [Hl Hrc].
  assert (Hn : 0 <= Z.of_nat (size (filter (counted s) (threads s))) < 2 ^ 16).
  { rewrite <- (ready_count (threads s) s) by done.
    pose proof (length_filter
      (fun t => from_option ready_or_running false (threads s !! t) = true)
      (all_list s)). lia. }
  remember (Z.of_nat (size (filter (counted s) (threads s)))) as n eqn:En.
  rewrite next_load_avg_value in Hl by lia.
  assert (Hq : 0 <= (16110 * load_avg s) `quot` 16384 <= load_avg s).
  { rewrite Z.quot_div_nonneg by lia. split.
    - apply Z.div_pos; lia.
    - apply Z.div_le_upper_bound; lia. }
  change (2 ^ 16) with 65536 in *. change (2 ^ 29) with 536870912 in *.
  assert (Hl' : 0 <= load_avg s' < 2 ^ 30 - 2 ^ 13).
  { change (2 ^ 30 - 2 ^ 13) with 1073733632. lia. }
  exists s'. split; [done|]. split.
  { change ((59 * FP_F) `quot` 60) with 16110.
    change (FP_F `quot` 60) with 273. exact Hl. }
  split; [unfold FP_F; lia|].
  intros t th Hin Hth Hst. rewrite (Hrc t th Hin Hth Hst). f_equal.
  destruct (Hsmall t th Hth) as [Hnice Hrcpu].
  change (2 ^ 29) with 536870912 in Hrcpu.
  assert (Hch : nice (charged s t th) = nice th /\
                recent_cpu (charged s t th)
                = recent_cpu th
                  + (if bool_decide (t = running s /\ t <> idle_thread s)
                     then FP_F else 0)).
  { unfold charged. destruct (bool_decide _); cbn.
    - split; [done|]. unfold add_fp_int, FP_F. change (2 ^ 14) with 16384.
      apply wrap32_id. unfold int32. lia.
    - split; [done|lia]. }
  destruct Hch as [Hn1 Hr1].
  rewrite next_recent_cpu_value.
  - by rewrite Hn1, Hr1.
  - exact Hl'.
  - by rewrite Hn1.
  - rewrite Hr1. unfold FP_F. change (2 ^ 14) with 16384.
    change (2 ^ 30) with 1073741824. destruct (bool_decide _); lia.
Qed.

(** With main running and one peer ready, the first full second takes
    [load_avg] from [0] to [2/60], that is [546 / 2^14]. *)
Example thread_tick_load_avg_of_two :
  load_avg <$> outcome (thread_tick 100 main_with_peer) = Some 546.
Proof. vm_compute. reflexivity. Qed.

(** In the same second, seen from inside the handler: the new [load_avg]
    is [546]; main, charged the tick, goes to a [recent_cpu] of
    [(2 * 546 * 2^14 / (2 * 546 + 2^14)) * 2^14 / 2^14 = 1023], and its
    peer stays at [0]. *)
Example thread_tick_recent_cpu_of_two :
  (outcome (thread_tick 100 main_with_peer_in_handler) ≫=
   fun s' => Some (load_avg s', field recent_cpu 1 s', field recent_cpu 3 s'))
  = Some (546, Some 1023, Some 0).
Proof. vm_compute. reflexivity. Qed.

Lemma thread_tick_load_avg_first_witness :
  load_avg main_with_peer_in_handler = 0 /\
  size (filter (counted main_with_peer_in_handler)
               (threads main_with_peer_in_handler)) = 2%nat /\
  exists s',
    thread_tick 100 main_with_peer_in_handler = Done s' /\
    load_avg s'
      = ((59 * FP_F) `quot` 60 * load_avg main_with_peer_in_handler)
          `quot` FP_F
        + FP_F `quot` 60
          * Z.of_nat (size (filter (counted main_with_peer_in_handler)
                                   (threads main_with_peer_in_handler))) /\
    0 < 2 * load_avg s' + FP_F /\
    forall t th,
      t ∈ all_list main_with_peer_in_handler ->
      threads main_with_peer_in_handler !! t = Some th ->
      status th <> THREAD_NASCENT ->
      field recent_cpu t s'
        = Some (((2 * load_avg s' * FP_F) `quot` (2 * load_avg s' + FP_F)
                 * (recent_cpu th
                    + (if bool_decide
                            (t = running main_with_peer_in_handler /\
                             t <> idle_thread main_with_peer_in_handler)
                       then FP_F else 0))) `quot` FP_F
                + nice th * FP_F).
Proof.
  split; [vm_compute; reflexivity|].
  split; [vm_compute; reflexivity|].
  apply (thread_tick_load_avg_first 100 main_with_peer_in_handler).
  - vm_compute; reflexivity.
  - vm_compute; reflexivity.
  - vm_compute; reflexivity.
  - vm_compute; reflexivity.
  - apply (bool_decide_unpack _). vm_compute. exact I.
  - apply (bool_decide_unpack _). vm_compute. exact I.
  - vm_compute; reflexivity.
  - apply (bool_decide_unpack _). vm_compute. exact I.
  - apply (bool_decide_unpack
             (map_Forall (fun t th =>
                            ready_or_running th = true ->
                            t <> idle_thread main_with_peer_in_handler ->
                            t ∈ all_list main_with_peer_in_handler)
                         (threads main_with_peer_in_handler))).
    vm_compute. exact I.
  - apply (bool_decide_unpack _). vm_compute. exact I.
  - apply (bool_decide_unpack _). vm_compute. exact I.
Defined.

Local Transparent wrap32 wrap64 recalculate_priority next_recent_cpu next_load_avg.

(** ** Donation and [priority_orig] *)

Local Opaque wrap32 wrap64 recalculate_priority next_recent_cpu next_load_avg.

Lemma run_sat_bind P r f :
  run_sat P r -> (forall s, P s -> run_sat P (f s)) -> run_sat P (bind r f).
Proof.
  induction r as [s| | |s k IH]; cbn; intros Hr Hf; try done.
  - by apply Hf.
  - destruct Hr as [Hs Hk]. split; [done|]. intros s' Hs'. by apply IH; [apply Hk|].
Qed.

Lemma run_sat_outcome P r s : run_sat P r -> outcome r = Some s -> P s.
Proof. destruct r; cbn; intros H [= <-]; [done|by destruct H]. Qed.

Lemma rr_inv_update t f s :
  (forall th, threads s !! t = Some th -> donation_ok th -> donation_ok (f th)) ->
  rr_inv s -> rr_inv (update t f s).
Proof.
  intros Hf [Hm Hall]. split; [done|]. cbn.
  intros i th Hi.
  destruct (decide (t = i)) as [->|Hne].
  - rewrite lookup_alter_eq in Hi.
    destruct (threads s !! i) as [th0|] eqn:E; [|done].
    injection Hi as <-. apply Hf; [done|]. by eapply Hall.
  - rewrite lookup_alter_ne in Hi by done. by eapply Hall.
Qed.

Lemma rr_inv_insert t th s :
  donation_ok th -> rr_inv s ->
  rr_inv (set_threads (<[t := th]> (threads s)) s).
Proof.
  intros Hth [Hm Hall]. split; [done|]. cbn. by apply map_Forall_insert_2.
Qed.

Lemma rr_inv_free t s : rr_inv s -> rr_inv (palloc_free_page t s).
Proof.
  intros [Hm Hall]. split; [done|]. cbn. by apply map_Forall_delete.
Qed.

Lemma rr_inv_lookup s t th :
  rr_inv s -> threads s !! t = Some th -> donation_ok th.
Proof. intros [_ Hall] Ht. by eapply Hall. Qed.

Lemma rr_inv_keeps t f s : keeps f -> rr_inv s -> rr_inv (update t f s).
Proof.
  intros Hf. apply rr_inv_update. intros th _. unfold donation_ok.
  destruct (Hf th) as [-> ->]. done.
Qed.

Lemma keeps_status v : keeps (set_status v).
Proof. done. Qed.
Lemma keeps_ticks_wait f :
  keeps (fun t => set_ticks_wait (f t) t).
Proof. done. Qed.
Lemma keeps_ticks_wait' v : keeps (set_ticks_wait v).
Proof. done. Qed.
Lemma keeps_tid v : keeps (set_tid v).
Proof. done. Qed.
Lemma keeps_parent v : keeps (set_parent v).
Proof. done. Qed.
Lemma keeps_nice v : keeps (set_nice v).
Proof. done. Qed.

Lemma push_ready_inv t s s' : push_ready t s = Some s' -> rr_inv s -> rr_inv s'.
Proof.
  unfold push_ready. intros H [Hm Hall]. rewrite Hm in H. cbn in H.
  injection H as <-. done.
Qed.

Lemma thread_schedule_tail_inv prev s :
  rr_inv s -> run_sat rr_inv (thread_schedule_tail prev s).
Proof.
  intros Hinv. unfold thread_schedule_tail, kassert, fetch.
  destruct (negb (intr_on s)); [|done].
  destruct (threads s !! running s) as [c|] eqn:Ec; [|done].
  cbn [threads set_thread_ticks update set_threads]. rewrite lookup_alter_eq, Ec. cbn [fmap option_fmap option_map].
  set (s1 := set_thread_ticks 0 (update (running s) (set_status THREAD_RUNNING) s)).
  assert (H1 : rr_inv s1) by (by apply rr_inv_keeps).
  set (s2 := if _ && _ then _ else s1).
  assert (H2 : rr_inv s2).
  { subst s2. destruct (_ && _); [|done].
    apply rr_inv_update; [|done]. intros th Hth _.
    subst s1. cbn in Hth. rewrite lookup_alter_eq, Ec in Hth.
    injection Hth as <-. unfold donation_ok. cbn. lia. }
  clearbody s2. 
  destruct (prev =? 0)%nat; [done|].
  destruct (threads s2 !! prev); [|done].
  destruct (_ && _); [|done].
  destruct (negb _); [|done]. cbn. by apply rr_inv_free.
Qed.

Ltac strip :=
  repeat match goal with
  | |- rr_inv (set_ready_list _ ?s) => change (rr_inv s)
  | |- rr_inv (set_ready_queues _ ?s) => change (rr_inv s)
  | |- rr_inv (set_waiting_list _ ?s) => change (rr_inv s)
  | |- rr_inv (set_all_list _ ?s) => change (rr_inv s)
  | |- rr_inv (set_idle_thread _ ?s) => change (rr_inv s)
  | |- rr_inv (set_initial_thread _ ?s) => change (rr_inv s)
  | |- rr_inv (set_load_avg _ ?s) => change (rr_inv s)
  | |- rr_inv (set_idle_ticks _ ?s) => change (rr_inv s)
  | |- rr_inv (set_kernel_ticks _ ?s) => change (rr_inv s)
  | |- rr_inv (set_total_ticks _ ?s) => change (rr_inv s)
  | |- rr_inv (set_thread_ticks _ ?s) => change (rr_inv s)
  | |- rr_inv (set_next_tid _ ?s) => change (rr_inv s)
  | |- rr_inv (set_running _ ?s) => change (rr_inv s)
  | |- rr_inv (set_intr_on _ ?s) => change (rr_inv s)
  | |- rr_inv (set_intr_ctx _ ?s) => change (rr_inv s)
  | |- rr_inv (set_yield_on_return _ ?s) => change (rr_inv s)
  | |- rr_inv (list_remove_elem _ ?s) => change (rr_inv s)
  | |- rr_inv (list_remove_allelem _ ?s) => change (rr_inv s)
  | |- rr_inv (update _ (set_status _) _) => apply rr_inv_keeps; [done|]
  | |- rr_inv (update _ (set_ticks_wait _) _) => apply rr_inv_keeps; [done|]
  | |- rr_inv (update _ (set_tid _) _) => apply rr_inv_keeps; [done|]
  | |- rr_inv (update _ (set_parent _) _) => apply rr_inv_keeps; [done|]
  | |- rr_inv (update _ (set_nice _) _) => apply rr_inv_keeps; [done|]
  | |- rr_inv (if _ then _ else _) => case_match
  | H : push_ready _ ?s = Some ?s' |- rr_inv ?s' =>
      apply (push_ready_inv _ _ _ H)
  end; try assumption.

Ltac step_run :=
  match goal with
  | |- run_sat _ (kassert ?b _) =>
      unfold kassert at 1; destruct b; [|exact I]
  | |- run_sat _ (fetch (if ?b then _ else _) _) => destruct b
  | |- run_sat _ (fetch (Some _) _) => unfold fetch at 1
  | |- run_sat _ (fetch ?o _) =>
      unfold fetch at 1; let E := fresh "E" in destruct o eqn:E; [|exact I]
  | |- run_sat _ (bind _ _) => apply run_sat_bind; [|intros ? ?]
  | |- run_sat _ (if ?b then _ else _) => destruct b eqn:?
  | |- run_sat _ (let (_, _) := ?p in _) => destruct p
  | |- run_sat _ (Done _) => cbn [run_sat]; strip
  | |- run_sat _ (Resched _ _) =>
      cbn [run_sat]; split; [strip|intros ? ?; try assumption]
  | |- run_sat _ Panic => exact I
  | |- run_sat _ Fault => exact I
  end.

Lemma next_thread_to_run_inv s k :
  rr_inv s -> (forall n s1, rr_inv s1 -> run_sat rr_inv (k n s1)) ->
  run_sat rr_inv (next_thread_to_run s k).
Proof.
  intros Hinv Hk. unfold next_thread_to_run.
  destruct Hinv as [Hm Hall]. rewrite Hm. cbn [negb].
  destruct (list_empty _); [by apply Hk|].
  repeat step_run. by apply Hk.
Qed.

Lemma schedule_inv s : rr_inv s -> run_sat rr_inv (schedule s).
Proof.
  intros Hinv. unfold schedule. apply next_thread_to_run_inv; [done|].
  intros next s1 H1. cbv zeta. repeat step_run.
  - by apply thread_schedule_tail_inv.
  - by apply thread_schedule_tail_inv.
Qed.

Lemma thread_current_inv P s k :
  (forall th, threads s !! running s = Some th ->
              run_sat P (k (running s) th)) ->
  run_sat P (thread_current s k).
Proof.
  intros Hk. unfold thread_current. cbv zeta. repeat step_run. by apply Hk.
Qed.

Ltac op_run :=
  repeat first
    [ step_run
    | apply thread_current_inv; intros ? ?
    | apply schedule_inv; strip ].

Lemma thread_wait_inv ticks s : rr_inv s -> run_sat rr_inv (thread_wait ticks s).
Proof. intros Hinv. unfold thread_wait. cbv zeta. op_run. Qed.

Lemma thread_block_inv s : rr_inv s -> run_sat rr_inv (thread_block s).
Proof. intros Hinv. unfold thread_block. cbv zeta. op_run. Qed.

Lemma thread_yield_inv s : rr_inv s -> run_sat rr_inv (thread_yield s).
Proof. intros Hinv. unfold thread_yield. cbv zeta. op_run. Qed.

Lemma thread_exit_inv s : rr_inv s -> run_sat rr_inv (thread_exit s).
Proof. intros Hinv. unfold thread_exit. cbv zeta. op_run. Qed.

Lemma thread_unblock_inv t s : rr_inv s -> run_sat rr_inv (thread_unblock t s).
Proof. intros Hinv. unfold thread_unblock. cbv zeta. op_run. Qed.

Lemma rr_inv_assign cur p s :
  rr_inv s ->
  rr_inv (update cur (set_priority_orig p) (update cur (set_priority p) s)).
Proof.
  intros [Hm Hall]. split; [done|]. cbn. intros i th Hi.
  destruct (decide (cur = i)) as [->|Hne].
  - rewrite !lookup_alter_eq in Hi.
    destruct (threads s !! i); [|done]. injection Hi as <-.
    unfold donation_ok. cbn. lia.
  - rewrite !lookup_alter_ne in Hi by done. by eapply Hall.
Qed.

Lemma rr_inv_fresh t p s :
  rr_inv s ->
  rr_inv (update t (fun x => set_priority_orig p (set_priority p x)) s).
Proof.
  apply rr_inv_update. intros th _ _. unfold donation_ok. cbn. lia.
Qed.

Lemma rr_mode s : rr_inv s -> thread_mlfqs s = false.
Proof. by intros [? _]. Qed.

Ltac other_mode :=
  exfalso;
  match goal with
  | H : context [thread_mlfqs ?s] |- _ =>
      cbn [thread_mlfqs update set_threads set_ready_list set_ready_queues
           set_waiting_list set_all_list set_idle_thread set_initial_thread
           set_load_avg set_idle_ticks set_kernel_ticks set_total_ticks
           set_thread_ticks set_next_tid set_running set_intr_on set_intr_ctx
           set_yield_on_return] in H;
      match type of H with
      | context [thread_mlfqs ?s0] =>
          match goal with
          | Hi : rr_inv s0 |- _ => rewrite (rr_mode _ Hi) in H; discriminate H
          end
      end
  end.

Lemma init_thread_inv t name priority s :
  rr_inv s -> run_sat rr_inv (init_thread t name priority s).
Proof.
  intros Hinv. unfold init_thread. cbv zeta.
  assert (H1 : rr_inv (set_threads (<[t:=blank_thread name]> (threads s)) s)).
  { apply rr_inv_insert; [|done]. unfold donation_ok. cbn. lia. }
  revert H1. generalize (set_threads (<[t:=blank_thread name]> (threads s)) s).
  intros s1 H1.
  op_run; try other_mode; try (by apply rr_inv_fresh).
Qed.

Lemma thread_create_inv name priority page s :
  rr_inv s -> run_sat rr_inv (thread_create name priority page s).
Proof.
  intros Hinv. unfold thread_create, allocate_tid. cbv zeta.
  destruct (page =? 0)%nat; [done|].
  apply run_sat_bind; [by apply init_thread_inv|]. intros s1 H1.
  apply thread_unblock_inv. strip.
Qed.

Lemma thread_assign_priority_inv new_priority cur s :
  rr_inv s -> run_sat rr_inv (thread_assign_priority new_priority cur s).
Proof.
  intros Hinv. unfold thread_assign_priority. cbv zeta.
  step_run. cbn [thread_mlfqs update set_threads]. rewrite (rr_mode _ Hinv).
  cbn [andb].
  pose proof (rr_inv_assign cur new_priority s Hinv) as H2.
  revert H2.
  generalize (update cur (set_priority_orig new_priority)
                (update cur (set_priority new_priority) s)).
  intros s2 H2. repeat step_run. by apply thread_yield_inv.
Qed.

Lemma thread_set_priority_inv new_priority s :
  rr_inv s -> run_sat rr_inv (thread_set_priority new_priority s).
Proof.
  intros Hinv. unfold thread_set_priority.
  apply thread_current_inv. intros c Hc.
  rewrite (rr_mode _ Hinv).
  destruct (negb _ && _) eqn:Hd.
  - cbn [run_sat]. apply rr_inv_update; [|done].
    intros th Hth _. assert (th = c) as -> by congruence.
    apply andb_prop in Hd as [_ Hle]. apply Z.leb_le in Hle.
    unfold donation_ok. cbn. lia.
  - by apply thread_assign_priority_inv.
Qed.

Lemma thread_set_nice_inv nice s :
  rr_inv s -> run_sat rr_inv (thread_set_nice nice s).
Proof.
  intros Hinv. unfold thread_set_nice.
  apply thread_current_inv. intros c Hc.
  step_run. by rewrite (rr_mode _ Hinv).
Qed.

Lemma age_ready_inv l : forall s s',
  age_ready l s = Some s' -> rr_inv s -> rr_inv s'.
Proof.
  induction l as [|e l IH]; intros s s' Hrun Hinv; cbn [age_ready] in Hrun.
  - by injection Hrun as <-.
  - destruct (threads s !! e) as [t|] eqn:E; [|done].
    cbn [mbind option_bind] in Hrun.
    apply IH in Hrun; [done|].
    destruct (priority t <? PRI_MAX); [|done].
    apply rr_inv_update; [|done]. intros th Hth Hok.
    assert (th = t) as -> by congruence.
    unfold donation_ok in *. cbn. lia.
Qed.

Lemma rr_tick_inv s s' : rr_tick s = Some s' -> rr_inv s -> rr_inv s'.
Proof.
  unfold rr_tick. cbv zeta. intros Hrun Hinv.
  destruct (_ =? 0).
  - by apply age_ready_inv in Hrun.
  - by injection Hrun as <-.
Qed.

Lemma wake_scan_inv cur l : forall s b s' b',
  wake_scan cur l (s, b) = Some (s', b') -> rr_inv s -> rr_inv s'.
Proof.
  induction l as [|e l IH]; intros s b s' b' Hrun Hinv; cbn [wake_scan] in Hrun.
  - by injection Hrun as <- <-.
  - destruct (threads s !! e) as [th|] eqn:E;
      cbn [mbind option_bind] in Hrun; [|done].
    set (s1 := update e (fun t => set_ticks_wait (wrap64 (ticks_wait t - 1)) t) s)
      in Hrun.
    assert (H1 : rr_inv s1) by (by apply rr_inv_keeps).
    clearbody s1.
    destruct (threads s1 !! e) as [sleeper|]; cbn [mbind option_bind] in Hrun;
      [|done].
    destruct (ticks_wait sleeper =? 0).
    + destruct (push_ready e _) as [s2|] eqn:P;
        cbn [mbind option_bind] in Hrun; [|done].
      apply push_ready_inv in P; [|done].
      destruct (threads _ !! cur); cbn [mbind option_bind] in Hrun; [|done].
      injection Hrun as <- <-. by apply rr_inv_keeps.
    + by apply IH in Hrun.
Qed.

Lemma thread_tick_inv ticks s :
  rr_inv s -> run_sat rr_inv (thread_tick ticks s).
Proof.
  intros Hinv. unfold thread_tick.
  apply thread_current_inv. intros c Hc. cbv zeta.
  set (sa := if (running s =? idle_thread s)%nat then _ else _).
  assert (Ha : rr_inv sa) by (subst sa; by destruct (_ =? _)%nat).
  clearbody sa. rewrite (rr_mode _ Ha).
  destruct (rr_tick sa) as [sb|] eqn:Eb; [|done].
  apply rr_tick_inv in Eb; [|done].
  cbn [mbind option_bind fetch].
  destruct (if negb (list_empty (waiting_list sb)) then _ else _)
    as [[sc sup]|] eqn:Ec; [|done].
  assert (Hc' : rr_inv sc).
  { destruct (negb _).
    - by eapply wake_scan_inv.
    - by injection Ec as <- _. }
  cbn [fetch run_sat]. by destruct (_ || _).
Qed.

Lemma timer_interrupt_inv ticks s :
  rr_inv s -> run_sat rr_inv (timer_interrupt ticks s).
Proof.
  intros Hinv. unfold timer_interrupt. cbv zeta. step_run.
  apply run_sat_bind; [by apply thread_tick_inv|]. intros s1 H1.
  apply run_sat_bind; [|by intros].
  step_run; [|done]. by apply thread_yield_inv.
Qed.

Lemma intr_unblock_inv t s : rr_inv s -> run_sat rr_inv (intr_unblock t s).
Proof.
  intros Hinv. unfold intr_unblock. step_run.
  apply run_sat_bind; [by apply thread_unblock_inv|]. by intros.
Qed.

Lemma donate_inv t p s : rr_inv s -> rr_inv (donate t p s).
Proof.
  apply rr_inv_update. intros th _ Hok. unfold donation_ok in *. cbn. lia.
Qed.

Lemma undonate_inv t s : rr_inv s -> rr_inv (undonate t s).
Proof. by apply rr_inv_keeps. Qed.

Lemma perform_inv c s : rr_inv s -> run_sat rr_inv (perform c s).
Proof.
  intros Hinv. destruct c; cbn [perform].
  - step_run. by apply thread_create_inv.
  - by apply thread_block_inv.
  - by apply thread_wait_inv.
  - by apply thread_unblock_inv.
  - by apply thread_yield_inv.
  - by apply thread_exit_inv.
  - by apply thread_set_priority_inv.
  - by apply thread_set_nice_inv.
  - done.
  - by apply timer_interrupt_inv.
  - by apply intr_unblock_inv.
  - by apply donate_inv.
  - by apply undonate_inv.
Qed.

Lemma start_inv page idle_page s :
  start false page idle_page = Some s -> rr_inv s.
Proof.
  unfold start. intros Hs.
  destruct (outcome (thread_init (boot false page))) as [s0|] eqn:E0; [|done].
  cbn [mbind option_bind] in Hs.
  assert (H0 : rr_inv s0).
  { eapply run_sat_outcome; [|exact E0].
    unfold thread_init, allocate_tid. cbv zeta. step_run.
    apply run_sat_bind.
    - apply init_thread_inv. split; [done|]. cbn. apply map_Forall_empty.
    - intros s1 H1. cbn [run_sat]. strip. }
  eapply run_sat_outcome; [|exact Hs].
  unfold thread_start. cbv zeta.
  apply run_sat_bind; [by apply thread_create_inv|]. intros s1 H1.
  repeat step_run.
  all: match goal with
       | |- run_sat _ (match ?q with [] => _ | _ :: _ => _ end) => destruct q
       end.
  all: repeat step_run.
Qed.

(** C3, as the code has it.  In round-robin mode [priority_orig <= priority]
    holds in every thread record of every state that the system reaches by
    the operations of [thread.c], by interrupts and by donation, along the
    runs of the machine above: every call is completed before the next
    interrupt is taken, so none falls between the two stores of
    [thread_set_priority], and the run has made no access outside every
    thread record, such as a read through the sentinel of an empty list.
    (In feedback queue mode [priority_orig] is written at
    [init_thread] only, and the recomputation of [priority] pays no
    attention to it.  What an interrupt between the two stores leaves
    behind is [thread_set_priority_interrupted] below.) *)
Theorem rr_priority_not_below_orig (s : kstate) :
  reachable false s ->
  forall t th, threads s !! t = Some th -> priority_orig th <= priority th.
Proof.
  intros Hreach.
  assert (Hinv : rr_inv s).
  { induction Hreach as [page idle_page s Hs|s s' _ IH [c Hc]].
    - by eapply start_inv.
    - eapply run_sat_outcome; [|exact Hc]. by apply perform_inv. }
  intros t th Hth. by eapply rr_inv_lookup.
Qed.

Lemma rr_priority_not_below_orig_witness :
  exists th,
    threads donated_state !! 1%nat = Some th /\
    priority_orig th = 10 /\ priority th = 50 /\
    priority_orig th <= priority th.
Proof.
  eexists.
  split; [vm_compute; reflexivity|].
  split; [reflexivity|]. split; [reflexivity|].
  apply (rr_priority_not_below_orig donated_state) with (t := 1%nat).
  - apply (script_reachable false 1 2
             [Create "a" 20 3%nat; Donate 1%nat 50; SetPriority 10]).
    vm_compute; reflexivity.
  - vm_compute; reflexivity.
Defined.

(** In feedback queue mode, after four ticks on the CPU the recomputation
    has taken main from priority 63 to 62, while [priority_orig] still holds
    the 63 of [init_thread]. *)
Lemma mlfqs_tick_drops_priority_below_orig :
  exists s,
    (start true 1 2 ≫= exec [Timer 1; Timer 2; Timer 3; Timer 4]) = Some s /\
    reachable true s /\
    field status 1 s = Some THREAD_RUNNING /\
    field priority 1 s = Some 62 /\ field priority_orig 1 s = Some 63.
Proof.
  eexists.
  split; [vm_compute; reflexivity|].
  split; [apply (script_reachable true 1 2 [Timer 1; Timer 2; Timer 3; Timer 4]);
          vm_compute; reflexivity|].
  evaluate.
Qed.

(** In round-robin mode, an interrupt between the two stores of
    [thread_set_priority].  Main, at priority 31 without a donor and with
    three ticks of its time slice used, calls [thread_set_priority (40)]
    with interrupts on.  Line 544 stores priority 40; the timer interrupt
    taken there ends the slice, [thread_yield] picks main again, and
    [thread_schedule_tail] restores [priority] from [priority_orig], still
    31; back in the call, line 553 stores 40 in [priority_orig], no ready
    thread is above main, and the call returns with priority 31 below
    [priority_orig] 40. *)
Lemma thread_set_priority_interrupted :
  exists s0 s1 s2 s3,
    (start false 1 2 ≫= exec [Create "a" 20 3; Timer 1; Timer 2; Timer 3])
      = Some s0 /\
    reachable false s0 /\
    thread_mlfqs s0 = false /\ intr_on s0 = true /\ intr_ctx s0 = false /\
    running s0 = 1%nat /\
    field priority 1 s0 = Some 31 /\ field priority_orig 1 s0 = Some 31 /\
    field num_lock_donors 1 s0 = Some 0 /\
    thread_set_priority 40 s0 = thread_assign_priority 40 1 s0 /\
    thread_assign_priority_store 40 1 s0 = Some (31, s1) /\
    timer_interrupt 4 s1 = Done s2 /\
    thread_assign_priority_rest 40 31 1 s2 = Done s3 /\
    running s3 = 1%nat /\
    field status 1 s3 = Some THREAD_RUNNING /\
    field num_lock_donors 1 s3 = Some 0 /\
    field priority 1 s3 = Some 31 /\ field priority_orig 1 s3 = Some 40.
Proof.
  do 4 eexists.
  split; [vm_compute; reflexivity|].
  split; [apply (script_reachable false 1 2
            [Create "a" 20 3%nat; Timer 1; Timer 2; Timer 3]);
          vm_compute; reflexivity|].
  evaluate.
Qed.

(** C3, as the claim has it, fails in both modes: in feedback queue mode by
    the recomputation of every fourth tick, which takes main to priority 62
    under a [priority_orig] of 63; in round-robin mode by a timer interrupt
    between the two stores of [thread_set_priority (40)], after which main
    runs on with priority 31 under a [priority_orig] of 40 and no donor. *)
Lemma priority_below_orig_in_both_modes :
  (exists s,
     (start true 1 2 ≫= exec [Timer 1; Timer 2; Timer 3; Timer 4]) = Some s /\
     reachable true s /\
     field status 1 s = Some THREAD_RUNNING /\
     field priority 1 s = Some 62 /\ field priority_orig 1 s = Some 63) /\
  (exists s0 s1 s2 s3,
     (start false 1 2 ≫= exec [Create "a" 20 3; Timer 1; Timer 2; Timer 3])
       = Some s0 /\
     reachable false s0 /\
     thread_mlfqs s0 = false /\ intr_on s0 = true /\ intr_ctx s0 = false /\
     running s0 = 1%nat /\
     field priority 1 s0 = Some 31 /\ field priority_orig 1 s0 = Some 31 /\
     field num_lock_donors 1 s0 = Some 0 /\
     thread_set_priority 40 s0 = thread_assign_priority 40 1 s0 /\
     thread_assign_priority_store 40 1 s0 = Some (31, s1) /\
     timer_interrupt 4 s1 = Done s2 /\
     thread_assign_priority_rest 40 31 1 s2 = Done s3 /\
     running s3 = 1%nat /\
     field status 1 s3 = Some THREAD_RUNNING /\
     field num_lock_donors 1 s3 = Some 0 /\
     field priority 1 s3 = Some 31 /\ field priority_orig 1 s3 = Some 40).
Proof.
  split.
  - exact mlfqs_tick_drops_priority_below_orig.
  - exact thread_set_priority_interrupted.
Qed.

Local Transparent wrap32 wrap64 recalculate_priority next_recent_cpu next_load_avg.

(** ** What a tick leaves alone *)

Local Opaque wrap32 wrap64 recalculate_priority next_recent_cpu next_load_avg.

Lemma tick_frame_refl s : tick_frame s s.
Proof. by repeat split. Qed.

Lemma tick_frame_trans s1 s2 s3 :
  tick_frame s1 s2 -> tick_frame s2 s3 -> tick_frame s1 s3.
Proof.
  unfold tick_frame. intros H1 H2.
  destruct H1 as (?&?&?&?&?&?&?&?&?&?&?&?&?&?&?).
  destruct H2 as (?&?&?&?&?&?&?&?&?&?&?&?&?&?&?).
  repeat split; congruence.
Qed.

Lemma tick_frame_update t f s : tick_frame s (update t f s).
Proof.
  unfold tick_frame. cbn. split; [|by repeat split].
  apply set_eq. intros i. rewrite !elem_of_dom. apply lookup_alter_is_Some.
Qed.

Lemma tick_frame_remove t s : tick_frame s (list_remove_elem t s).
Proof. unfold tick_frame. cbn. by repeat split. Qed.

Lemma tick_frame_push t s s' : push_ready t s = Some s' -> tick_frame s s'.
Proof.
  unfold push_ready. destruct (negb _).
  - intros [= <-]. unfold tick_frame. cbn. by repeat split.
  - destruct (threads s !! t); cbn [mbind option_bind]; [|done].
    destruct (band s _); cbn [mbind option_bind]; [|done].
    intros [= <-]. unfold tick_frame. cbn. by repeat split.
Qed.

Lemma recompute_frame ticks cur e s b s' b' :
  recompute ticks cur e (s, b) = Some (s', b') -> tick_frame s s'.
Proof.
  unfold recompute.
  destruct (threads s !! e) as [th|] eqn:E; [|done]. cbn [mbind option_bind].
  destruct (negb _).
  2:{ intros [= <- <-]. apply tick_frame_refl. }
  destruct (ticks `rem` TIMER_FREQ =? 0); cbv zeta;
    cbn [threads update set_threads];
    rewrite ?lookup_alter_eq, ?E;
    cbn [fmap option_fmap option_map mbind option_bind];
    rewrite ?lookup_alter_eq, ?E;
    cbn [fmap option_fmap option_map mbind option_bind].
  all: destruct (_ && _).
  all: repeat match goal with
       | |- context [band ?s ?i ≫= _] =>
           destruct (band s i); cbn [mbind option_bind]; [|done]
       | |- context [(?m !! ?c) ≫= _] =>
           destruct (m !! c); cbn [mbind option_bind]; [|done]
       end.
  all: intros [= <- <-].
  all: unfold tick_frame; cbn; rewrite ?dom_alter_L; by repeat split.
Qed.

Lemma list_foreach_frame ticks cur l : forall s b s' b',
  list_foreach l (recompute ticks cur) (s, b) = Some (s', b') ->
  tick_frame s s'.
Proof.
  induction l as [|e l IH]; intros s b s' b' Hrun; cbn [list_foreach] in Hrun.
  - injection Hrun as <- <-. apply tick_frame_refl.
  - destruct (recompute ticks cur e (s, b)) as [[s1 b1]|] eqn:E1; [|done].
    cbn [mbind option_bind] in Hrun.
    eapply tick_frame_trans; [by eapply recompute_frame|by eapply IH].
Qed.

Lemma age_ready_frame l : forall s s',
  age_ready l s = Some s' -> tick_frame s s'.
Proof.
  induction l as [|e l IH]; intros s s' Hrun; cbn [age_ready] in Hrun.
  - injection Hrun as <-. apply tick_frame_refl.
  - destruct (threads s !! e) as [t|]; cbn [mbind option_bind] in Hrun; [|done].
    apply IH in Hrun. eapply tick_frame_trans; [|exact Hrun].
    destruct (_ <? _); [apply tick_frame_update|apply tick_frame_refl].
Qed.

Lemma wake_scan_tick_frame cur l : forall s b s' b',
  wake_scan cur l (s, b) = Some (s', b') -> tick_frame s s'.
Proof.
  induction l as [|e l IH]; intros s b s' b' Hrun; cbn [wake_scan] in Hrun.
  - injection Hrun as <- <-. apply tick_frame_refl.
  - destruct (threads s !! e) as [th|] eqn:E;
      cbn [mbind option_bind] in Hrun; [|done].
    set (s1 := update e _ s) in Hrun.
    assert (H1 : tick_frame s s1) by apply tick_frame_update.
    clearbody s1.
    destruct (threads s1 !! e) as [sleeper|];
      cbn [mbind option_bind] in Hrun; [|done].
    destruct (ticks_wait sleeper =? 0).
    + destruct (push_ready e _) as [s2|] eqn:P;
        cbn [mbind option_bind] in Hrun; [|done].
      apply tick_frame_push in P.
      destruct (threads _ !! cur); cbn [mbind option_bind] in Hrun; [|done].
      injection Hrun as <- <-.
      eapply tick_frame_trans; [exact H1|].
      eapply tick_frame_trans; [apply tick_frame_remove|].
      eapply tick_frame_trans; [exact P|apply tick_frame_update].
    + eapply tick_frame_trans; [exact H1|by eapply IH].
Qed.

Lemma mlfqs_tick_frame ticks cur s s' b :
  mlfqs_tick ticks cur s = Some (s', b) ->
  tick_frame (set_load_avg (load_avg s') s) s' /\
  (load_avg s' <> load_avg s -> ticks `rem` TIMER_FREQ = 0).
Proof.
  unfold mlfqs_tick. cbv zeta.
  set (s0 := if negb (cur =? idle_thread s)%nat then _ else s).
  assert (H0 : tick_frame s s0).
  { subst s0. destruct (negb _); [apply tick_frame_update|apply tick_frame_refl]. }
  clearbody s0.
  destruct (ticks `rem` 4 =? 0).
  2:{ intros [= <- <-]. split.
      - unfold tick_frame in *. cbn. tauto.
      - unfold tick_frame in H0. intros Hne. exfalso. apply Hne. tauto. }
  destruct (Z.eqb_spec (ticks `rem` TIMER_FREQ) 0) as [HT|HT].
  - destruct (count_ready s0 (all_list s0) 0) as [rt|];
      cbn [mbind option_bind]; [|done].
    intros Hrun. apply list_foreach_frame in Hrun. split; [|done].
    unfold tick_frame in *. cbn in *.
    destruct H0 as (?&?&?&?&?&?&?&?&?&?&?&?&?&?&?).
    destruct Hrun as (?&?&?&?&?&?&?&?&?&?&?&?&?&?&?).
    repeat split; congruence.
  - cbn [mbind option_bind]. intros Hrun. apply list_foreach_frame in Hrun.
    assert (Hf : tick_frame s s') by (by eapply tick_frame_trans).
    split.
    + unfold tick_frame in *. cbn. tauto.
    + unfold tick_frame in Hf. intros Hne. exfalso. apply Hne. tauto.
Qed.

Lemma rr_tick_frame s s' :
  rr_tick s = Some s' ->
  tick_frame (set_total_ticks (total_ticks s + 1) s) s'.
Proof.
  unfold rr_tick. cbv zeta. destruct (_ =? 0).
  - intros Hrun. by apply age_ready_frame in Hrun.
  - intros [= <-]. apply tick_frame_refl.
Qed.

Lemma thread_tick_effect ticks s s' :
  outcome (thread_tick ticks s) = Some s' ->
  thread_tick ticks s = Done s' /\
  dom (threads s') = dom (threads s) /\
  all_list s' = all_list s /\ idle_thread s' = idle_thread s /\
  initial_thread s' = initial_thread s /\
  thread_mlfqs s' = thread_mlfqs s /\ next_tid s' = next_tid s /\
  running s' = running s /\ intr_on s' = intr_on s /\
  intr_ctx s' = intr_ctx s /\
  thread_ticks s' = (thread_ticks s + 1) `mod` 2 ^ 32 /\
  (TIME_SLICE <= thread_ticks s' -> yield_on_return s' = true) /\
  (yield_on_return s = true -> yield_on_return s' = true) /\
  idle_ticks s'
    = (if (running s =? idle_thread s)%nat then idle_ticks s + 1
       else idle_ticks s) /\
  kernel_ticks s'
    = (if (running s =? idle_thread s)%nat then kernel_ticks s
       else kernel_ticks s + 1) /\
  total_ticks s'
    = (if thread_mlfqs s then total_ticks s else total_ticks s + 1) /\
  (load_avg s' <> load_avg s ->
   thread_mlfqs s = true /\ ticks `rem` TIMER_FREQ = 0).
Proof.
  unfold thread_tick, thread_current.
  destruct (is_thread s (running s)); [|done]. cbn [kassert].
  destruct (threads s !! running s) as [c|] eqn:Ec; [|done].
  cbn [fetch].
  destruct (bool_decide (status c = THREAD_RUNNING)); [|done].
  cbn [kassert]. cbv zeta.
  set (sa := if (running s =? idle_thread s)%nat then _ else _).
  set (mid := if thread_mlfqs sa then _ else _).
  destruct mid as [[sb sup]|] eqn:Emid; [|done]. cbn [fetch].
  destruct (if negb (list_empty (waiting_list sb)) then _ else _)
    as [[sc sup']|] eqn:Ew; [|done].
  cbn [fetch outcome]. intros [= <-]. split; [done|].
  assert (Hw : tick_frame sb sc).
  { destruct (negb _).
    - by eapply wake_scan_tick_frame.
    - injection Ew as <- <-. apply tick_frame_refl. }
  assert (Hmid : exists la tt, tick_frame (set_load_avg la (set_total_ticks tt sa)) sb /\
            load_avg sb = la /\
            tt = (if thread_mlfqs s then total_ticks s else total_ticks s + 1) /\
            (la <> load_avg s ->
             thread_mlfqs s = true /\ ticks `rem` TIMER_FREQ = 0)).
  { subst mid.
    assert (Hsa : thread_mlfqs sa = thread_mlfqs s /\
                  total_ticks sa = total_ticks s /\ load_avg sa = load_avg s)
      by (subst sa; by destruct (_ =? _)%nat).
    destruct Hsa as (Hma & Hta & Hla). rewrite Hma in Emid.
    destruct (thread_mlfqs s) eqn:Hm.
    - apply mlfqs_tick_frame in Emid as [Hf Hl].
      exists (load_avg sb), (total_ticks s). split.
      + unfold tick_frame in *. cbn in *. rewrite <- Hta. tauto.
      + split; [done|]. split; [done|]. intros Hne. split; [done|].
        apply Hl. congruence.
    - destruct (rr_tick sa) as [sb'|] eqn:Er; cbn [mbind option_bind] in Emid;
        [|done].
      injection Emid as <- <-. apply rr_tick_frame in Er.
      exists (load_avg sa), (total_ticks s + 1). split.
      + unfold tick_frame in *. cbn in *. rewrite <- Hta. tauto.
      + unfold tick_frame in Er. cbn in Er. split; [tauto|]. split; [done|].
        intros Hne. congruence. }
  destruct Hmid as (la & tt & Hf & Hla & Htt & Hload).
  pose proof (tick_frame_trans _ _ _ Hf Hw) as Hall.
  assert (Hsa : dom (threads sa) = dom (threads s) /\
     all_list sa = all_list s /\ idle_thread sa = idle_thread s /\
     initial_thread sa = initial_thread s /\
     thread_mlfqs sa = thread_mlfqs s /\ next_tid sa = next_tid s /\
     running sa = running s /\ intr_on sa = intr_on s /\
     intr_ctx sa = intr_ctx s /\ thread_ticks sa = thread_ticks s /\
     yield_on_return sa = yield_on_return s /\
     idle_ticks sa = (if (running s =? idle_thread s)%nat
                      then idle_ticks s + 1 else idle_ticks s) /\
     kernel_ticks sa = (if (running s =? idle_thread s)%nat
                        then kernel_ticks s else kernel_ticks s + 1)).
  { subst sa. by destruct (_ =? _)%nat. }
  clearbody sa.
  unfold tick_frame in Hall. cbn in Hall.
  destruct Hall as (?&?&?&?&Hlac&?&?&?&Htk&?&?&?&?&?&Hy).
  destruct Hsa as (?&?&?&?&?&?&?&?&?&?&?&?&?).
  cbn in Hlac.
  cbv zeta.
  set (sd := set_thread_ticks ((thread_ticks sc + 1) `mod` 2 ^ 32) sc).
  destruct (((thread_ticks sc + 1) `mod` 2 ^ 32 >=? TIME_SLICE) || sup')
    eqn:Hb;
    split_and!;
    cbn [thread_ticks set_thread_ticks set_yield_on_return yield_on_return
         idle_ticks kernel_ticks total_ticks load_avg sd threads all_list
         idle_thread initial_thread thread_mlfqs next_tid running intr_on
         intr_ctx];
    try congruence; try done.
  all: try (intros Hne; apply Hload; cbn in Hne; congruence).
  apply orb_false_iff in Hb as [Hb _]. lia.
Qed.

(** X1.  The tick handler runs to its end without handing over the CPU, and
    it neither creates nor frees a thread: the pages of the store,
    [all_list], the thread on the CPU, the idle and the initial thread, the
    scheduler mode, the next tid and the interrupt flags are what they
    were. *)
Theorem thread_tick_keeps_the_cpu (ticks : Z) (s s' : kstate) :
  outcome (thread_tick ticks s) = Some s' ->
  thread_tick ticks s = Done s' /\
  dom (threads s') = dom (threads s) /\
  all_list s' = all_list s /\ running s' = running s /\
  idle_thread s' = idle_thread s /\ initial_thread s' = initial_thread s /\
  thread_mlfqs s' = thread_mlfqs s /\ next_tid s' = next_tid s /\
  intr_on s' = intr_on s /\ intr_ctx s' = intr_ctx s.
Proof.
  intros H. apply thread_tick_effect in H.
  destruct H as (?&?&?&?&?&?&?&?&?&?&_). by repeat split.
Qed.

Lemma thread_tick_keeps_the_cpu_witness :
  outcome (thread_tick 100 main_with_peer) = Some main_with_peer_ticked /\
  running main_with_peer_ticked = running main_with_peer /\
  all_list main_with_peer_ticked = all_list main_with_peer.
Proof.
  split; [vm_compute; reflexivity|].
  destruct (thread_tick_keeps_the_cpu 100 main_with_peer main_with_peer_ticked)
    as (_ & _ & Ha & Hr & _); [vm_compute; reflexivity|].
  split; [exact Hr|exact Ha].
Defined.

(** X2.  Every tick adds one to the unsigned [thread_ticks]; once the count
    has reached [TIME_SLICE] the handler asks for a yield on return, and it
    never withdraws a request that is pending. *)
Theorem thread_tick_enforces_time_slice (ticks : Z) (s s' : kstate) :
  outcome (thread_tick ticks s) = Some s' ->
  thread_ticks s' = (thread_ticks s + 1) `mod` 2 ^ 32 /\
  (TIME_SLICE <= thread_ticks s' -> yield_on_return s' = true) /\
  (yield_on_return s = true -> yield_on_return s' = true).
Proof.
  intros H. apply thread_tick_effect in H.
  destruct H as (_&_&_&_&_&_&_&_&_&_&?&?&?&_). by repeat split.
Qed.

Lemma thread_tick_enforces_time_slice_witness :
  outcome (thread_tick 100 main_with_peer) = Some main_with_peer_ticked /\
  thread_ticks main_with_peer_ticked
    = (thread_ticks main_with_peer + 1) `mod` 2 ^ 32.
Proof.
  split; [vm_compute; reflexivity|].
  apply (thread_tick_enforces_time_slice 100 main_with_peer
           main_with_peer_ticked).
  vm_compute; reflexivity.
Defined.

(** X3.  In a build without [USERPROG], where lines 191-194 and their
    [user_ticks] are compiled out, the tick is charged to exactly one of the
    two statistics that are left: to [idle_ticks] when the idle thread is on
    the CPU, to [kernel_ticks] otherwise.  [total_ticks] counts the ticks of
    the round-robin scheduler only. *)
Theorem thread_tick_charges_one_counter (ticks : Z) (s s' : kstate) :
  outcome (thread_tick ticks s) = Some s' ->
  (running s = idle_thread s ->
   idle_ticks s' = idle_ticks s + 1 /\ kernel_ticks s' = kernel_ticks s) /\
  (running s <> idle_thread s ->
   idle_ticks s' = idle_ticks s /\ kernel_ticks s' = kernel_ticks s + 1) /\
  total_ticks s'
    = (if thread_mlfqs s then total_ticks s else total_ticks s + 1).
Proof.
  intros H. apply thread_tick_effect in H.
  destruct H as (_&_&_&_&_&_&_&_&_&_&_&_&_&Hi&Hk&Ht&_).
  split; [|split; [|done]].
  - intros He. apply Nat.eqb_eq in He. by rewrite He in Hi, Hk.
  - intros He. apply Nat.eqb_neq in He. by rewrite He in Hi, Hk.
Qed.

Lemma thread_tick_charges_one_counter_witness :
  outcome (thread_tick 100 main_with_peer) = Some main_with_peer_ticked /\
  running main_with_peer <> idle_thread main_with_peer /\
  idle_ticks main_with_peer_ticked = idle_ticks main_with_peer /\
  kernel_ticks main_with_peer_ticked = kernel_ticks main_with_peer + 1.
Proof.
  split; [vm_compute; reflexivity|].
  assert (Hne : running main_with_peer <> idle_thread main_with_peer)
    by (vm_compute; discriminate).
  split; [exact Hne|].
  destruct (thread_tick_charges_one_counter 100 main_with_peer
              main_with_peer_ticked) as (_ & Hk & _);
    [vm_compute; reflexivity|].
  exact (Hk Hne).
Defined.

(** X4.  [load_avg] moves only in feedback queue mode and only on a tick
    that is a multiple of [TIMER_FREQ]; any other tick leaves it alone. *)
Theorem thread_tick_load_avg_once_a_second (ticks : Z) (s s' : kstate) :
  outcome (thread_tick ticks s) = Some s' ->
  thread_mlfqs s = false \/ ticks `rem` TIMER_FREQ <> 0 ->
  load_avg s' = load_avg s.
Proof.
  intros H Hoff. apply thread_tick_effect in H.
  destruct H as (_&_&_&_&_&_&_&_&_&_&_&_&_&_&_&_&Hl).
  destruct (decide (load_avg s' = load_avg s)) as [|Hne]; [done|].
  destruct (Hl Hne) as [Hm Ht]. destruct Hoff; congruence.
Qed.

Lemma thread_tick_load_avg_once_a_second_witness :
  outcome (thread_tick 7 main_with_peer) = Some main_with_peer_ticked_7 /\
  load_avg main_with_peer_ticked_7 = load_avg main_with_peer.
Proof.
  split; [vm_compute; reflexivity|].
  apply (thread_tick_load_avg_once_a_second 7 main_with_peer
           main_with_peer_ticked_7).
  - vm_compute; reflexivity.
  - right. vm_compute. discriminate.
Defined.

Local Transparent wrap32 wrap64 recalculate_priority next_recent_cpu next_load_avg.

(** ** Thread identifiers and the choice of the next thread *)

Lemma allocate_tids_counts_up n : forall s,
  next_tid s + Z.of_nat n <= 2 ^ 31 - 1 ->
  (allocate_tids n s).1 = seqZ (next_tid s) (Z.of_nat n) /\
  next_tid (allocate_tids n s).2 = next_tid s + Z.of_nat n.
Proof.
  induction n as [|n IH]; intros s Hn.
  - cbn. split; [done|lia].
  - cbn [allocate_tids]. unfold allocate_tid.
    destruct (Z.eqb_spec (next_tid s) (2 ^ 31 - 1)) as [He|Hne]; [lia|].
    set (s1 := set_next_tid (next_tid s + 1) s).
    specialize (IH s1). change (next_tid s1) with (next_tid s + 1) in IH.
    destruct (allocate_tids n s1) as [l s2]. cbn [fst snd] in *.
    destruct IH as [-> ->]; [lia|]. split; [|lia].
    replace (Z.of_nat (S n)) with (Z.succ (Z.of_nat n)) by lia.
    rewrite (seqZ_cons (next_tid s)) by lia. f_equal. f_equal; lia.
Qed.

(** X5.  As long as [INT_MAX] is not passed the tids come out in a row from
    [next_tid] on, each one issued once: [1, 2, 3, ...] on a booted
    machine. *)
Theorem allocate_tid_counts_up (n : nat) (s : kstate) :
  next_tid s + Z.of_nat n <= 2 ^ 31 - 1 ->
  (allocate_tids n s).1 = seqZ (next_tid s) (Z.of_nat n) /\
  NoDup (allocate_tids n s).1 /\
  next_tid (allocate_tids n s).2 = next_tid s + Z.of_nat n.
Proof.
  intros Hn. destruct (allocate_tids_counts_up n s Hn) as [Hl Ht].
  split; [done|]. split; [|done]. rewrite Hl. apply NoDup_seqZ.
Qed.

Lemma allocate_tid_counts_up_witness :
  (allocate_tids 5 (boot false 1)).1 = seqZ 1 5 /\
  NoDup (allocate_tids 5 (boot false 1)).1 /\
  next_tid (allocate_tids 5 (boot false 1)).2 = 1 + 5.
Proof.
  apply (allocate_tid_counts_up 5 (boot false 1)); vm_compute; discriminate.
Defined.

(** X6.  Past [INT_MAX] the counter goes back to [2], never to a negative
    value and never to the [1] of the initial thread: once [next_tid] is in
    [2 .. INT_MAX], every tid issued from then on is. *)
Theorem allocate_tid_wraps_to_two (n : nat) (s : kstate) :
  2 <= next_tid s <= 2 ^ 31 - 1 ->
  Forall (fun tid => 2 <= tid <= 2 ^ 31 - 1) (allocate_tids n s).1 /\
  2 <= next_tid (allocate_tids n s).2 <= 2 ^ 31 - 1 /\
  (next_tid s = 2 ^ 31 - 1 -> next_tid (allocate_tid s).2 = 2).
Proof.
  intros Hs. split; [|split].
  - revert s Hs. induction n as [|n IH]; intros s Hs; [by constructor|].
    cbn [allocate_tids]. unfold allocate_tid.
    set (s1 := set_next_tid _ s).
    assert (H1 : 2 <= next_tid s1 <= 2 ^ 31 - 1).
    { subst s1. cbn. destruct (Z.eqb_spec (next_tid s) (2 ^ 31 - 1)); lia. }
    specialize (IH s1 H1). destruct (allocate_tids n s1) as [l s2].
    cbn [fst] in *. by constructor.
  - revert s Hs. induction n as [|n IH]; intros s Hs; [exact Hs|].
    cbn [allocate_tids]. unfold allocate_tid.
    set (s1 := set_next_tid _ s).
    assert (H1 : 2 <= next_tid s1 <= 2 ^ 31 - 1).
    { subst s1. cbn. destruct (Z.eqb_spec (next_tid s) (2 ^ 31 - 1)); lia. }
    specialize (IH s1 H1). destruct (allocate_tids n s1) as [l s2].
    exact IH.
  - intros He. unfold allocate_tid. cbn. by rewrite He.
Qed.

Lemma allocate_tid_wraps_to_two_witness :
  let s := set_next_tid (2 ^ 31 - 2) (boot false 1) in
  (allocate_tids 3 s).1 = [2 ^ 31 - 2; 2 ^ 31 - 1; 2] /\
  Forall (fun tid => 2 <= tid <= 2 ^ 31 - 1) (allocate_tids 3 s).1.
Proof.
  intros s. split; [vm_compute; reflexivity|].
  apply (allocate_tid_wraps_to_two 3 s). vm_compute. split; discriminate.
Defined.

(** ** Choosing the next thread *)

Lemma list_max_from_spec s l : forall max,
  Forall (fun t => is_Some (threads s !! t)) (max :: l) ->
  exists m l1 l2,
    list_max_from s max l = Some m /\
    max :: l = l1 ++ m :: l2 /\
    Forall (fun t => from_option priority 0 (threads s !! t)
                     < from_option priority 0 (threads s !! m)) l1 /\
    Forall (fun t => from_option priority 0 (threads s !! t)
                     <= from_option priority 0 (threads s !! m)) l2.
Proof.
  induction l as [|e l IH]; intros max Hall.
  - exists max, [], []. by repeat split.
  - apply Forall_cons in Hall as [[mt Hmax] Hall].
    pose proof Hall as Hall'.
    apply Forall_cons in Hall' as [[et He] Hl].
    cbn [list_max_from]. unfold priority_less. rewrite Hmax, He.
    cbn [mbind option_bind].
    destruct (Z.ltb_spec (priority mt) (priority et)) as [Hlt|Hge].
    + destruct (IH e Hall) as (m & l1 & l2 & Hm & Hsplit & H1 & H2).
      exists m, (max :: l1), l2. split; [done|].
      split; [by rewrite Hsplit|]. split; [|done].
      constructor; [|done]. rewrite Hmax. cbn.
      destruct l1 as [|x l1]; cbn in Hsplit.
      * injection Hsplit as <- _. by rewrite He.
      * injection Hsplit as <- _. apply Forall_cons in H1 as [H1 _].
        rewrite He in H1. cbn in H1. lia.
    + destruct (IH max) as (m & l1 & l2 & Hm & Hsplit & H1 & H2).
      { constructor; [by eexists|done]. }
      destruct l1 as [|x l1]; cbn in Hsplit.
      * injection Hsplit as <- <-. exists max, [], (e :: l).
        split; [done|]. split; [done|]. split; [done|].
        constructor; [|done]. rewrite He, Hmax. done.
      * injection Hsplit as <- ->. exists m, (max :: e :: l1), l2.
        split; [done|]. split; [done|]. split; [|done].
        apply Forall_cons in H1 as [H1 H1'].
        constructor; [done|]. constructor; [|done].
        rewrite He. rewrite Hmax in H1. cbn in *. lia.
Qed.

Lemma next_thread_to_run_rr
    (s : kstate) (k : nat -> kstate -> run) :
  thread_mlfqs s = false -> ready_list s <> [] ->
  Forall (fun t => is_Some (threads s !! t)) (ready_list s) ->
  exists m pm l1 l2,
    ready_list s = l1 ++ m :: l2 /\
    priority_of s m = Some pm /\
    Forall (fun t => exists p, priority_of s t = Some p /\ p < pm) l1 /\
    Forall (fun t => exists p, priority_of s t = Some p /\ p <= pm) l2 /\
    next_thread_to_run s k = k m (list_remove_elem m s).
Proof.
  intros Hm Hne Hall. unfold next_thread_to_run. rewrite Hm. cbn [negb].
  destruct (ready_list s) as [|e l] eqn:El; [done|]. cbn [list_empty list_max].
  destruct (list_max_from_spec s l e Hall) as (m & l1 & l2 & Hmax & Hsplit & H1 & H2).
  rewrite Hmax. cbn [fmap option_fmap option_map fetch].
  assert (Hin : Forall (fun t => is_Some (threads s !! t)) (l1 ++ m :: l2))
    by (by rewrite <- Hsplit).
  apply Forall_app in Hin as [Hin1 Hin2].
  apply Forall_cons in Hin2 as [[mt Hmt] Hin2].
  rewrite Hmt in H1, H2. cbn in H1, H2.
  exists m, (priority mt), l1, l2. split; [done|].
  unfold priority_of, field. rewrite Hmt. split; [done|].
  split; [|split; [|done]].
  - apply Forall_forall. intros t Ht.
    rewrite Forall_forall in Hin1, H1.
    destruct (Hin1 t Ht) as [tt Htt]. specialize (H1 t Ht).
    rewrite Htt in H1 |- *. by exists (priority tt).
  - apply Forall_forall. intros t Ht.
    rewrite Forall_forall in Hin2, H2.
    destruct (Hin2 t Ht) as [tt Htt]. specialize (H2 t Ht).
    rewrite Htt in H2 |- *. by exists (priority tt).
Qed.

(** X7.  Round-robin mode.  From a ready list that is not empty
    [next_thread_to_run] takes a thread of the highest priority, the one
    nearest the front among equals, and unlinks it; the threads before it
    are of strictly lower priority. *)
Theorem next_thread_to_run_takes_first_highest
    (s : kstate) (k : nat -> kstate -> run) :
  thread_mlfqs s = false -> ready_list s <> [] ->
  Forall (fun t => is_Some (threads s !! t)) (ready_list s) ->
  exists m pm l1 l2,
    ready_list s = l1 ++ m :: l2 /\
    priority_of s m = Some pm /\
    Forall (fun t => exists p, priority_of s t = Some p /\ p < pm) l1 /\
    Forall (fun t => exists p, priority_of s t = Some p /\ p <= pm) l2 /\
    next_thread_to_run s k = k m (list_remove_elem m s).
Proof. apply next_thread_to_run_rr. Qed.

Lemma next_thread_to_run_takes_first_highest_witness :
  ready_list rr_two_ready = [3; 4]%nat /\
  exists m pm l1 l2,
    ready_list rr_two_ready = l1 ++ m :: l2 /\
    priority_of rr_two_ready m = Some pm /\
    Forall (fun t => exists p, priority_of rr_two_ready t = Some p /\ p < pm) l1 /\
    Forall (fun t => exists p, priority_of rr_two_ready t = Some p /\ p <= pm) l2 /\
    next_thread_to_run rr_two_ready (fun _ => Done)
      = Done (list_remove_elem m rr_two_ready).
Proof.
  split; [vm_compute; reflexivity|].
  apply (next_thread_to_run_takes_first_highest rr_two_ready (fun _ => Done)).
  - vm_compute; reflexivity.
  - vm_compute; discriminate.
  - apply (bool_decide_unpack _). vm_compute. exact I.
Defined.

(** X8.  Feedback queue mode.  [next_thread_to_run] takes the front of the
    highest band that is not empty and unlinks it; the idle thread is chosen
    when, and only when, all sixty-four bands are empty. *)
Theorem next_thread_to_run_takes_highest_band
    (s : kstate) (k : nat -> kstate -> run) :
  thread_mlfqs s = true -> length (ready_queues s) = Z.to_nat NQ ->
  (Forall (fun q => q = []) (ready_queues s) /\
   next_thread_to_run s k = k (idle_thread s) s) \/
  (exists i m q,
     band s i = Some (m :: q) /\
     (forall j, i < j <= PRI_MAX -> band s j = Some []) /\
     next_thread_to_run s k = k m (list_remove_elem m s)).
Proof.
  intros Hm Hlen. unfold next_thread_to_run. rewrite Hm. cbn [negb].
  change (Z.to_nat (PRI_MAX + 1)) with 64%nat.
  change (Z.to_nat NQ) with 64%nat in Hlen.
  destruct (decide (Forall (fun q => q = []) (ready_queues s))) as [He|Hne].
  - left. split; [done|].
    assert (Hgen : forall n, (n <= 64)%nat ->
              next_band n s k = k (idle_thread s) s).
    { induction n as [|n IH]; intros Hn; [done|]. cbn [next_band].
      destruct (lookup_lt_is_Some_2 (ready_queues s) n) as [q Hq]; [lia|].
      rewrite Hq. cbn [fetch].
      rewrite Forall_forall in He.
      rewrite (He q) by (apply list_elem_of_lookup; eauto).
      apply IH. lia. }
    by apply Hgen.
  - right. apply not_Forall_Exists in Hne; [|intros q; apply _].
    apply Exists_exists in Hne as (q0 & Hin & Hq0).
    apply list_elem_of_lookup in Hin as [j Hj].
    destruct q0 as [|x q0]; [by destruct Hq0|].
    destruct (highest_band (ready_queues s) 64) as (i & m & q & Hi & Hq & Hall).
    { lia. }
    { exists j, x, q0. split; [|done]. apply lookup_lt_Some in Hj. lia. }
    exists (Z.of_nat i), m, q. split; [|split].
    + unfold band. destruct (Z.leb_spec 0 (Z.of_nat i)); [|lia].
      by rewrite Nat2Z.id.
    + intros j' Hj'. unfold band, PRI_MAX in *.
      destruct (Z.leb_spec 0 j'); [|lia]. apply Hall. lia.
    + by apply (next_band_found 64 s k i m q).
Qed.

Lemma next_thread_to_run_takes_highest_band_witness :
  next_thread_to_run main_with_peer (fun n _ => Done (set_running n main_with_peer))
    = Done (set_running 3 main_with_peer) /\
  ((Forall (fun q => q = []) (ready_queues main_with_peer) /\
    next_thread_to_run main_with_peer (fun _ => Done)
      = Done main_with_peer) \/
   (exists i m q,
      band main_with_peer i = Some (m :: q) /\
      (forall j, i < j <= PRI_MAX -> band main_with_peer j = Some []) /\
      next_thread_to_run main_with_peer (fun _ => Done)
        = Done (list_remove_elem m main_with_peer))).
Proof.
  split; [vm_compute; reflexivity|].
  apply (next_thread_to_run_takes_highest_band main_with_peer (fun _ => Done)).
  - vm_compute; reflexivity.
  - vm_compute; reflexivity.
Defined.

Local Transparent wrap32 wrap64 recalculate_priority next_recent_cpu next_load_avg.

(** ** One thread at most is running *)

Local Opaque wrap32 wrap64 recalculate_priority next_recent_cpu next_load_avg.

Lemma one_running_update t f s :
  calm f -> one_running s -> one_running (update t f s).
Proof.
  intros Hf Hone i th Hi Hst. cbn in Hi.
  destruct (decide (t = i)) as [->|Hne].
  - rewrite lookup_alter_eq in Hi.
    destruct (threads s !! i) as [th0|] eqn:E; [|done].
    injection Hi as <-. apply (Hone i th0 E). by apply Hf.
  - rewrite lookup_alter_ne in Hi by done. by apply (Hone i th).
Qed.

Lemma one_running_cur f s :
  one_running s -> one_running (update (running s) f s).
Proof.
  intros Hone i th Hi Hst. cbn in Hi.
  destruct (decide (running s = i)) as [<-|Hne]; [reflexivity|].
  rewrite lookup_alter_ne in Hi by done. by apply (Hone i th).
Qed.

Lemma one_running_insert t th s :
  status th <> THREAD_RUNNING -> one_running s ->
  one_running (set_threads (<[t := th]> (threads s)) s).
Proof.
  intros Hth Hone i th' Hi Hst. cbn in Hi.
  destruct (decide (t = i)) as [->|Hne].
  - rewrite lookup_insert_eq in Hi. congruence.
  - rewrite lookup_insert_ne in Hi by done. by apply (Hone i th').
Qed.

Lemma one_running_free t s : one_running s -> one_running (palloc_free_page t s).
Proof.
  intros Hone i th Hi Hst. cbn in Hi.
  apply lookup_delete_Some in Hi as [_ Hi]. by apply (Hone i th).
Qed.

Lemma one_running_switch next s c :
  one_running s -> threads s !! running s = Some c ->
  status c <> THREAD_RUNNING -> one_running (set_running next s).
Proof.
  intros Hone Hc Hst i th Hi Hr. cbn in Hi.
  pose proof (Hone i th Hi Hr) as ->. congruence.
Qed.

Lemma push_ready_one t s s' :
  push_ready t s = Some s' -> one_running s -> one_running s'.
Proof.
  unfold push_ready. destruct (negb (thread_mlfqs s)).
  - by intros [= <-].
  - destruct (threads s !! t) as [th|]; [|done]. cbn [mbind option_bind].
    destruct (band s (priority th)); [|done]. by intros [= <-].
Qed.

Lemma calm_status v : v <> THREAD_RUNNING -> calm (set_status v).
Proof. intros Hv th. cbn. congruence. Qed.

Ltac calm_tac :=
  first [ apply calm_status; discriminate
        | intros ?; cbn; (done || congruence) ].

Ltac strip1 :=
  repeat match goal with
  | |- one_running (set_ready_list _ ?s) => change (one_running s)
  | |- one_running (set_ready_queues _ ?s) => change (one_running s)
  | |- one_running (set_waiting_list _ ?s) => change (one_running s)
  | |- one_running (set_all_list _ ?s) => change (one_running s)
  | |- one_running (set_idle_thread _ ?s) => change (one_running s)
  | |- one_running (set_initial_thread _ ?s) => change (one_running s)
  | |- one_running (set_load_avg _ ?s) => change (one_running s)
  | |- one_running (set_idle_ticks _ ?s) => change (one_running s)
  | |- one_running (set_kernel_ticks _ ?s) => change (one_running s)
  | |- one_running (set_total_ticks _ ?s) => change (one_running s)
  | |- one_running (set_thread_ticks _ ?s) => change (one_running s)
  | |- one_running (set_next_tid _ ?s) => change (one_running s)
  | |- one_running (set_intr_on _ ?s) => change (one_running s)
  | |- one_running (set_intr_ctx _ ?s) => change (one_running s)
  | |- one_running (set_yield_on_return _ ?s) => change (one_running s)
  | |- one_running (list_remove_elem _ ?s) => change (one_running s)
  | |- one_running (list_remove_allelem _ ?s) => change (one_running s)
  | |- one_running (donate _ _ _) => unfold donate
  | |- one_running (undonate _ _) => unfold undonate
  | |- one_running (update _ _ _) => apply one_running_update; [calm_tac|]
  | |- one_running (if _ then _ else _) => case_match
  | H : push_ready _ ?s = Some ?s' |- one_running ?s' =>
      apply (push_ready_one _ _ _ H)
  end; try assumption.

Lemma next_thread_to_run_sat P s k :
  (forall n s1, s1 = s \/ s1 = list_remove_elem n s -> run_sat P (k n s1)) ->
  run_sat P (next_thread_to_run s k).
Proof.
  intros Hk. unfold next_thread_to_run.
  destruct (negb (thread_mlfqs s)).
  - destruct (list_empty _); [apply Hk; by left|].
    repeat step_run. apply Hk. by right.
  - generalize (Z.to_nat (PRI_MAX + 1)). intros n.
    induction n as [|n IH]; cbn [next_band]; [apply Hk; by left|].
    step_run. destruct l; [done|]. apply Hk. by right.
Qed.

Lemma thread_schedule_tail_one prev s :
  one_running s -> run_sat one_running (thread_schedule_tail prev s).
Proof.
  intros Hone. unfold thread_schedule_tail. cbv zeta.
  repeat step_run; strip1.
  all: try apply one_running_free; strip1.
  all: try (apply (one_running_cur _ (set_thread_ticks 0 _))); strip1.
  all: try apply (one_running_cur _ s); try assumption.
Qed.

Lemma schedule_one s : one_running s -> run_sat one_running (schedule s).
Proof.
  intros Hone. unfold schedule. apply next_thread_to_run_sat.
  intros next s1 Hs1.
  assert (H1 : one_running s1) by (destruct Hs1 as [->| ->]; strip1).
  assert (Hr : running s1 = running s) by (by destruct Hs1 as [->| ->]).
  cbv zeta. rewrite <- Hr. clear Hs1 Hr.
  step_run. step_run.
  unfold kassert at 1.
  destruct (bool_decide (status t = THREAD_RUNNING)) eqn:Hst; [exact I|].
  apply bool_decide_eq_false_1 in Hst. cbn [negb].
  repeat step_run.
  - apply thread_schedule_tail_one. by eapply one_running_switch.
  - by apply thread_schedule_tail_one.
Qed.

Ltac op1 :=
  repeat first
    [ step_run; strip1
    | apply thread_current_inv; intros ? ?
    | apply schedule_one; strip1 ].

Lemma thread_wait_one ticks s :
  one_running s -> run_sat one_running (thread_wait ticks s).
Proof. intros Hone. unfold thread_wait. cbv zeta. op1. Qed.

Lemma thread_block_one s : one_running s -> run_sat one_running (thread_block s).
Proof. intros Hone. unfold thread_block. cbv zeta. op1. Qed.

Lemma thread_yield_one s : one_running s -> run_sat one_running (thread_yield s).
Proof. intros Hone. unfold thread_yield. cbv zeta. op1. Qed.

Lemma thread_exit_one s : one_running s -> run_sat one_running (thread_exit s).
Proof. intros Hone. unfold thread_exit. cbv zeta. op1. Qed.

Lemma thread_unblock_one t s :
  one_running s -> run_sat one_running (thread_unblock t s).
Proof. intros Hone. unfold thread_unblock. cbv zeta. op1. Qed.

Lemma init_thread_one t name priority s :
  one_running s -> run_sat one_running (init_thread t name priority s).
Proof.
  intros Hone. unfold init_thread. cbv zeta.
  assert (H1 : one_running (set_threads (<[t:=blank_thread name]> (threads s)) s)).
  { by apply one_running_insert. }
  revert H1. generalize (set_threads (<[t:=blank_thread name]> (threads s)) s).
  intros s1 H1. op1.
Qed.

Lemma thread_create_one name priority page s :
  one_running s -> run_sat one_running (thread_create name priority page s).
Proof.
  intros Hone. unfold thread_create, allocate_tid. cbv zeta.
  destruct (page =? 0)%nat; [done|].
  apply run_sat_bind; [by apply init_thread_one|]. intros s1 H1.
  apply thread_unblock_one. strip1.
Qed.

Lemma assign_scan_one n : forall i s,
  one_running s -> run_sat one_running (assign_scan n i s).
Proof.
  induction n as [|n IH]; intros i s Hone; cbn [assign_scan]; [done|].
  step_run. apply run_sat_bind.
  - destruct (negb _); [by apply thread_yield_one|done].
  - intros s1 H1. by apply IH.
Qed.

Lemma thread_assign_priority_one new_priority cur s :
  one_running s -> run_sat one_running (thread_assign_priority new_priority cur s).
Proof.
  intros Hone. unfold thread_assign_priority. cbv zeta.
  step_run. step_run.
  - apply assign_scan_one. strip1.
  - assert (H2 : one_running (update cur (set_priority_orig new_priority)
                    (update cur (set_priority new_priority) s))) by strip1.
    revert H2.
    generalize (update cur (set_priority_orig new_priority)
                  (update cur (set_priority new_priority) s)).
    intros s2 H2. repeat step_run. by apply thread_yield_one.
Qed.

Lemma thread_set_priority_one new_priority s :
  one_running s -> run_sat one_running (thread_set_priority new_priority s).
Proof.
  intros Hone. unfold thread_set_priority.
  apply thread_current_inv. intros c Hc.
  repeat step_run; strip1. by apply thread_assign_priority_one.
Qed.

Lemma thread_set_nice_one nice s :
  one_running s -> run_sat one_running (thread_set_nice nice s).
Proof.
  intros Hone. unfold thread_set_nice.
  apply thread_current_inv. intros c Hc. cbv zeta.
  step_run. step_run; [|done]. step_run.
  apply run_sat_bind; [|by intros].
  apply thread_assign_priority_one. strip1.
Qed.

Lemma recompute_one ticks cur e s b s' b' :
  recompute ticks cur e (s, b) = Some (s', b') ->
  one_running s -> one_running s'.
Proof.
  unfold recompute. intros Hrun Hone.
  destruct (threads s !! e) as [t|]; cbn [mbind option_bind] in Hrun; [|done].
  destruct (negb _); [|by injection Hrun as <- <-].
  set (s1 := if ticks `rem` TIMER_FREQ =? 0 then _ else s) in Hrun.
  assert (H1 : one_running s1) by (subst s1; strip1).
  clearbody s1.
  destruct (threads s1 !! e) as [t1|]; cbn [mbind option_bind] in Hrun; [|done].
  set (s2 := update e _ s1) in Hrun.
  assert (H2 : one_running s2) by (subst s2; strip1).
  clearbody s2.
  destruct (threads s2 !! e) as [t2|]; cbn [mbind option_bind] in Hrun; [|done].
  destruct (_ && _); [|by injection Hrun as <- <-].
  destruct (band _ _); cbn [mbind option_bind] in Hrun; [|done].
  destruct (threads _ !! cur); cbn [mbind option_bind] in Hrun; [|done].
  injection Hrun as <- <-. strip1.
Qed.

Lemma list_foreach_one ticks cur l : forall s b s' b',
  list_foreach l (recompute ticks cur) (s, b) = Some (s', b') ->
  one_running s -> one_running s'.
Proof.
  induction l as [|e l IH]; intros s b s' b' Hrun Hone;
    cbn [list_foreach] in Hrun.
  - by injection Hrun as <- <-.
  - destruct (recompute ticks cur e (s, b)) as [[s1 b1]|] eqn:E;
      cbn [mbind option_bind] in Hrun; [|done].
    apply recompute_one in E; [|done]. by eapply IH.
Qed.

Lemma mlfqs_tick_one ticks cur s s' b :
  mlfqs_tick ticks cur s = Some (s', b) -> one_running s -> one_running s'.
Proof.
  unfold mlfqs_tick. cbv zeta. intros Hrun Hone.
  set (s0 := if negb (cur =? idle_thread s)%nat then _ else s) in Hrun.
  assert (H0 : one_running s0) by (subst s0; strip1).
  clearbody s0.
  destruct (ticks `rem` 4 =? 0); [|by injection Hrun as <- <-].
  destruct (ticks `rem` TIMER_FREQ =? 0).
  - destruct (count_ready s0 (all_list s0) 0) as [rt|];
      cbn [mbind option_bind] in Hrun; [|done].
    apply list_foreach_one in Hrun; [done|]. strip1.
  - cbn [mbind option_bind] in Hrun. by apply list_foreach_one in Hrun.
Qed.

Lemma age_ready_one l : forall s s',
  age_ready l s = Some s' -> one_running s -> one_running s'.
Proof.
  induction l as [|e l IH]; intros s s' Hrun Hone; cbn [age_ready] in Hrun.
  - by injection Hrun as <-.
  - destruct (threads s !! e) as [t|] eqn:E; [|done].
    cbn [mbind option_bind] in Hrun.
    apply IH in Hrun; [done|]. strip1.
Qed.

Lemma rr_tick_one s s' : rr_tick s = Some s' -> one_running s -> one_running s'.
Proof.
  unfold rr_tick. cbv zeta. intros Hrun Hone.
  destruct (_ =? 0).
  - apply age_ready_one in Hrun; [done|]. strip1.
  - injection Hrun as <-. strip1.
Qed.

Lemma wake_scan_one cur l : forall s b s' b',
  wake_scan cur l (s, b) = Some (s', b') -> one_running s -> one_running s'.
Proof.
  induction l as [|e l IH]; intros s b s' b' Hrun Hone; cbn [wake_scan] in Hrun.
  - by injection Hrun as <- <-.
  - destruct (threads s !! e) as [th|] eqn:E;
      cbn [mbind option_bind] in Hrun; [|done].
    set (s1 := update e (fun t => set_ticks_wait (wrap64 (ticks_wait t - 1)) t) s)
      in Hrun.
    assert (H1 : one_running s1) by (subst s1; strip1).
    clearbody s1.
    destruct (threads s1 !! e) as [sleeper|]; cbn [mbind option_bind] in Hrun;
      [|done].
    destruct (ticks_wait sleeper =? 0).
    + destruct (push_ready e _) as [s2|] eqn:P;
        cbn [mbind option_bind] in Hrun; [|done].
      apply push_ready_one in P; [|strip1].
      destruct (threads _ !! cur); cbn [mbind option_bind] in Hrun; [|done].
      injection Hrun as <- <-. strip1.
    + by apply IH in Hrun.
Qed.

Lemma thread_tick_one ticks s :
  one_running s -> run_sat one_running (thread_tick ticks s).
Proof.
  intros Hone. unfold thread_tick.
  apply thread_current_inv. intros c Hc. cbv zeta.
  set (sa := if (running s =? idle_thread s)%nat then _ else _).
  assert (Ha : one_running sa) by (subst sa; strip1).
  assert (Hr : running sa = running s) by (subst sa; by destruct (_ =? _)%nat).
  clearbody sa.
  set (mid := if thread_mlfqs sa then _ else _).
  destruct mid as [[sb sup]|] eqn:Emid; [|done]. cbn [fetch].
  assert (Hb : one_running sb).
  { subst mid. destruct (thread_mlfqs sa).
    - by eapply mlfqs_tick_one.
    - destruct (rr_tick sa) as [sb'|] eqn:Er;
        cbn [mbind option_bind] in Emid; [|done].
      injection Emid as <- <-. by eapply rr_tick_one. }
  destruct (if negb (list_empty (waiting_list sb)) then _ else _)
    as [[sc sup']|] eqn:Ec; [|done].
  assert (Hc' : one_running sc).
  { destruct (negb _).
    - by eapply wake_scan_one.
    - by injection Ec as <- _. }
  cbn [fetch run_sat]. strip1.
Qed.

Lemma timer_interrupt_one ticks s :
  one_running s -> run_sat one_running (timer_interrupt ticks s).
Proof.
  intros Hone. unfold timer_interrupt. cbv zeta. step_run.
  apply run_sat_bind; [apply thread_tick_one; strip1|]. intros s1 H1.
  apply run_sat_bind; [|intros; cbn [run_sat]; strip1].
  step_run; [|cbn [run_sat]; strip1]. apply thread_yield_one. strip1.
Qed.

Lemma intr_unblock_one t s :
  one_running s -> run_sat one_running (intr_unblock t s).
Proof.
  intros Hone. unfold intr_unblock. step_run.
  apply run_sat_bind; [apply thread_unblock_one; strip1|].
  intros; cbn [run_sat]; strip1.
Qed.

Lemma perform_one c s : one_running s -> run_sat one_running (perform c s).
Proof.
  intros Hone. destruct c; cbn [perform].
  - step_run. by apply thread_create_one.
  - apply thread_block_one. strip1.
  - apply thread_wait_one. strip1.
  - by apply thread_unblock_one.
  - by apply thread_yield_one.
  - by apply thread_exit_one.
  - by apply thread_set_priority_one.
  - by apply thread_set_nice_one.
  - cbn [run_sat]. strip1.
  - by apply timer_interrupt_one.
  - by apply intr_unblock_one.
  - cbn [run_sat]. strip1.
  - cbn [run_sat]. strip1.
Qed.

Lemma update_insert t f x (m : gmap nat thread) s :
  update t f (set_threads (<[t := x]> m) s) = set_threads (<[t := f x]> m) s.
Proof. unfold update. cbn. by rewrite alter_insert_eq. Qed.

Lemma init_thread_effect t nm p s s' :
  outcome (init_thread t nm p s) = Some s' ->
  exists th',
    init_thread t nm p s = Done s' /\
    s' = set_all_list (list_push_back (all_list s) t)
           (set_threads (<[t := th']> (threads s)) s) /\
    t <> 0%nat /\ PRI_MIN <= p <= PRI_MAX /\
    tid th' = 0 /\ status th' = THREAD_NASCENT /\
    name th' = strlcpy_name nm /\
    ticks_wait th' = 0 /\ num_lock_donors th' = 0 /\
    priority_orig th' = priority th' /\
    (String.eqb (strlcpy_name nm) "main" = true ->
     parent th' = t /\ nice th' = 0 /\ recent_cpu th' = 0) /\
    (String.eqb (strlcpy_name nm) "main" = false ->
     parent th' = running s /\ running s <> t /\
     exists c, threads s !! running s = Some c /\
               status c = THREAD_RUNNING /\
               (thread_mlfqs s = true ->
                nice th' = nice c /\ recent_cpu th' = recent_cpu c)) /\
    (thread_mlfqs s = false ->
     priority th' = p /\ nice th' = 0 /\ recent_cpu th' = 0) /\
    (thread_mlfqs s = true ->
     priority th' = if String.eqb nm "idle" then p
                    else recalculate_priority th').
Proof.
  intros Hout.
  enough (Hgen : forall r, init_thread t nm p s = r -> outcome r = Some s' ->
            exists th', r = Done s' /\
    s' = set_all_list (list_push_back (all_list s) t)
           (set_threads (<[t := th']> (threads s)) s) /\
    t <> 0%nat /\ PRI_MIN <= p <= PRI_MAX /\
    tid th' = 0 /\ status th' = THREAD_NASCENT /\
    name th' = strlcpy_name nm /\
    ticks_wait th' = 0 /\ num_lock_donors th' = 0 /\
    priority_orig th' = priority th' /\
    (String.eqb (strlcpy_name nm) "main" = true ->
     parent th' = t /\ nice th' = 0 /\ recent_cpu th' = 0) /\
    (String.eqb (strlcpy_name nm) "main" = false ->
     parent th' = running s /\ running s <> t /\
     exists c, threads s !! running s = Some c /\
               status c = THREAD_RUNNING /\
               (thread_mlfqs s = true ->
                nice th' = nice c /\ recent_cpu th' = recent_cpu c)) /\
    (thread_mlfqs s = false ->
     priority th' = p /\ nice th' = 0 /\ recent_cpu th' = 0) /\
    (thread_mlfqs s = true ->
     priority th' = if String.eqb nm "idle" then p
                    else recalculate_priority th')).
  { destruct (Hgen _ eq_refl Hout) as (th' & Hr & Hrest). by exists th'. }
  clear Hout. intros r.
  unfold init_thread. cbv zeta.
  destruct (Nat.eqb_spec t 0) as [|Ht]; [by intros <-|]. cbn [negb kassert].
  destruct (Z.leb_spec PRI_MIN p) as [H1|]; [|by intros <-].
  destruct (Z.leb_spec p PRI_MAX) as [H2|]; [|by intros <-]. cbn [andb kassert].
  cbn [threads set_threads]. rewrite lookup_insert_eq. cbn [fetch].
  unfold is_main_thread. cbn [blank_thread name].
  destruct (String.eqb (strlcpy_name nm) "main") eqn:Hmain; cbn [negb bind].
  - rewrite ?update_insert.
    destruct (thread_mlfqs s) eqn:Hm; cbn [thread_mlfqs set_threads negb bind];
      rewrite ?Hm; cbn [negb bind]; rewrite ?update_insert.
    + destruct (String.eqb nm "idle") eqn:Hidle; cbn [negb];
        rewrite ?update_insert; intros <-; cbn [outcome]; intros Hs'; apply (inj Some) in Hs'; subst s';
        eexists; (split; [reflexivity|]); (split; [reflexivity|]);
        cbn; rewrite ?Hidle; by repeat split.
    + intros <-. cbn [outcome]. intros Hs'. apply (inj Some) in Hs'. subst s'.
      eexists; (split; [reflexivity|]); (split; [reflexivity|]).
      cbn. by repeat split.
  - unfold thread_current at 1. cbv zeta.
    cbn [running set_threads threads].
    destruct (is_thread _ (running s)) eqn:Hi; [|by intros <-].
    cbn [kassert].
    destruct (decide (running s = t)) as [Hrt|Hrt].
    { rewrite Hrt, lookup_insert_eq. cbn. by intros <-. }
    rewrite lookup_insert_ne by done.
    destruct (threads s !! running s) as [c|] eqn:Ec; [|by intros <-].
    cbn [fetch].
    destruct (bool_decide (status c = THREAD_RUNNING)) eqn:Hst; [|by intros <-].
    apply bool_decide_eq_true_1 in Hst.
    cbn [kassert bind]. rewrite ?update_insert.
    destruct (thread_mlfqs s) eqn:Hm; cbn [thread_mlfqs set_threads negb bind];
      rewrite ?Hm; cbn [negb bind]; rewrite ?update_insert.
    + unfold thread_current at 1. cbv zeta.
      cbn [running set_threads threads].
      match goal with
      | |- context [kassert (is_thread ?a ?b)] => destruct (is_thread a b)
      end; [|by intros <-].
      cbn [kassert].
      rewrite lookup_insert_ne, Ec by done. cbn [fetch].
      rewrite bool_decide_eq_true_2 by done. cbn [kassert bind].
      rewrite ?update_insert.
      destruct (String.eqb nm "idle") eqn:Hidle; cbn [negb];
        rewrite ?update_insert; intros <-; cbn [outcome]; intros Hs'; apply (inj Some) in Hs'; subst s';
        eexists; (split; [reflexivity|]); (split; [reflexivity|]);
        cbn; rewrite ?Hidle; repeat split; try done; try (exists c; by repeat split).
    + intros <-. cbn [outcome]. intros Hs'. apply (inj Some) in Hs'. subst s'.
      eexists; (split; [reflexivity|]); (split; [reflexivity|]).
      cbn. repeat split; try done. exists c. by repeat split.
Qed.

Lemma outcome_bind_Some r f s' :
  outcome (bind r f) = Some s' ->
  exists s1, outcome r = Some s1.
Proof. destruct r; cbn; eauto; done. Qed.

Lemma thread_init_one s s' :
  one_running s -> outcome (thread_init s) = Some s' -> one_running s'.
Proof.
  intros Hone. unfold thread_init. cbv zeta.
  destruct (negb (intr_on s)); [|done]. cbn [kassert].
  set (sx := set_initial_thread _ _).
  assert (Hx : one_running sx) by (subst sx; strip1).
  assert (Hi : initial_thread sx = running sx) by done.
  clearbody sx. intros Hout.
  destruct (outcome_bind_Some _ _ _ Hout) as [s1 Hs1].
  destruct (init_thread_effect _ _ _ _ _ Hs1) as (th' & Hr & Heq & _ & _ & _ & Hst & _).
  rewrite Hr in Hout. cbn [bind] in Hout. unfold allocate_tid in Hout.
  cbn [outcome] in Hout. apply (inj Some) in Hout. subst s'.
  assert (H1 : one_running s1).
  { rewrite Heq. strip1. apply one_running_insert; [congruence|done]. }
  assert (Hi1 : initial_thread s1 = running s1) by (by rewrite Heq).
  strip1. cbn [initial_thread set_next_tid]. strip1.
  rewrite Hi1. by apply one_running_cur.
Qed.

Lemma start_one mlfqs page idle_page s :
  start mlfqs page idle_page = Some s -> one_running s.
Proof.
  unfold start. intros Hs.
  destruct (outcome (thread_init (boot mlfqs page))) as [s0|] eqn:E0; [|done].
  cbn [mbind option_bind] in Hs.
  assert (H0 : one_running s0).
  { eapply thread_init_one; [|exact E0]. intros t th Ht. done. }
  eapply run_sat_outcome; [|exact Hs].
  unfold thread_start. cbv zeta.
  apply run_sat_bind; [by apply thread_create_one|]. intros s1 H1.
  repeat step_run.
  all: match goal with
       | |- run_sat _ (match ?q with [] => _ | _ :: _ => _ end) => destruct q
       end.
  all: repeat step_run; strip1.
Qed.

(** X9.  In either scheduler mode, in every state the system reaches, the
    only thread whose status is [THREAD_RUNNING] is the one on the CPU. *)
Theorem only_the_cpu_thread_is_running (mlfqs : bool) (s : kstate) :
  reachable mlfqs s ->
  forall t th, threads s !! t = Some th -> status th = THREAD_RUNNING ->
               t = running s.
Proof.
  intros Hreach.
  change (one_running s).
  induction Hreach as [page idle_page s Hs|s s' _ IH [c Hc]].
  - by eapply start_one.
  - eapply run_sat_outcome; [|exact Hc]. by apply perform_one.
Qed.

Lemma only_the_cpu_thread_is_running_witness :
  exists th,
    threads preempted_main !! 3%nat = Some th /\
    status th = THREAD_RUNNING /\ field status 1 preempted_main = Some THREAD_READY /\
    3%nat = running preempted_main.
Proof.
  eexists.
  split; [vm_compute; reflexivity|].
  split; [reflexivity|]. split; [vm_compute; reflexivity|].
  apply (only_the_cpu_thread_is_running false preempted_main) with (t := 3%nat)
    (th := mkThread 3 THREAD_RUNNING "a" 40 40 0 0 0 0 1).
  - apply (script_reachable false 1 2 [Create "a" 40 3%nat]).
    vm_compute; reflexivity.
  - vm_compute; reflexivity.
  - reflexivity.
Defined.

Local Transparent wrap32 wrap64 recalculate_priority next_recent_cpu next_load_avg.

(** ** The effect of a context switch *)

Local Opaque wrap32 wrap64 recalculate_priority next_recent_cpu next_load_avg.

Lemma thread_schedule_tail_effect prev s s' :
  outcome (thread_schedule_tail prev s) = Some s' ->
  thread_schedule_tail prev s = Done s' /\
  intr_on s = false /\ switch_frame s s' /\
  running s' = running s /\ thread_ticks s' = 0 /\
  ready_list s' = ready_list s /\ ready_queues s' = ready_queues s /\
  waiting_list s' = waiting_list s /\
  (exists c c',
     threads s !! running s = Some c /\ threads s' !! running s = Some c' /\
     status c' = THREAD_RUNNING /\
     priority c'
       = (if (num_lock_donors c =? 0) && negb (thread_mlfqs s)
          then priority_orig c else priority c) /\
     set_priority 0 (set_status THREAD_RUNNING c') 
       = set_priority 0 (set_status THREAD_RUNNING c)) /\
  (forall t, t <> running s ->
     threads s' !! t
       = if bool_decide (t = prev /\ t <> 0%nat /\ t <> initial_thread s /\
                         field status t s = Some THREAD_DYING)
         then None else threads s !! t).
Proof.
  intros Hout.
  enough (Hgen : forall r, thread_schedule_tail prev s = r ->
            outcome r = Some s' -> r = Done s' /\
  intr_on s = false /\ switch_frame s s' /\
  running s' = running s /\ thread_ticks s' = 0 /\
  ready_list s' = ready_list s /\ ready_queues s' = ready_queues s /\
  waiting_list s' = waiting_list s /\
  (exists c c',
     threads s !! running s = Some c /\ threads s' !! running s = Some c' /\
     status c' = THREAD_RUNNING /\
     priority c'
       = (if (num_lock_donors c =? 0) && negb (thread_mlfqs s)
          then priority_orig c else priority c) /\
     set_priority 0 (set_status THREAD_RUNNING c') 
       = set_priority 0 (set_status THREAD_RUNNING c)) /\
  (forall t, t <> running s ->
     threads s' !! t
       = if bool_decide (t = prev /\ t <> 0%nat /\ t <> initial_thread s /\
                         field status t s = Some THREAD_DYING)
         then None else threads s !! t)).
  { by apply (Hgen _ eq_refl Hout). }
  clear Hout. intros r.
  unfold thread_schedule_tail. cbv zeta.
  destruct (intr_on s) eqn:Hi; [by intros <-|]. cbn [negb kassert].
  destruct (threads s !! running s) as [c|] eqn:Ec; [|by intros <-].
  cbn [fetch].
  cbn [threads set_thread_ticks update set_threads].
  rewrite lookup_alter_eq, Ec. cbn [fmap option_fmap option_map fetch].
  cbn [num_lock_donors set_status thread_mlfqs priority_orig].
  set (s2 := if _ && _ then _ else _).
  assert (H2 : switch_frame s s2 /\ running s2 = running s /\
               thread_ticks s2 = 0 /\ ready_list s2 = ready_list s /\
               ready_queues s2 = ready_queues s /\
               waiting_list s2 = waiting_list s /\
               (exists c', threads s2 !! running s = Some c' /\
                  status c' = THREAD_RUNNING /\
                  priority c'
                    = (if (num_lock_donors c =? 0) && negb (thread_mlfqs s)
                       then priority_orig c else priority c) /\
                  set_priority 0 (set_status THREAD_RUNNING c') 
                    = set_priority 0 (set_status THREAD_RUNNING c)) /\
               forall t, t <> running s -> threads s2 !! t = threads s !! t).
  { subst s2. destruct (_ && _).
    - split; [by repeat split|]. do 5 (split; [done|]). split.
      + cbn. rewrite !lookup_alter_eq, Ec. cbn. eexists. by repeat split.
      + intros t Ht. cbn. by rewrite !lookup_alter_ne.
    - split; [by repeat split|]. do 5 (split; [done|]). split.
      + cbn. rewrite !lookup_alter_eq, Ec. cbn. eexists. by repeat split.
      + intros t Ht. cbn. by rewrite !lookup_alter_ne. }
  clearbody s2.
  destruct H2 as (Hf & Hr & Htk & Hrl & Hrq & Hwl & (c' & Hc' & Hst & Hpr & Hsame) & Hoth).
  assert (Hkeep : ~ (prev <> 0%nat /\ prev <> initial_thread s /\
                      field status prev s = Some THREAD_DYING) ->
            forall t, t <> running s ->
              threads s2 !! t
              = if bool_decide (t = prev /\ t <> 0%nat /\
                                t <> initial_thread s /\
                                field status t s = Some THREAD_DYING)
                then None else threads s !! t).
  { intros Hno t Ht. rewrite bool_decide_eq_false_2; [by apply Hoth|].
    intros (-> & ?). by apply Hno. }
  destruct (Nat.eqb_spec prev 0) as [Hp0|Hp0].
  { intros <- [= <-]. do 8 (split; [done|]). split; [by exists c, c'|].
    apply Hkeep. by intros (? & _). }
  destruct (threads s2 !! prev) as [pth|] eqn:Ep; [|by intros <-].
  cbn [fetch].
  destruct (Nat.eqb_spec prev (running s)) as [Hpc|Hpc].
  { destruct (bool_decide (status pth = THREAD_DYING) && _);
      [by intros <-|].
    intros <- [= <-]. do 8 (split; [done|]). split; [by exists c, c'|].
    intros t Ht. rewrite bool_decide_eq_false_2; [by apply Hoth|].
    intros (-> & _). done. }
  assert (Hps : field status prev s = Some (status pth)).
  { unfold field. rewrite <- Hoth by done. by rewrite Ep. }
  destruct (bool_decide (status pth = THREAD_DYING)) eqn:Hd; cbn [andb].
  2: { apply bool_decide_eq_false_1 in Hd.
       intros <- [= <-]. do 8 (split; [done|]). split; [by exists c, c'|].
       apply Hkeep. intros (_ & _ & Hdy). congruence. }
  apply bool_decide_eq_true_1 in Hd.
  assert (Hini : initial_thread s2 = initial_thread s)
    by (by destruct Hf as (_ & _ & ? & _)).
  rewrite Hini.
  destruct (Nat.eqb_spec prev (initial_thread s)) as [Hpi|Hpi]; cbn [negb].
  { intros <- [= <-]. do 8 (split; [done|]). split; [by exists c, c'|].
    apply Hkeep. by intros (_ & ? & _). }
  cbn [negb kassert]. intros <- [= <-].
  split; [done|]. split; [done|]. split; [exact Hf|].
  do 5 (split; [done|]). split.
  - exists c, c'. split; [done|]. split; [|done]. cbn.
    rewrite lookup_delete_ne by done. done.
  - intros t Ht. cbn. destruct (decide (t = prev)) as [->|Hne].
    + rewrite lookup_delete_eq, bool_decide_eq_true_2; [done|].
      rewrite Hps, Hd. done.
    + rewrite lookup_delete_ne by done.
      rewrite bool_decide_eq_false_2; [by apply Hoth|]. by intros (? & _).
Qed.

Lemma list_max_from_elem s l : forall max m,
  list_max_from s max l = Some m -> m ∈ max :: l.
Proof.
  induction l as [|e l IH]; intros max m; cbn [list_max_from].
  - intros [= <-]. by left.
  - destruct (priority_less s max e) as [lt|]; cbn [mbind option_bind]; [|done].
    intros Hmax. apply IH in Hmax.
    apply elem_of_cons in Hmax as [->|Hin].
    + destruct lt; [right; by left|by left].
    + right. by right.
Qed.

Lemma next_band_cases n s :
  (forall k, next_band n s k = Fault) \/
  ((forall k, next_band n s k = k (idle_thread s) s) /\
   forall i q, (i < n)%nat -> ready_queues s !! i = Some q -> q = []) \/
  (exists m, Exists (fun q => m ∈ q) (ready_queues s) /\
             forall k, next_band n s k = k m (list_remove_elem m s)).
Proof.
  induction n as [|n IH]; cbn [next_band].
  - right. left. split; [done|]. intros; lia.
  - destruct (ready_queues s !! n) as [[|m q]|] eqn:E; cbn [fetch].
    + destruct IH as [IH|[[IH Hall]|IH]]; [by left| |by right; right].
      right. left. split; [done|]. intros i q Hi Hq.
      destruct (decide (i = n)) as [->|]; [congruence|].
      apply (Hall i); [lia|done].
    + right. right. exists m. split; [|done].
      apply Exists_exists. exists (m :: q). split; [|by left].
      apply list_elem_of_lookup. eauto.
    + by left.
Qed.

Lemma next_thread_to_run_cases s :
  (forall k, next_thread_to_run s k = Fault) \/
  ((forall k, next_thread_to_run s k = k (idle_thread s) s) /\ none_ready s) \/
  (exists m, in_ready_structure m s /\
             forall k, next_thread_to_run s k = k m (list_remove_elem m s)).
Proof.
  unfold next_thread_to_run, none_ready, in_ready_structure.
  destruct (thread_mlfqs s); cbn [negb].
  - change (Z.to_nat (PRI_MAX + 1)) with 64%nat.
    destruct (next_band_cases 64 s) as [H|[H|(m & Hm & H)]];
      [by left|by right; left|].
    right. right. exists m. split; [by right|done].
  - destruct (ready_list s) as [|e l] eqn:El; cbn [list_empty list_max].
    + right. by left.
    + destruct (list_max_from s e l) as [m|] eqn:Em;
        cbn [fmap option_fmap option_map fetch]; [|by left].
      right. right. exists m. split; [|done]. left.
      by apply list_max_from_elem in Em.
Qed.

Lemma schedule_effect s s' :
  outcome (schedule s) = Some s' ->
  exists next s1 c,
    ((s1 = s /\ next = idle_thread s /\ none_ready s) \/
     (s1 = list_remove_elem next s /\ in_ready_structure next s)) /\
    (forall k, next_thread_to_run s k = k next s1) /\
    intr_on s = false /\ threads s !! running s = Some c /\
    status c <> THREAD_RUNNING /\ is_thread s next = true /\
    ((next <> running s /\ schedule s = Resched s' Done /\
      outcome (thread_schedule_tail (running s) (set_running next s1)) = Some s') \/
     (next = running s /\ schedule s = Done s' /\
      outcome (thread_schedule_tail 0 s1) = Some s')).
Proof.
  unfold schedule. cbv zeta.
  set (k := fun next s0 => _).
  assert (Hk : forall next s1,
    (s1 = s \/ s1 = list_remove_elem next s) ->
    outcome (k next s1) = Some s' ->
    exists c,
    intr_on s = false /\ threads s !! running s = Some c /\
    status c <> THREAD_RUNNING /\ is_thread s next = true /\
    ((next <> running s /\ k next s1 = Resched s' Done /\
      outcome (thread_schedule_tail (running s) (set_running next s1)) = Some s') \/
     (next = running s /\ k next s1 = Done s' /\
      outcome (thread_schedule_tail 0 s1) = Some s'))).
  { intros next s1 Hs1. subst k. cbv beta.
    assert (Hi : intr_on s1 = intr_on s) by (by destruct Hs1 as [->| ->]).
    assert (Ht : threads s1 = threads s) by (by destruct Hs1 as [->| ->]).
    assert (Hit : is_thread s1 next = is_thread s next)
      by (by destruct Hs1 as [->| ->]).
    rewrite Hi, Ht, Hit. clear Hi Ht Hit.
    destruct (intr_on s); [done|]. cbn [negb kassert].
    destruct (threads s !! running s) as [c|]; [|done]. cbn [fetch].
    destruct (bool_decide (status c = THREAD_RUNNING)) eqn:Hst; [done|].
    apply bool_decide_eq_false_1 in Hst. cbn [negb kassert].
    destruct (is_thread s next); [|done]. cbn [kassert].
    destruct (Nat.eqb_spec (running s) next) as [He|Hne]; cbn [negb].
    - intros Hout. exists c. do 4 (split; [done|]). right.
      split; [done|]. split; [|done].
      by apply thread_schedule_tail_effect in Hout as [-> _].
    - intros Hout. exists c. do 4 (split; [done|]). left.
      split; [done|].
      destruct (outcome_bind_Some _ _ _ Hout) as [s2 Hs2].
      pose proof Hs2 as Hs2'.
      apply thread_schedule_tail_effect in Hs2 as [Hd _].
      rewrite Hd in Hout |- *. cbn in Hout. injection Hout as <-.
      split; [done|]. by rewrite <- Hd. }
  clearbody k.
  destruct (next_thread_to_run_cases s) as [H|[[H Hn]|(m & Hm & H)]];
    rewrite H; [done| |].
  - intros Hout. destruct (Hk _ _ (or_introl eq_refl) Hout) as (c & Hrest).
    exists (idle_thread s), s, c. split; [by left|done].
  - intros Hout. destruct (Hk _ _ (or_intror eq_refl) Hout) as (c & Hrest).
    exists m, (list_remove_elem m s), c. split; [by right|done].
Qed.

Lemma thread_current_cases s k :
  thread_current s k = Panic \/
  exists c, is_thread s (running s) = true /\
            threads s !! running s = Some c /\
            status c = THREAD_RUNNING /\
            thread_current s k = k (running s) c.
Proof.
  unfold thread_current. cbv zeta.
  destruct (is_thread s (running s)) eqn:Hi; [|by left]. cbn [kassert].
  pose proof Hi as Hi'. unfold is_thread in Hi'.
  apply andb_prop in Hi' as [_ Hs]. apply bool_decide_eq_true_1 in Hs as [c Hc].
  rewrite Hc. cbn [fetch].
  destruct (bool_decide (status c = THREAD_RUNNING)) eqn:Hst; [|by left].
  apply bool_decide_eq_true_1 in Hst. right. by exists c.
Qed.

Local Transparent wrap32 wrap64 recalculate_priority next_recent_cpu next_load_avg.

(** ** Giving up the CPU *)

Local Opaque wrap32 wrap64 recalculate_priority next_recent_cpu next_load_avg.

(** X10.  Wherever [schedule] gets to, interrupts are still off and the
    thread on the CPU is [THREAD_RUNNING] with a fresh time slice; it was
    taken from the ready structure, or it is the idle thread and no thread
    was ready; and the CPU was handed over exactly when that thread is
    another one than the caller, whose record is then not
    [THREAD_RUNNING]. *)
Theorem schedule_installs_next (s s' : kstate) :
  outcome (schedule s) = Some s' ->
  intr_on s' = false /\ thread_ticks s' = 0 /\
  field status (running s') s' = Some THREAD_RUNNING /\
  (in_ready_structure (running s') s \/
   (running s' = idle_thread s /\ none_ready s)) /\
  (switched (schedule s) = true <-> running s' <> running s) /\
  (running s' <> running s ->
   field status (running s) s' <> Some THREAD_RUNNING).
Proof.
  intros Hout.
  destruct (schedule_effect s s' Hout)
    as (next & s1 & c & Hs1 & _ & Hi & Hc & Hst & Hnext & Hcase).
  assert (Hi1 : intr_on s1 = false /\ threads s1 = threads s /\
                initial_thread s1 = initial_thread s).
  { destruct Hs1 as [(-> & _)|(-> & _)]; done. }
  destruct Hi1 as (Hi1 & Ht1 & Hini1).
  assert (Hchosen : in_ready_structure next s \/
                    (next = idle_thread s /\ none_ready s)).
  { destruct Hs1 as [(_ & ? & ?)|(_ & ?)]; [by right|by left]. }
  destruct Hcase as [(Hne & Hsw & Htail)|(He & Hsw & Htail)];
    apply thread_schedule_tail_effect in Htail
      as (_ & _ & Hf & Hr & Htk & _ & _ & _ & (c1 & c' & Hc1 & Hc' & Hst' & _) & Hoth).
  - cbn [running set_running] in Hr, Hc', Hoth.
    destruct Hf as (_ & _ & _ & _ & _ & _ & _ & _ & _ & Hion & _).
    rewrite Hr. split; [by rewrite Hion|]. split; [done|].
    split; [unfold field; rewrite Hc'; cbn; by rewrite Hst'|]. split; [done|].
    split; [by rewrite Hsw|].
    intros _. unfold field. rewrite Hoth by done.
    destruct (bool_decide _); [done|].
    cbn [threads set_running]. rewrite Ht1, Hc. cbn. congruence.
  - destruct Hf as (_ & _ & _ & _ & _ & _ & _ & _ & _ & Hion & _).
    rewrite Hr. assert (Hrs : running s1 = running s)
      by (destruct Hs1 as [(-> & _)|(-> & _)]; done).
    rewrite Hrs in *. subst next.
    split; [by rewrite Hion|]. split; [done|].
    split; [unfold field; rewrite Hc'; cbn; by rewrite Hst'|]. split; [done|].
    split; [by rewrite Hsw|]. done.
Qed.

Lemma schedule_installs_next_witness :
  outcome (schedule blocking_main) = Some blocking_main_scheduled /\
  running blocking_main_scheduled = 3%nat /\
  field status (running blocking_main_scheduled) blocking_main_scheduled
    = Some THREAD_RUNNING.
Proof.
  split; [vm_compute; reflexivity|]. split; [vm_compute; reflexivity|].
  apply (schedule_installs_next blocking_main blocking_main_scheduled).
  vm_compute; reflexivity.
Defined.

(** X11.  [thread_exit] never comes back: where it gets to, the CPU has been
    handed to another thread and the caller would panic if it were ever
    resumed; the caller is off [all_list], and its page has been freed,
    unless it is the initial thread, whose record stays behind as
    [THREAD_DYING]. *)
Theorem thread_exit_frees_the_page (s s' : kstate) :
  outcome (thread_exit s) = Some s' ->
  thread_exit s = Resched s' (fun _ => Panic) /\
  running s' <> running s /\ (running s ∉ all_list s') /\
  (running s <> initial_thread s -> threads s' !! running s = None) /\
  (running s = initial_thread s ->
   field status (running s) s' = Some THREAD_DYING).
Proof.
  unfold thread_exit. cbv zeta.
  destruct (intr_ctx s); [done|]. cbn [negb kassert].
  destruct (thread_current_cases (set_intr_on false s)
              (fun cur _ =>
                 bind (schedule (update cur (set_status THREAD_DYING)
                                   (list_remove_allelem cur (set_intr_on false s))))
                      (fun _ => Panic)))
    as [->|(c & Hi & Hc & Hst & ->)]; [done|].
  cbn [running set_intr_on threads] in *.
  set (s1 := update _ _ _).
  assert (Hr1 : running s1 = running s) by done.
  assert (Hc1 : threads s1 !! running s = Some (set_status THREAD_DYING c)).
  { subst s1. cbn. by rewrite lookup_alter_eq, Hc. }
  assert (Hal : running s ∉ all_list s1).
  { subst s1. cbn. unfold list_remove. rewrite list_elem_of_filter.
    by intros [? _]. }
  assert (Hini : initial_thread s1 = initial_thread s) by done.
  clearbody s1. intros Hout.
  destruct (outcome_bind_Some _ _ _ Hout) as [s2 Hs2].
  destruct (schedule_effect s1 s2 Hs2)
    as (next & s1' & c0 & Hs1 & _ & _ & _ & _ & _ & Hcase).
  destruct Hcase as [(Hne & Hsw & Htail)|(He & Hsw & Htail)].
  2: { rewrite Hsw in Hout. done. }
  rewrite Hsw in Hout |- *. cbn in Hout. injection Hout as <-.
  split; [done|].
  assert (H1' : threads s1' = threads s1 /\ all_list s1' = all_list s1 /\
                initial_thread s1' = initial_thread s1).
  { destruct Hs1 as [(-> & _)|(-> & _)]; done. }
  destruct H1' as (Ht1 & Hal1 & Hini1).
  apply thread_schedule_tail_effect in Htail
    as (_ & _ & Hf & Hr & _ & _ & _ & _ & _ & Hoth).
  cbn [running set_running] in Hr, Hoth. rewrite Hr1 in *.
  destruct Hf as (Hall & _). cbn [all_list set_running] in Hall.
  split; [by rewrite Hr|]. split; [by rewrite Hall, Hal1|].
  specialize (Hoth (running s) (not_eq_sym Hne)).
  cbn [initial_thread set_running threads] in Hoth.
  rewrite Hini1, Hini in Hoth.
  unfold field in Hoth. cbn [threads set_running] in Hoth.
  rewrite Ht1, Hc1 in Hoth. cbn in Hoth.
  split.
  - intros Hni. rewrite Hoth, bool_decide_eq_true_2; [done|].
    split; [done|]. split; [|done].
    unfold is_thread in Hi. apply andb_prop in Hi as [Hz _].
    by apply negb_true_iff, Nat.eqb_neq in Hz.
  - intros Heq. unfold field. rewrite Hoth, bool_decide_eq_false_2; [done|].
    by intros (_ & _ & ? & _).
Qed.

Lemma thread_exit_frees_the_page_witness :
  outcome (thread_exit preempted_main) = Some preempted_main_exited /\
  running preempted_main = 3%nat /\ running preempted_main_exited = 1%nat /\
  threads preempted_main_exited !! 3%nat = None.
Proof.
  split; [vm_compute; reflexivity|]. split; [vm_compute; reflexivity|].
  split; [vm_compute; reflexivity|].
  destruct (thread_exit_frees_the_page preempted_main preempted_main_exited)
    as (_ & _ & _ & Hfree & _); [vm_compute; reflexivity|].
  apply Hfree. vm_compute. discriminate.
Defined.

Lemma push_ready_effect t s s1 :
  push_ready t s = Some s1 ->
  if thread_mlfqs s
  then exists th q,
         threads s !! t = Some th /\ band s (priority th) = Some q /\
         s1 = set_ready_queues
                (<[Z.to_nat (priority th) := q ++ [t]]> (ready_queues s)) s
  else s1 = set_ready_list (ready_list s ++ [t]) s.
Proof.
  unfold push_ready. destruct (thread_mlfqs s); cbn [negb].
  - destruct (threads s !! t) as [th|]; [|done]. cbn [mbind option_bind].
    destruct (band s (priority th)) as [q|] eqn:Eq; [|done].
    cbn [mbind option_bind]. intros [= <-]. by exists th, q.
  - by intros [= <-].
Qed.

Lemma thread_unblock_no_switch (t : nat) (s s' : kstate) :
  outcome (thread_unblock t s) = Some s' ->
  intr_ctx s = true \/
  (exists p pc, field priority t s = Some p /\
                field priority (running s) s = Some pc /\ p <= pc) ->
  exists th s1,
    threads s !! t = Some th /\
    push_ready t (set_intr_on false s) = Some s1 /\
    thread_unblock t s = Done s' /\
    s' = set_intr_on (intr_on s) (update t (set_status THREAD_READY) s1).
Proof.
  unfold thread_unblock. cbv zeta.
  destruct (is_thread s t); [|done]. cbn [kassert].
  destruct (threads s !! t) as [th|] eqn:Et; [|done]. cbn [fetch].
  destruct (_ || _); [|done]. cbn [kassert].
  match goal with
  | |- context [thread_current ?s0 ?k] =>
      destruct (thread_current_cases s0 k) as [->|(c & Hi & Hc & Hst & ->)];
        [done|]
  end.
  cbn [running set_intr_on threads] in *.
  destruct (push_ready t (set_intr_on false s)) as [s1|] eqn:Ep; [|done].
  cbn [fetch]. intros Hout Hcond.
  assert (Hno : (priority th >? priority c)
                && negb (intr_ctx (update t (set_status THREAD_READY) s1))
                = false).
  { assert (Hctx : intr_ctx s1 = intr_ctx s).
    { unfold push_ready in Ep. destruct (negb _); [by injection Ep as <-|].
      destruct (threads _ !! t); [|done]. cbn in Ep.
      destruct (band _ _); [|done]. by injection Ep as <-. }
    cbn [intr_ctx update set_threads]. rewrite Hctx.
    destruct Hcond as [->|(p & pc & Hp & Hpc & Hle)];
      [by rewrite andb_false_r|].
    unfold field in Hp, Hpc. rewrite Et in Hp. rewrite Hc in Hpc.
    injection Hp as <-. injection Hpc as <-.
    destruct (Z.gtb_spec (priority th) (priority c)); [lia|done]. }
  rewrite Hno in Hout |- *. cbn [bind outcome] in Hout |- *.
  injection Hout as <-. by exists th, s1.
Qed.

(** X12.  [thread_unblock] called from an interrupt handler, or for a
    thread whose priority is not above that of the running thread, does not
    switch: it returns with the same thread on the CPU and the interrupt
    level it was called with, and the thread it was called for is
    [THREAD_READY] at the back of the ready list, or of the band of its
    priority. *)
Theorem thread_unblock_without_preemption (t : nat) (s s' : kstate) :
  outcome (thread_unblock t s) = Some s' ->
  intr_ctx s = true \/
  (exists p pc, field priority t s = Some p /\
                field priority (running s) s = Some pc /\ p <= pc) ->
  thread_unblock t s = Done s' /\
  running s' = running s /\ intr_on s' = intr_on s /\
  field status t s' = Some THREAD_READY /\
  (thread_mlfqs s = false -> ready_list s' = ready_list s ++ [t]) /\
  (thread_mlfqs s = true ->
   exists p q, field priority t s = Some p /\ band s p = Some q /\
               band s' p = Some (q ++ [t])).
Proof.
  intros Hout Hcond.
  destruct (thread_unblock_no_switch t s s' Hout Hcond)
    as (th & s1 & Et & Ep & Hd & ->).
  split; [done|]. apply push_ready_effect in Ep.
  cbn [thread_mlfqs set_intr_on] in Ep.
  destruct (thread_mlfqs s) eqn:Hm.
  - destruct Ep as (th0 & q & Et0 & Eq & ->). cbn in Et0.
    rewrite Et in Et0. injection Et0 as <-.
    change (band (set_intr_on false s) (priority th))
      with (band s (priority th)) in Eq.
    split; [done|]. split; [done|]. split.
    { unfold field. cbn. by rewrite lookup_alter_eq, Et. }
    split; [done|]. intros _. exists (priority th), q.
    split; [unfold field; by rewrite Et|]. split; [done|].
    unfold band in Eq |- *. destruct (0 <=? priority th); [|done].
    cbn. apply list_lookup_insert_eq. by apply lookup_lt_Some in Eq.
  - subst s1. split; [done|]. split; [done|]. split.
    { unfold field. cbn. by rewrite lookup_alter_eq, Et. }
    split; [done|]. done.
Qed.

Lemma thread_unblock_without_preemption_witness :
  outcome (thread_unblock 1 (set_intr_ctx true (set_intr_on false main_blocked)))
    = Some main_unblocked /\
  running main_unblocked = 3%nat /\
  ready_list main_unblocked = [4; 1]%nat.
Proof.
  split; [vm_compute; reflexivity|].
  destruct (thread_unblock_without_preemption 1
              (set_intr_ctx true (set_intr_on false main_blocked))
              main_unblocked)
    as (_ & Hr & _ & _ & Hl & _).
  - vm_compute; reflexivity.
  - left. reflexivity.
  - split; [exact Hr|]. apply Hl. reflexivity.
Defined.

(** X13.  The operations that give up the CPU refuse to run in an interrupt
    handler: in interrupt context each of them stops on a failed
    [ASSERT]. *)
Theorem no_sleep_in_interrupt_context (ticks : Z) (s : kstate) :
  intr_ctx s = true ->
  thread_block s = Panic /\ thread_wait ticks s = Panic /\
  thread_yield s = Panic /\ thread_exit s = Panic.
Proof.
  intros Hctx. split; [|split; [|split]].
  - unfold thread_block. by rewrite Hctx.
  - unfold thread_wait.
    match goal with
    | |- context [thread_current ?s0 ?k] =>
        destruct (thread_current_cases s0 k) as [->|(c & Hi & Hc & Hst & ->)];
          [done|]
    end.
    by rewrite Hctx.
  - unfold thread_yield.
    match goal with
    | |- context [thread_current ?s0 ?k] =>
        destruct (thread_current_cases s0 k) as [->|(c & Hi & Hc & Hst & ->)];
          [done|]
    end.
    by rewrite Hctx.
  - unfold thread_exit. by rewrite Hctx.
Qed.

Lemma no_sleep_in_interrupt_context_witness :
  thread_block (set_intr_ctx true main_blocked) = Panic /\
  thread_wait 5 (set_intr_ctx true main_blocked) = Panic /\
  thread_yield (set_intr_ctx true main_blocked) = Panic /\
  thread_exit (set_intr_ctx true main_blocked) = Panic.
Proof.
  apply (no_sleep_in_interrupt_context 5 (set_intr_ctx true main_blocked)).
  reflexivity.
Defined.

Lemma priority_of_status_update s0 s cur v t :
  threads s0 = threads s ->
  priority_of (update cur (set_status v) s0) t = priority_of s t.
Proof.
  intros Ht. unfold priority_of, field, update. cbn. rewrite Ht.
  destruct (decide (cur = t)) as [->|Hne].
  - rewrite lookup_alter_eq. by destruct (threads s !! t).
  - by rewrite lookup_alter_ne.
Qed.

Lemma last_split_unique (l l1 l2 : list nat) (x m : nat) :
  l ++ [x] = l1 ++ m :: l2 -> x ∉ l ->
  (m = x /\ l1 = l /\ l2 = []) \/ (m <> x /\ m ∈ l /\ x ∈ l2).
Proof.
  intros Heq Hx.
  destruct l2 as [|y l2] using rev_ind.
  - apply app_inj_tail in Heq as [-> ->]. by left.
  - clear IHl2. right.
    replace (l1 ++ m :: l2 ++ [y]) with ((l1 ++ m :: l2) ++ [y]) in Heq
      by (by rewrite <- app_assoc).
    apply app_inj_tail in Heq as [-> ->].
    split; [|split].
    + intros ->. apply Hx. apply elem_of_app. right. by left.
    + apply elem_of_app. right. by left.
    + apply elem_of_app. right. by left.
Qed.

(** X14.  Round-robin mode.  A thread that yields goes to the back of the
    ready list, and it keeps the CPU exactly when every thread that was
    ready is of strictly lower priority: a ready thread of the same
    priority gets the CPU. *)
Theorem thread_yield_keeps_cpu_iff_highest (s s' : kstate) :
  thread_mlfqs s = false -> running s <> idle_thread s ->
  running s ∉ ready_list s ->
  Forall (fun t => is_Some (threads s !! t)) (ready_list s) ->
  outcome (thread_yield s) = Some s' ->
  (switched (thread_yield s) = false <->
   Forall (fun t => exists p pc, priority_of s t = Some p /\
                                 priority_of s (running s) = Some pc /\
                                 p < pc) (ready_list s)).
Proof.
  intros Hm Hidle Hnin Hall. unfold thread_yield.
  match goal with
  | |- context [thread_current ?s0 ?k] =>
      destruct (thread_current_cases s0 k) as [->|(c & Hi & Hc & Hst & ->)];
        [done|]
  end.
  destruct (intr_ctx s); [done|]. cbn [negb kassert]. cbv zeta.
  cbn [idle_thread set_intr_on].
  apply Nat.eqb_neq in Hidle. rewrite Hidle. cbn [negb].
  unfold push_ready. cbn [thread_mlfqs set_intr_on]. rewrite Hm.
  cbn [negb fetch ready_list set_intr_on].
  set (s2 := update _ _ _).
  assert (Hl2 : ready_list s2 = ready_list s ++ [running s]) by done.
  assert (Hr2 : running s2 = running s) by done.
  assert (Hm2 : thread_mlfqs s2 = false) by done.
  assert (Hp2 : forall t, priority_of s2 t = priority_of s t).
  { intros t. subst s2. by apply priority_of_status_update. }
  assert (Hall2 : Forall (fun t => is_Some (threads s2 !! t)) (ready_list s2)).
  { rewrite Hl2. apply Forall_app. split.
    - eapply Forall_impl; [exact Hall|]. intros t Ht. subst s2. cbn.
      by apply lookup_alter_is_Some.
    - constructor; [|done]. subst s2. cbn. apply lookup_alter_is_Some.
      by rewrite Hc. }
  clearbody s2. intros Hout.
  destruct (outcome_bind_Some _ _ _ Hout) as [s3 Hs3].
  destruct (schedule_effect s2 s3 Hs3)
    as (next & s1 & c0 & _ & Hnext & _ & _ & _ & _ & Hcase).
  destruct (next_thread_to_run_rr s2 (fun n _ => Done (set_running n s2)))
    as (m & pm & l1 & l2 & Hsplit & Hpm & H1 & H2 & Hmax);
    [done|rewrite Hl2; by destruct (ready_list s)|done|].
  rewrite Hnext in Hmax. injection Hmax as Hnm. subst m.
  rewrite Hl2 in Hsplit. rewrite Hr2 in Hcase.
  rewrite Hp2 in Hpm.
  destruct (last_split_unique _ _ _ _ _ Hsplit Hnin)
    as [(He & -> & ->)|(Hne & Hin & Hcur)].
  - destruct Hcase as [(Hne & _)|(_ & -> & _)]; [done|].
    cbn [bind switched]. split; [intros _|done].
    subst next. eapply Forall_impl; [exact H1|]. cbn.
    intros t (p & Hp & Hlt). rewrite Hp2 in Hp. by exists p, pm.
  - destruct Hcase as [(_ & -> & _)|(He & _)]; [|done].
    cbn [bind switched]. split; [done|]. intros Hlow. exfalso.
    rewrite Forall_forall in Hlow, H2.
    destruct (Hlow next Hin) as (p & pc & Hp & Hpc & Hlt).
    destruct (H2 (running s) Hcur) as (p' & Hp' & Hle).
    rewrite Hp2 in Hp'. rewrite Hpm in Hp. injection Hp as <-.
    rewrite Hpc in Hp'. injection Hp' as <-. lia.
Qed.

Lemma thread_yield_keeps_cpu_iff_highest_witness :
  outcome (thread_yield rr_two_ready) = Some rr_two_ready_yielded /\
  switched (thread_yield rr_two_ready) = false /\
  Forall (fun t => exists p pc,
            priority_of rr_two_ready t = Some p /\
            priority_of rr_two_ready (running rr_two_ready) = Some pc /\
            p < pc) (ready_list rr_two_ready).
Proof.
  split; [vm_compute; reflexivity|]. split; [vm_compute; reflexivity|].
  apply (thread_yield_keeps_cpu_iff_highest rr_two_ready rr_two_ready_yielded).
  - vm_compute; reflexivity.
  - vm_compute; discriminate.
  - apply (bool_decide_unpack _). vm_compute. exact I.
  - apply (bool_decide_unpack _). vm_compute. exact I.
  - vm_compute; reflexivity.
  - vm_compute; reflexivity.
Defined.

Local Transparent wrap32 wrap64 recalculate_priority next_recent_cpu next_load_avg.

(** ** Reading the statistics *)

Lemma convert_int_near_centuple x :
  centuple_fits x ->
  convert_int_near (mul_fp_int x 100) = round_to_nearest (100 * x).
Proof.
  unfold centuple_fits, convert_int_near, mul_fp_int, round_to_nearest, FP_F.
  intros Hx. change (2 ^ 14 `quot` 2) with 8192.
  replace (x * 100) with (100 * x) by lia.
  rewrite (wrap32_id (100 * x)) by (unfold int32; lia).
  destruct (0 <=? 100 * x); rewrite wrap32_id; try done; unfold int32; lia.
Qed.

(** X15.  As long as a hundred times the value fits an [int],
    [thread_get_load_avg] and [thread_get_recent_cpu] give a hundred times
    [load_avg], or the running thread's [recent_cpu], rounded to the
    nearest integer, that is, within half a unit of it; and
    [thread_get_load_avg] hands the machine back as it found it. *)
Theorem thread_get_load_avg_rounds (s : kstate) (c : thread) :
  running s <> 0%nat -> threads s !! running s = Some c ->
  status c = THREAD_RUNNING ->
  centuple_fits (load_avg s) -> centuple_fits (recent_cpu c) ->
  thread_get_load_avg s = (round_to_nearest (100 * load_avg s), s) /\
  2 * Z.abs ((thread_get_load_avg s).1 * FP_F - 100 * load_avg s) <= FP_F /\
  thread_get_recent_cpu s = Some (round_to_nearest (100 * recent_cpu c)) /\
  2 * Z.abs (round_to_nearest (100 * recent_cpu c) * FP_F
             - 100 * recent_cpu c) <= FP_F.
Proof.
  intros H0 Hc Hst Hl Hr.
  assert (H1 : thread_get_load_avg s = (round_to_nearest (100 * load_avg s), s)).
  { unfold thread_get_load_avg. cbv zeta. cbn [load_avg set_intr_on].
    rewrite convert_int_near_centuple by done. by destruct s. }
  split; [done|]. rewrite H1. cbn [fst].
  split; [apply round_to_nearest_close|].
  split; [|apply round_to_nearest_close].
  unfold thread_get_recent_cpu, is_thread. cbv zeta.
  apply Nat.eqb_neq in H0. rewrite H0, Hc. cbn [negb andb].
  rewrite bool_decide_eq_true_2 by (by eexists). cbn [mbind option_bind].
  rewrite bool_decide_eq_true_2 by done.
  by rewrite convert_int_near_centuple.
Qed.

Lemma thread_get_load_avg_rounds_witness :
  load_avg main_with_peer_ticked = 546 /\
  (thread_get_load_avg main_with_peer_ticked).1 = 3 /\
  thread_get_recent_cpu main_with_peer_ticked = Some 6 /\
  2 * Z.abs ((thread_get_load_avg main_with_peer_ticked).1 * FP_F
             - 100 * load_avg main_with_peer_ticked) <= FP_F.
Proof.
  split; [vm_compute; reflexivity|]. split; [vm_compute; reflexivity|].
  split; [vm_compute; reflexivity|].
  apply (thread_get_load_avg_rounds main_with_peer_ticked
           (mkThread 1 THREAD_RUNNING "main" 63 63 0 1023 0 0 1)).
  - vm_compute; discriminate.
  - vm_compute; reflexivity.
  - reflexivity.
  - vm_compute. split; [discriminate|reflexivity].
  - vm_compute. split; [discriminate|reflexivity].
Defined.

(** X16.  The fixed-point update of the load average never leaves the range
    it is meant for: from a value between [0] and [cap] (as a fixed-point
    number), and a count of ready threads of at most [cap], it gives a value
    between [0] and [cap] again. *)
Theorem next_load_avg_stays_in_range (la n cap : Z) :
  0 <= n <= cap -> cap < 2 ^ 16 -> 0 <= la <= cap * FP_F ->
  0 <= next_load_avg la n <= cap * FP_F.
Proof.
  intros Hn Hcap Hla. unfold FP_F in *.
  rewrite next_load_avg_value by lia.
  change (2 ^ 14) with 16384 in *.
  Z.to_euclidean_division_equations. lia.
Qed.

Lemma next_load_avg_stays_in_range_witness :
  next_load_avg 546 2 = 1082 /\ 0 <= next_load_avg 546 2 <= 2 * FP_F.
Proof.
  split; [vm_compute; reflexivity|].
  apply (next_load_avg_stays_in_range 546 2 2); vm_compute;
    first [reflexivity | split; discriminate].
Defined.

Local Transparent wrap32 wrap64 recalculate_priority next_recent_cpu next_load_avg.

(** ** Priorities after a tick *)

Lemma recalculate_priority_ext a b :
  recent_cpu a = recent_cpu b -> nice a = nice b ->
  recalculate_priority a = recalculate_priority b.
Proof. unfold recalculate_priority. by intros -> ->. Qed.

Local Opaque wrap32 wrap64 recalculate_priority next_recent_cpu next_load_avg.

Lemma wake_scan_keeps {A} (g : thread -> A) cur l :
  (forall v x, g (set_ticks_wait v x) = g x) ->
  (forall v x, g (set_status v x) = g x) ->
  forall s b s' b',
    wake_scan cur l (s, b) = Some (s', b') ->
    forall t, g <$> threads s' !! t = g <$> threads s !! t.
Proof.
  intros Hg1 Hg2.
  induction l as [|e l IH]; intros s b s' b' Hrun; cbn [wake_scan] in Hrun.
  - by injection Hrun as <- <-.
  - destruct (threads s !! e) as [th|] eqn:E; cbn [mbind option_bind] in Hrun;
      [|done].
    assert (Hupd : forall f t, (forall x, g (f x) = g x) ->
              forall m : gmap nat thread,
              g <$> alter f e m !! t = g <$> m !! t).
    { intros f t Hf m. destruct (decide (e = t)) as [->|].
      - rewrite lookup_alter_eq. destruct (m !! t); cbn; [|done]. by rewrite Hf.
      - by rewrite lookup_alter_ne. }
    cbn [threads update set_threads] in Hrun.
    rewrite lookup_alter_eq, E in Hrun. cbn in Hrun.
    destruct (wrap64 (ticks_wait th - 1) =? 0).
    + destruct (push_ready e _) as [s2|] eqn:P; cbn in Hrun; [|done].
      apply push_ready_frame in P as [Pt Pl]. cbn in Pt, Pl.
      destruct (alter _ e (threads s2) !! cur) as [c|]; cbn in Hrun; [|done].
      injection Hrun as <- <-. cbn.
      intros t. rewrite Hupd by (intros; apply Hg2). rewrite Pt.
      by rewrite Hupd by (intros; apply Hg1).
    + specialize (IH _ _ _ _ Hrun). cbn in IH.
      intros t. rewrite IH. by rewrite Hupd by (intros; apply Hg1).
Qed.

Lemma age_ready_spec l : NoDup l -> forall s s',
  age_ready l s = Some s' ->
  forall t, field priority t s'
            = (fun p => if bool_decide (t ∈ l /\ p < PRI_MAX)
                        then p + 1 else p) <$> field priority t s.
Proof.
  induction 1 as [|e l He Hl IH]; intros s s' Hrun t; cbn [age_ready] in Hrun.
  - injection Hrun as <-. unfold field.
    destruct (threads s !! t) as [th|]; cbn; [|done].
    rewrite bool_decide_eq_false_2; [done|]. intros [Hin _]. inversion Hin.
  - destruct (threads s !! e) as [th|] eqn:E; [|done].
    cbn [mbind option_bind] in Hrun.
    rewrite (IH _ _ Hrun t). unfold field.
    destruct (decide (t = e)) as [->|Hne].
    + rewrite E. cbn [fmap option_fmap option_map].
      destruct (Z.ltb_spec (priority th) PRI_MAX) as [Hlt|Hge].
      * cbn. rewrite lookup_alter_eq, E. cbn.
        rewrite bool_decide_eq_false_2 by (by intros [? _]).
        rewrite bool_decide_eq_true_2; [done|]. split; [by left|done].
      * rewrite E. cbn.
        rewrite bool_decide_eq_false_2 by (by intros [? _]).
        rewrite bool_decide_eq_false_2; [done|]. intros [_ ?]. lia.
    + assert (Hsame : threads (if priority th <? PRI_MAX
                       then update e (set_priority (priority th + 1)) s
                       else s) !! t = threads s !! t).
      { destruct (_ <? _); [|done]. cbn. by rewrite lookup_alter_ne. }
      rewrite Hsame. destruct (threads s !! t) as [tt|]; cbn; [|done].
      rewrite (bool_decide_ext (t ∈ e :: l /\ priority tt < PRI_MAX)
                 (t ∈ l /\ priority tt < PRI_MAX)); [done|].
      rewrite elem_of_cons. tauto.
Qed.

Lemma field_update_ne {A} (g : thread -> A) t e f s :
  t <> e -> field g t (update e f s) = field g t s.
Proof. intros Hne. unfold field. cbn. by rewrite lookup_alter_ne. Qed.

(** X17.  Round-robin mode.  The tick handler changes priorities by aging
    only: on every tick that brings [total_ticks] to a multiple of
    [4 * TIME_SLICE], each thread of the ready list that is below [PRI_MAX]
    goes up by one; every other priority, on every tick, stays as it
    was. *)
Theorem thread_tick_ages_ready_threads (ticks : Z) (s s' : kstate) :
  thread_mlfqs s = false -> NoDup (ready_list s) ->
  outcome (thread_tick ticks s) = Some s' ->
  forall t p,
    field priority t s = Some p ->
    field priority t s'
      = Some (if bool_decide ((total_ticks s + 1) `rem` (TIME_SLICE * 4) = 0 /\
                              t ∈ ready_list s /\ p < PRI_MAX)
              then p + 1 else p).
Proof.
  intros Hm Hnd. unfold thread_tick.
  match goal with
  | |- context [thread_current ?s0 ?k] =>
      destruct (thread_current_cases s0 k) as [->|(c & Hi & Hc & Hst & ->)];
        [done|]
  end.
  cbv zeta.
  set (sa := if (running s =? idle_thread s)%nat then _ else _).
  assert (Ha : threads sa = threads s /\ ready_list sa = ready_list s /\
               total_ticks sa = total_ticks s /\ thread_mlfqs sa = false).
  { subst sa. by destruct (_ =? _)%nat. }
  destruct Ha as (Hta & Hra & Htt & Hma). clearbody sa.
  rewrite Hma.
  destruct (rr_tick sa) as [sb|] eqn:Eb; cbn [mbind option_bind fetch]; [|done].
  destruct (if negb (list_empty (waiting_list sb)) then _ else _)
    as [[sc sup]|] eqn:Ec; [|done].
  cbn [fetch outcome]. intros [= <-] t p Hp.
  match goal with
  | |- field _ _ ?st = ?rhs =>
      change (field priority t st) with (priority <$> threads st !! t);
      replace (threads st) with (threads sc) by (by destruct (_ || _))
  end.
  change (priority <$> threads sc !! t) with (field priority t sc).
  assert (Hw : field priority t sc = field priority t sb).
  { destruct (negb _).
    - by apply (wake_scan_keeps priority _ _ ltac:(done) ltac:(done) _ _ _ _ Ec).
    - by injection Ec as <- _. }
  rewrite Hw. unfold rr_tick in Eb. cbv zeta in Eb.
  cbn [total_ticks set_total_ticks ready_list] in Eb. rewrite Htt, Hra in Eb.
  destruct (Z.eqb_spec ((total_ticks s + 1) `rem` (TIME_SLICE * 4)) 0)
    as [He|Hne].
  - rewrite (age_ready_spec _ Hnd _ _ Eb t).
    change (field priority t (set_total_ticks (total_ticks s + 1) sa))
      with (priority <$> threads sa !! t).
    rewrite Hta. unfold field in Hp. rewrite Hp. cbn. f_equal.
    rewrite (bool_decide_ext (t ∈ ready_list s /\ p < PRI_MAX)
               ((total_ticks s + 1) `rem` (TIME_SLICE * 4) = 0 /\
                t ∈ ready_list s /\ p < PRI_MAX)); [done|]. tauto.
  - injection Eb as <-.
    change (field priority t (set_total_ticks (total_ticks s + 1) sa))
      with (priority <$> threads sa !! t).
    rewrite Hta. unfold field in Hp. rewrite Hp. cbn. f_equal.
    rewrite bool_decide_eq_false_2; [done|]. by intros [? _].
Qed.

Lemma thread_tick_ages_ready_threads_witness :
  outcome (thread_tick 16 rr_before_aging) = Some rr_aged /\
  field priority 3 rr_before_aging = Some 20 /\
  field priority 3 rr_aged = Some 21.
Proof.
  split; [vm_compute; reflexivity|]. split; [vm_compute; reflexivity|].
  rewrite (thread_tick_ages_ready_threads 16 rr_before_aging rr_aged
             ltac:(vm_compute; reflexivity)
             ltac:(apply (bool_decide_unpack _); vm_compute; exact I)
             ltac:(vm_compute; reflexivity)
             3%nat 20 ltac:(vm_compute; reflexivity)).
  vm_compute; reflexivity.
Defined.

Local Transparent recalculate_priority.
Lemma recalculate_priority_set_priority v x :
  recalculate_priority (set_priority v x) = recalculate_priority x.
Proof. reflexivity. Qed.
Local Opaque recalculate_priority.

Lemma recompute_priority ticks cur e s b s' b' th :
  recompute ticks cur e (s, b) = Some (s', b') ->
  threads s !! e = Some th -> status th <> THREAD_NASCENT ->
  exists th', threads s' !! e = Some th' /\
              priority th' = recalculate_priority th'.
Proof.
  unfold recompute. intros Hrun E N. rewrite E in Hrun. cbn in Hrun.
  rewrite bool_decide_eq_false_2 in Hrun by done. cbn in Hrun.
  revert Hrun.
  destruct (ticks `rem` TIMER_FREQ =? 0) eqn:T; cbn;
    rewrite ?lookup_alter_eq, ?E; cbn;
    rewrite ?lookup_alter_eq, ?E; cbn.
  all: destruct (_ && _); cbn.
  all: repeat match goal with
       | |- context [band ?s ?i ≫= _] =>
           destruct (band s i); cbn [mbind option_bind]; [|done]
       | |- context [(?m !! ?c) ≫= _] =>
           destruct (m !! c); cbn [mbind option_bind]; [|done]
       end.
  all: intros [= <- <-].
  all: cbn [threads update set_threads set_ready_queues list_remove_elem
            set_ready_list set_waiting_list].
  all: rewrite ?lookup_alter_eq, ?E; cbn [fmap option_fmap option_map].
  all: eexists; split; [reflexivity|].
  all: cbn [priority set_priority].
  all: by rewrite recalculate_priority_set_priority.
Qed.

Lemma pass_frame ticks cur l : forall s b s' b',
  list_foreach l (recompute ticks cur) (s, b) = Some (s', b') ->
  forall t, t ∉ l -> threads s' !! t = threads s !! t.
Proof.
  induction l as [|e l IH]; intros s b s' b' Hrun t Ht;
    cbn [list_foreach] in Hrun.
  - by injection Hrun as <- <-.
  - destruct (recompute ticks cur e (s, b)) as [[s1 b1]|] eqn:E1; [|done].
    cbn [mbind option_bind] in Hrun.
    apply not_elem_of_cons in Ht as [Hte Htl].
    rewrite (IH _ _ _ _ Hrun t Htl).
    by apply (recompute_spec _ _ _ _ _ _ _ E1).
Qed.

Lemma pass_priorities ticks cur l : forall s b s' b',
  list_foreach l (recompute ticks cur) (s, b) = Some (s', b') ->
  forall t th, t ∈ l -> threads s !! t = Some th ->
               status th <> THREAD_NASCENT ->
  exists th', threads s' !! t = Some th' /\
              priority th' = recalculate_priority th'.
Proof.
  induction l as [|e l IH]; intros s b s' b' Hrun t th Ht Hth N;
    cbn [list_foreach] in Hrun; [inversion Ht|].
  destruct (recompute ticks cur e (s, b)) as [[s1 b1]|] eqn:E1; [|done].
  cbn [mbind option_bind] in Hrun.
  destruct (recompute_spec _ _ _ _ _ _ _ E1)
    as (_ & _ & Hoth1 & the & the1 & Hthe & Hthe1 & _ & Hs1 & _).
  destruct (decide (t ∈ l)) as [Hin|Hnin].
  - destruct (decide (t = e)) as [->|Hne].
    + apply (IH _ _ _ _ Hrun e the1 Hin Hthe1). congruence.
    + apply (IH _ _ _ _ Hrun t th Hin); [|done]. by rewrite Hoth1.
  - apply elem_of_cons in Ht as [->|Ht]; [|done].
    rewrite (pass_frame _ _ _ _ _ _ _ Hrun e Hnin).
    apply (recompute_priority _ _ _ _ _ _ _ _ E1 Hth N).
Qed.

(** X18.  Feedback queue mode.  Once a tick that is a multiple of four has
    been handled, every thread of [all_list] past [THREAD_NASCENT] holds the
    priority that [recalculate_priority] gives for its [recent_cpu] and
    [nice], a value from [PRI_MIN] to [PRI_MAX], whatever it held before. *)
Theorem thread_tick_recalculates_priorities (ticks : Z) (s s' : kstate) :
  thread_mlfqs s = true -> ticks `rem` 4 = 0 ->
  outcome (thread_tick ticks s) = Some s' ->
  forall t th,
    t ∈ all_list s -> threads s !! t = Some th ->
    status th <> THREAD_NASCENT ->
    exists th', threads s' !! t = Some th' /\
                priority th' = recalculate_priority th' /\
                PRI_MIN <= priority th' <= PRI_MAX.
Proof.
  intros Hm H4. unfold thread_tick.
  match goal with
  | |- context [thread_current ?s0 ?k] =>
      destruct (thread_current_cases s0 k) as [->|(c & Hi & Hc & Hst & ->)];
        [done|]
  end.
  cbv zeta.
  set (sa := if (running s =? idle_thread s)%nat then _ else _).
  assert (Ha : threads sa = threads s /\ all_list sa = all_list s /\
               thread_mlfqs sa = true /\ idle_thread sa = idle_thread s).
  { subst sa. by destruct (_ =? _)%nat. }
  destruct Ha as (Hta & Hla & Hma & Hia). clearbody sa.
  rewrite Hma.
  destruct (mlfqs_tick ticks (running s) sa) as [[sb sup]|] eqn:Eb;
    cbn [fetch]; [|done].
  destruct (if negb (list_empty (waiting_list sb)) then _ else _)
    as [[sc sup']|] eqn:Ec; [|done].
  cbn [fetch outcome]. intros [= <-] t th Hin Hth N.
  assert (Hb : exists thb, threads sb !! t = Some thb /\
                           priority thb = recalculate_priority thb).
  { unfold mlfqs_tick in Eb. cbv zeta in Eb.
    apply Z.eqb_eq in H4. rewrite H4 in Eb.
    set (s0 := if negb (running s =? idle_thread sa)%nat then _ else sa) in Eb.
    assert (H0 : all_list s0 = all_list s /\
                 exists th0, threads s0 !! t = Some th0 /\
                             status th0 = status th).
    { subst s0. destruct (negb _); [|by rewrite Hta, Hla; eauto].
      split; [done|]. cbn. rewrite Hta.
      destruct (decide (running s = t)) as [<-|Hne].
      - rewrite lookup_alter_eq, Hth. cbn. eauto.
      - rewrite lookup_alter_ne by done. eauto. }
    destruct H0 as (Hl0 & th0 & Hth0 & Hst0). clearbody s0.
    destruct (ticks `rem` TIMER_FREQ =? 0).
    - destruct (count_ready s0 (all_list s0) 0) as [rt|];
        cbn [mbind option_bind] in Eb; [|done].
      cbn [all_list set_load_avg] in Eb.
      apply (pass_priorities _ _ _ _ _ _ _ Eb t th0); [by rewrite Hl0|done|].
      congruence.
    - cbn [mbind option_bind] in Eb.
      apply (pass_priorities _ _ _ _ _ _ _ Eb t th0); [by rewrite Hl0|done|].
      congruence. }
  destruct Hb as (thb & Hthb & Hpb).
  assert (Hw : (fun x => (priority x, recent_cpu x, nice x)) <$> threads sc !! t
               = (fun x => (priority x, recent_cpu x, nice x)) <$> threads sb !! t).
  { destruct (negb _).
    - apply (wake_scan_keeps (fun x => (priority x, recent_cpu x, nice x))
               (running s) (waiting_list sb)
               ltac:(done) ltac:(done) _ _ _ _ Ec).
    - by injection Ec as <- _. }
  rewrite Hthb in Hw.
  match goal with
  | |- exists th', threads ?st !! t = _ /\ _ =>
      replace (threads st) with (threads sc) by (by destruct (_ || _))
  end.
  destruct (threads sc !! t) as [thc|]; [|done].
  cbn in Hw. injection Hw as Hp Hr Hn.
  exists thc. split; [done|].
  assert (Hpc : priority thc = recalculate_priority thc).
  { rewrite Hp, Hpb. by apply recalculate_priority_ext. }
  split; [done|]. rewrite Hpc. apply recalculate_priority_range.
Qed.

Lemma thread_tick_recalculates_priorities_witness :
  outcome (thread_tick 4 main_with_peer) = Some main_with_peer_ticked_4 /\
  field priority 1 main_with_peer_ticked_4 = Some 63 /\
  exists th', threads main_with_peer_ticked_4 !! 1%nat = Some th' /\
              priority th' = recalculate_priority th' /\
              PRI_MIN <= priority th' <= PRI_MAX.
Proof.
  split; [vm_compute; reflexivity|]. split; [vm_compute; reflexivity|].
  apply (thread_tick_recalculates_priorities 4 main_with_peer
           main_with_peer_ticked_4) with
    (th := mkThread 1 THREAD_RUNNING "main" 63 63 0 0 0 0 1).
  - vm_compute; reflexivity.
  - vm_compute; reflexivity.
  - vm_compute; reflexivity.
  - apply (bool_decide_unpack _). vm_compute. exact I.
  - vm_compute; reflexivity.
  - discriminate.
Defined.

Local Transparent wrap32 wrap64 recalculate_priority next_recent_cpu next_load_avg.

(** ** Creating threads and setting priorities *)

Lemma recalculate_priority_fresh th :
  recent_cpu th = 0 -> nice th = 0 -> recalculate_priority th = PRI_MAX.
Proof.
  intros Hr Hn.
  rewrite (recalculate_priority_ext th (mkThread 0 THREAD_NASCENT "" 0 0 0 0 0 0 0))
    by done.
  vm_compute. reflexivity.
Qed.

Local Opaque wrap32 wrap64 recalculate_priority next_recent_cpu next_load_avg.

(** X19.  Feedback queue mode.  A thread that is not named "main" starts
    with the [nice] and the [recent_cpu] of the thread that creates it, and,
    unless it is named "idle", with the priority recalculated from them
    rather than the one asked for; it is [THREAD_NASCENT], its parent is the
    creator, it is appended to [all_list], and no other record changes. *)
Theorem init_thread_inherits_from_creator
    (t : nat) (nm : string) (p : Z) (s s' : kstate) :
  thread_mlfqs s = true -> strlcpy_name nm <> "main" ->
  outcome (init_thread t nm p s) = Some s' ->
  exists c th',
    threads s !! running s = Some c /\ threads s' !! t = Some th' /\
    nice th' = nice c /\ recent_cpu th' = recent_cpu c /\
    parent th' = running s /\ status th' = THREAD_NASCENT /\
    priority th' = (if String.eqb nm "idle" then p
                    else recalculate_priority th') /\
    priority_orig th' = priority th' /\
    all_list s' = all_list s ++ [t] /\
    forall u, u <> t -> threads s' !! u = threads s !! u.
Proof.
  intros Hm Hmain Hout.
  destruct (init_thread_effect _ _ _ _ _ Hout)
    as (th' & _ & -> & _ & _ & _ & Hst & _ & _ & _ & Horig & _ & Hnot & _ & Hpr).
  apply String.eqb_neq in Hmain.
  destruct (Hnot Hmain) as (Hpar & _ & c & Hc & _ & Hinh).
  destruct (Hinh Hm) as [Hn Hr].
  exists c, th'. split; [done|]. cbn. rewrite lookup_insert_eq.
  do 7 (split; [auto|]). split; [done|].
  intros u Hu. by rewrite lookup_insert_ne.
Qed.

Lemma init_thread_inherits_from_creator_witness :
  outcome (init_thread 5 "worker" 10 nice_main_with_peer)
    = Some nice_main_child /\
  exists c th',
    threads nice_main_with_peer !! 1%nat = Some c /\
    threads nice_main_child !! 5%nat = Some th' /\
    nice c = 5 /\ nice th' = nice c.
Proof.
  split; [vm_compute; reflexivity|].
  destruct (init_thread_inherits_from_creator 5 "worker" 10
              nice_main_with_peer nice_main_child)
    as (c & th' & Hc & Hth & Hn & _).
  - vm_compute; reflexivity.
  - vm_compute; discriminate.
  - vm_compute; reflexivity.
  - exists c, th'. split; [exact Hc|]. split; [exact Hth|].
    split; [|exact Hn].
    assert (Hc' : threads nice_main_with_peer !! 1%nat
                  = Some (mkThread 1 THREAD_RUNNING "main" 63 63 5 0 0 0 1))
      by (vm_compute; reflexivity).
    change (running nice_main_with_peer) with 1%nat in Hc.
    rewrite Hc' in Hc. by injection Hc as <-.
Defined.

(** X20.  [thread_init] needs interrupts off.  It turns the running code
    into the thread "main": the only thread of [all_list], with the first
    tid, [THREAD_RUNNING], its own parent, at [PRI_DEFAULT] in round-robin
    mode and at [PRI_MAX] in feedback queue mode; the ready and waiting
    lists are empty, the sixty-four bands are set up in feedback queue mode,
    and [load_avg] is zero. *)
Theorem thread_init_installs_main (s s' : kstate) :
  outcome (thread_init s) = Some s' ->
  intr_on s = false /\ running s <> 0%nat /\
  thread_init s = Done s' /\
  running s' = running s /\ initial_thread s' = running s /\
  all_list s' = [running s] /\ ready_list s' = [] /\ waiting_list s' = [] /\
  load_avg s' = 0 /\
  (thread_mlfqs s = true -> ready_queues s' = replicate 64 []) /\
  exists th,
    threads s' !! running s = Some th /\
    status th = THREAD_RUNNING /\ name th = "main" /\
    tid th = next_tid s /\ parent th = running s /\
    nice th = 0 /\ recent_cpu th = 0 /\
    priority th = (if thread_mlfqs s then PRI_MAX else PRI_DEFAULT) /\
    priority_orig th = priority th.
Proof.
  unfold thread_init. cbv zeta.
  destruct (intr_on s) eqn:Hi; [done|]. cbn [negb kassert].
  set (sx := set_initial_thread _ _).
  assert (Hx : initial_thread sx = running s /\ running sx = running s /\
               all_list sx = [] /\ thread_mlfqs sx = thread_mlfqs s /\
               next_tid sx = next_tid s /\ ready_list sx = [] /\
               waiting_list sx = [] /\ load_avg sx = 0 /\
               (thread_mlfqs s = true -> ready_queues sx = replicate 64 [])).
  { subst sx. cbn. destruct (thread_mlfqs s) eqn:Hm; split_and!; try done. }
  destruct Hx as (Hix & Hrx & Hax & Hmx & Hnx & Hrlx & Hwx & Hlx & Hqx).
  clearbody sx. rewrite Hix. intros Hout.
  destruct (outcome_bind_Some _ _ _ Hout) as [s1 Hs1].
  destruct (init_thread_effect _ _ _ _ _ Hs1)
    as (th' & Hr & Heq & H0 & _ & Htid & Hst & Hname & _ & _ & Horig
        & Hmain & _ & Hrr & Hfq).
  rewrite Hr in Hout |- *. cbn [bind] in Hout |- *.
  unfold allocate_tid in Hout |- *. cbn [outcome] in Hout.
  apply (inj Some) in Hout. subst s'.
  destruct (Hmain eq_refl) as (Hpar & Hn & Hrc).
  subst s1. cbn. rewrite Hax, Hnx, Hix, Hrx.
  do 9 (split; [done|]). split; [done|].
  rewrite !lookup_alter_eq, lookup_insert_eq. cbn.
  eexists. split; [reflexivity|]. cbn.
  do 6 (split; [done|]). split; [|done].
  rewrite Hmx in Hrr, Hfq. destruct (thread_mlfqs s).
  - rewrite Hfq by done. cbn. by apply recalculate_priority_fresh.
  - by destruct Hrr.
Qed.

Lemma thread_init_installs_main_witness :
  outcome (thread_init (boot true 1)) = Some booted_main /\
  all_list booted_main = [1%nat] /\
  field priority 1 booted_main = Some 63.
Proof.
  split; [vm_compute; reflexivity|].
  destruct (thread_init_installs_main (boot true 1) booted_main)
    as (_ & _ & _ & _ & _ & Hall & _ & _ & _ & _ & th & Hth & _ & _ & _ & _ & _ & _ & Hp & _).
  - vm_compute; reflexivity.
  - split; [exact Hall|]. unfold field.
    change (running (boot true 1)) with 1%nat in Hth. rewrite Hth. cbn.
    by rewrite Hp.
Defined.



(** What a call that may switch leaves of the calling thread [cur], when
    the state before the call to [schedule] is [s2]. *)
Lemma schedule_keeps_caller s2 s3 c :
  outcome (schedule s2) = Some s3 ->
  threads s2 !! running s2 = Some c -> status c <> THREAD_DYING ->
  all_list s3 = all_list s2 /\ next_tid s3 = next_tid s2 /\
  thread_mlfqs s3 = thread_mlfqs s2 /\ intr_on s3 = false /\
  intr_ctx s3 = intr_ctx s2 /\
  (forall t, t <> running s3 -> threads s3 !! t = threads s2 !! t) /\
  (exists n n', threads s2 !! running s3 = Some n /\
                threads s3 !! running s3 = Some n' /\
                same_identity n' n /\ status n' = THREAD_RUNNING /\
                priority n'
                  = (if (num_lock_donors n =? 0) && negb (thread_mlfqs s2)
                     then priority_orig n else priority n)) /\
  ((running s3 <> running s2 /\ schedule s2 = Resched s3 Done) \/
   (running s3 = running s2 /\ schedule s2 = Done s3)).
Proof.
  intros Hout Hc Hdy.
  destruct (schedule_effect s2 s3 Hout)
    as (next & s1 & c0 & Hs1 & _ & Hi & Hc0 & _ & _ & Hcase).
  assert (H1 : threads s1 = threads s2 /\ all_list s1 = all_list s2 /\
               next_tid s1 = next_tid s2 /\ thread_mlfqs s1 = thread_mlfqs s2 /\
               intr_ctx s1 = intr_ctx s2 /\ running s1 = running s2 /\
               initial_thread s1 = initial_thread s2 /\
               intr_on s1 = false).
  { destruct Hs1 as [(-> & _)|(-> & _)]; done. }
  destruct H1 as (Ht1 & Ha1 & Hn1 & Hm1 & Hx1 & Hr1 & Hini1 & Hio1).
  destruct Hcase as [(Hne & Hsw & Htail)|(He & Hsw & Htail)];
    apply thread_schedule_tail_effect in Htail
      as (_ & _ & Hf & Hr & _ & _ & _ & _
          & (n & n' & Hn & Hn' & Hst' & Hpr & Hsame) & Hoth);
    destruct Hf as (Hal & _ & _ & _ & _ & _ & _ & Hmf & Hnt & Hion & Hictx & _).
  - cbn [running set_running threads all_list next_tid thread_mlfqs intr_on
         intr_ctx initial_thread] in *.
    rewrite Hr, Hal, Hnt, Hmf, Hion, Hictx, Ha1, Hn1, Hm1, Hx1, Hio1.
    do 5 (split; [done|]). split; [|split].
    + intros t Ht. rewrite (Hoth t Ht), Ht1.
      rewrite bool_decide_eq_false_2; [done|].
      intros (-> & _ & _ & Hd). unfold field in Hd.
      cbn [threads set_running] in Hd. rewrite Ht1, Hc in Hd. cbn in Hd.
      congruence.
    + exists n, n'. rewrite <- Ht1. rewrite Hm1 in Hpr. done.
    + left. done.
  - cbn [running set_running threads all_list next_tid thread_mlfqs intr_on
         intr_ctx initial_thread] in *.
    rewrite Hr, Hal, Hnt, Hmf, Hion, Hictx, Ha1, Hn1, Hm1, Hx1, Hr1, Hio1.
    do 5 (split; [done|]). rewrite Hr1 in *. split; [|split].
    + intros t Ht. rewrite (Hoth t Ht), Ht1.
      rewrite bool_decide_eq_false_2; [done|]. intros (-> & Hz & _). by apply Hz.
    + exists n, n'. rewrite <- Ht1. rewrite Hm1 in Hpr. done.
    + right. done.
Qed.







Local Transparent wrap32 wrap64 recalculate_priority next_recent_cpu next_load_avg.

(** ** The boot sequence and sleeping *)

Local Opaque wrap32 wrap64 recalculate_priority next_recent_cpu next_load_avg.

Lemma list_remove_absent (x : nat) (l : list nat) :
  x ∉ l -> list_remove x l = l.
Proof.
  intros Hx. unfold list_remove.
  induction l as [|y l IH]; [done|].
  apply not_elem_of_cons in Hx as [Hxy Hl].
  rewrite filter_cons, decide_True by done. by rewrite IH.
Qed.

Lemma list_remove_last (x : nat) (l : list nat) :
  x ∉ l -> list_remove x (l ++ [x]) = l.
Proof.
  intros Hx. unfold list_remove. rewrite filter_app.
  fold (list_remove x l). rewrite list_remove_absent by done.
  rewrite filter_cons, decide_False by (by intros ?). cbn.
  by rewrite app_nil_r.
Qed.

(** X23.  [thread_start] from its entry to [intr_enable ()] at line 153,
    called while nothing is ready and the running thread is not below
    [PRI_MIN]: by then it has created the idle thread at [PRI_MIN] without
    giving it the CPU, recorded it in [idle_thread], taken it off the ready
    structure and off [all_list] again, and turned interrupts on.  This is
    the state in which the caller goes on to wait for the idle thread
    ([sema_down], line 157), not the state in which [thread_start] returns:
    by then the idle thread has run. *)
Theorem thread_start_sets_idle_aside (page : nat) (s s' : kstate) :
  outcome (thread_start page s) = Some s' ->
  page <> 0%nat -> page ∉ all_list s ->
  (if thread_mlfqs s then band s PRI_MIN = Some [] else ready_list s = []) ->
  (forall c, threads s !! running s = Some c -> PRI_MIN <= priority c) ->
  thread_start page s = Done s' /\
  idle_thread s' = page /\ running s' = running s /\ intr_on s' = true /\
  all_list s' = all_list s /\
  (if thread_mlfqs s then band s' PRI_MIN = Some [] else ready_list s' = []) /\
  field status page s' = Some THREAD_READY /\
  field priority page s' = Some PRI_MIN /\
  field name page s' = Some "idle".
Proof.
  intros Hout H0 Hnin Hempty Hprio.
  unfold thread_start in Hout |- *.
  destruct (outcome_bind_Some _ _ _ Hout) as [s1 Hs1].
  unfold thread_create in Hs1, Hout |- *. cbv zeta in Hs1, Hout |- *.
  apply Nat.eqb_neq in H0. rewrite H0 in Hs1, Hout |- *.
  destruct (outcome_bind_Some _ _ _ Hs1) as [si Hsi].
  destruct (init_thread_effect _ _ _ _ _ Hsi)
    as (th & Hr & Heq & _ & _ & _ & Hst & Hname & _ & _ & _
        & _ & Hnot & Hrr & Hfq).
  destruct (Hnot eq_refl) as (_ & Hne & c & Hc & _ & _).
  assert (Hpth : priority th = PRI_MIN).
  { destruct (thread_mlfqs s) eqn:Hm; [by rewrite Hfq|by destruct Hrr]. }
  rewrite Hr in Hs1, Hout |- *. cbn [bind] in Hs1, Hout |- *.
  unfold allocate_tid in Hs1, Hout |- *.
  set (s2 := update page _ _) in Hs1, Hout |- *.
  assert (Ht2 : threads s2 !! page = Some (set_tid (next_tid s) th)).
  { subst s2 si. cbn. by rewrite lookup_alter_eq, lookup_insert_eq. }
  assert (Hc2 : threads s2 !! running s = Some c).
  { subst s2 si. cbn. by rewrite lookup_alter_ne, lookup_insert_ne. }
  assert (H2 : running s2 = running s /\ all_list s2 = all_list s ++ [page] /\
               thread_mlfqs s2 = thread_mlfqs s /\
               ready_list s2 = ready_list s /\
               ready_queues s2 = ready_queues s).
  { subst s2 si. done. }
  destruct H2 as (Hr2 & Ha2 & Hm2 & Hl2 & Hq2). clearbody s2.
  destruct (thread_unblock_no_switch page s2 s1 Hs1)
    as (th2 & s3 & Eth2 & Ep & Hd & Hs1eq).
  { right. exists (priority th), (priority c). unfold field.
    rewrite Ht2, Hr2, Hc2. cbn. split; [done|]. split; [done|].
    rewrite Hpth. by apply Hprio. }
  rewrite Ht2 in Eth2. injection Eth2 as <-.
  rewrite Hd in Hout |- *. cbn [bind] in Hout |- *.
  apply push_ready_effect in Ep. cbn [thread_mlfqs set_intr_on] in Ep.
  rewrite Hm2 in Ep.
  assert (Hgoal : forall q1 s4,
    (if negb (thread_mlfqs s1) then Some (ready_list s1)
     else band s1 PRI_MIN) = Some q1 ->
    q1 = [page] ->
    s4 = set_intr_on true
           (list_remove_allelem page
              (list_remove_elem page (set_idle_thread page s1))) ->
    idle_thread s4 = page /\ running s4 = running s /\ intr_on s4 = true /\
    all_list s4 = all_list s /\
    (if thread_mlfqs s then band s4 PRI_MIN = Some [] else ready_list s4 = []) /\
    field status page s4 = Some THREAD_READY /\
    field priority page s4 = Some PRI_MIN /\
    field name page s4 = Some "idle").
  { intros q1 s4 Hq1 -> ->.
    split; [done|].
    destruct (thread_mlfqs s) eqn:Hm.
    - destruct Ep as (th0 & q & Et0 & Eq & ->). cbn in Et0.
      rewrite Ht2 in Et0. injection Et0 as <-. cbn [priority set_tid] in *.
      rewrite Hpth in *.
      change (band (set_intr_on false s2) PRI_MIN) with (band s2 PRI_MIN) in Eq.
      unfold band in Eq, Hempty. cbn in Eq, Hempty. rewrite Hq2, Hempty in Eq.
      injection Eq as <-.
      subst s1. cbn. rewrite Hr2, Ha2.
      split; [done|]. split; [done|].
      split; [exact (list_remove_last page (all_list s) Hnin)|]. split.
      { rewrite Hq2, list_lookup_fmap.
        rewrite list_lookup_insert_eq by (by apply lookup_lt_Some in Hempty).
        cbn. by rewrite decide_False by (by intros ?). }
      unfold field. cbn. rewrite lookup_alter_eq, Ht2. cbn.
      rewrite Hpth, Hname. by repeat split.
    - subst s3 s1. cbn. rewrite Hr2, Ha2, Hl2, Hempty.
      split; [done|]. split; [done|].
      split; [exact (list_remove_last page (all_list s) Hnin)|]. split.
      { unfold list_remove. cbn. rewrite decide_False by (by intros ?). done. }
      unfold field. cbn. rewrite lookup_alter_eq, Ht2. cbn.
      rewrite Hpth, Hname. by repeat split. }
  assert (Hq : (if negb (thread_mlfqs s1) then Some (ready_list s1)
                else band s1 PRI_MIN) = Some [page]).
  { destruct (thread_mlfqs s) eqn:Hm.
    - destruct Ep as (th0 & q & Et0 & Eq & ->). cbn in Et0.
      rewrite Ht2 in Et0. injection Et0 as <-. cbn [priority set_tid] in *.
      rewrite Hpth in *.
      change (band (set_intr_on false s2) PRI_MIN) with (band s2 PRI_MIN) in Eq.
      unfold band in Eq, Hempty. cbn in Eq, Hempty. rewrite Hq2, Hempty in Eq.
      injection Eq as <-.
      subst s1. cbn. rewrite Hm2. cbn. unfold band. cbn.
      rewrite list_lookup_insert_eq by (rewrite Hq2; by apply lookup_lt_Some in Hempty).
      done.
    - subst s3 s1. cbn. rewrite Hm2. cbn. by rewrite Hl2, Hempty. }
  rewrite Hq in Hout |- *. cbn [fetch] in Hout |- *.
  cbn [idle_thread set_idle_thread list_remove_elem set_ready_list
       set_ready_queues set_waiting_list list_remove_allelem set_all_list]
    in Hout |- *.
  cbn [outcome] in Hout. injection Hout as <-. split; [done|].
  by apply (Hgoal [page] _ Hq).
Qed.

Lemma thread_start_sets_idle_aside_witness :
  outcome (thread_start 2 booted_main) = Some started_main /\
  idle_thread started_main = 2%nat /\ all_list started_main = [1%nat] /\
  field status 2 started_main = Some THREAD_READY.
Proof.
  split; [vm_compute; reflexivity|].
  destruct (thread_start_sets_idle_aside 2 booted_main started_main)
    as (_ & Hi & _ & _ & Ha & _ & Hs & _).
  - vm_compute; reflexivity.
  - discriminate.
  - apply (bool_decide_unpack _). vm_compute. exact I.
  - vm_compute; reflexivity.
  - intros c Hc.
    assert (Hc0 : threads booted_main !! running booted_main
                  = Some (mkThread 1 THREAD_RUNNING "main" 63 63 0 0 0 0 1))
      by (vm_compute; reflexivity).
    rewrite Hc0 in Hc. injection Hc as <-. vm_compute. discriminate.
  - split; [exact Hi|]. split; [|exact Hs]. rewrite Ha. vm_compute; reflexivity.
Defined.

Lemma schedule_waiting_list s2 s3 :
  outcome (schedule s2) = Some s3 ->
  waiting_list s3 = waiting_list s2 \/
  waiting_list s3 = list_remove (running s3) (waiting_list s2).
Proof.
  intros Hout.
  destruct (schedule_effect s2 s3 Hout)
    as (next & s1 & c0 & Hs1 & _ & _ & _ & _ & _ & Hcase).
  destruct Hcase as [(Hne & _ & Htail)|(He & _ & Htail)];
    apply thread_schedule_tail_effect in Htail
      as (_ & _ & _ & Hr & _ & _ & _ & Hw & _).
  - cbn in Hr, Hw. rewrite Hr, Hw.
    destruct Hs1 as [(-> & _)|(-> & _)]; [by left|by right].
  - rewrite Hw.
    destruct Hs1 as [(-> & _)|(-> & _)]; [by left|].
    right. cbn in Hr. by rewrite Hr, <- He.
Qed.

(** X24.  [thread_wait] needs interrupts off.  When it hands the CPU to
    another thread, the caller is left [THREAD_BLOCKED] with the tick count
    it asked for, at the back of [waiting_list].  When the scheduler picks
    the caller itself (it is the idle thread and nothing is ready, or it is
    linked in the ready structure), the call returns and the caller runs
    on. *)
Theorem thread_wait_puts_to_sleep (ticks : Z) (s s' : kstate) :
  outcome (thread_wait ticks s) = Some s' ->
  intr_on s = false /\ intr_ctx s = false /\
  exists c,
    threads s !! running s = Some c /\
    (running s' <> running s ->
     switched (thread_wait ticks s) = true /\
     threads s' !! running s
       = Some (set_ticks_wait ticks (set_status THREAD_BLOCKED c)) /\
     (running s' ∉ waiting_list s ->
      waiting_list s' = waiting_list s ++ [running s])) /\
    (running s' = running s ->
     thread_wait ticks s = Done s' /\
     field status (running s) s' = Some THREAD_RUNNING).
Proof.
  unfold thread_wait.
  match goal with
  | |- context [thread_current ?s0 ?k] =>
      destruct (thread_current_cases s0 k) as [->|(c & Hi & Hc & Hst & ->)];
        [done|]
  end.
  destruct (intr_ctx s); [done|]. cbn [negb kassert].
  destruct (intr_on s); [done|]. cbn [negb kassert]. cbv zeta.
  set (s2 := set_waiting_list _ _).
  assert (Hc2 : threads s2 !! running s2
                = Some (set_ticks_wait ticks (set_status THREAD_BLOCKED c))).
  { subst s2. cbn. by rewrite !lookup_alter_eq, Hc. }
  assert (H2 : running s2 = running s /\
               waiting_list s2 = waiting_list s ++ [running s]) by done.
  destruct H2 as (Hr2 & Hw2). clearbody s2.
  intros Hout. split; [done|]. split; [done|]. exists c. split; [done|].
  destruct (schedule_keeps_caller s2 s' _ Hout Hc2 ltac:(done))
    as (_ & _ & _ & _ & _ & Hoth & (n & n' & _ & Hn' & _ & Hst' & _) & Hcase).
  rewrite Hr2 in *.
  split.
  - intros Hne. destruct Hcase as [(_ & Hsw)|(He & _)]; [|done].
    split; [by rewrite Hsw|]. split; [by rewrite Hoth|].
    intros Hnin.
    destruct (schedule_waiting_list s2 s' Hout) as [Hw|Hw];
      rewrite Hw, Hw2; [done|].
    apply list_remove_absent. rewrite elem_of_app, list_elem_of_singleton.
    intros [?|?]; done.
  - intros He. destruct Hcase as [(Hne & _)|(_ & Hsw)]; [done|].
    split; [done|]. unfold field. rewrite <- He, Hn'. cbn. by rewrite Hst'.
Qed.

Lemma thread_wait_puts_to_sleep_witness :
  outcome (thread_wait 5 (set_intr_on false rr_two_ready))
    = Some rr_two_ready_asleep /\
  running rr_two_ready_asleep = 3%nat /\
  field ticks_wait 1 rr_two_ready_asleep = Some 5 /\
  waiting_list rr_two_ready_asleep = [1%nat].
Proof.
  split; [vm_compute; reflexivity|]. split; [vm_compute; reflexivity|].
  destruct (thread_wait_puts_to_sleep 5 (set_intr_on false rr_two_ready)
              rr_two_ready_asleep)
    as (_ & _ & c & Hc & Hsw & _); [vm_compute; reflexivity|].
  destruct Hsw as (_ & Hrec & Hw); [vm_compute; discriminate|].
  split.
  - unfold field.
    change (running (set_intr_on false rr_two_ready)) with 1%nat in Hrec.
    by rewrite Hrec.
  - rewrite Hw; [vm_compute; reflexivity|].
    apply (bool_decide_unpack _). vm_compute. exact I.
Defined.

(** X25.  [thread_block] needs interrupts off.  When it hands the CPU to
    another thread, the caller is left [THREAD_BLOCKED] and otherwise as it
    was, and neither the ready structure nor [waiting_list] has gained
    it. *)
Theorem thread_block_blocks (s s' : kstate) :
  outcome (thread_block s) = Some s' ->
  intr_on s = false /\ intr_ctx s = false /\
  exists c,
    threads s !! running s = Some c /\
    (running s' <> running s ->
     switched (thread_block s) = true /\
     threads s' !! running s = Some (set_status THREAD_BLOCKED c) /\
     (~ in_ready_structure (running s) s ->
      ~ in_ready_structure (running s) s') /\
     (running s ∉ waiting_list s -> running s ∉ waiting_list s')).
Proof.
  unfold thread_block.
  destruct (intr_ctx s); [done|]. cbn [negb kassert].
  destruct (intr_on s); [done|]. cbn [negb kassert].
  match goal with
  | |- context [thread_current ?s0 ?k] =>
      destruct (thread_current_cases s0 k) as [->|(c & Hi & Hc & Hst & ->)];
        [done|]
  end.
  cbv zeta.
  set (s2 := update _ _ _).
  assert (Hc2 : threads s2 !! running s2 = Some (set_status THREAD_BLOCKED c)).
  { subst s2. cbn. by rewrite !lookup_alter_eq, Hc. }
  assert (H2 : running s2 = running s /\ waiting_list s2 = waiting_list s /\
               ready_list s2 = ready_list s /\
               ready_queues s2 = ready_queues s) by done.
  destruct H2 as (Hr2 & Hw2 & Hl2 & Hq2). clearbody s2.
  intros Hout. split; [done|]. split; [done|]. exists c. split; [done|].
  destruct (schedule_keeps_caller s2 s' _ Hout Hc2 ltac:(done))
    as (_ & _ & _ & _ & _ & Hoth & _ & Hcase).
  rewrite Hr2 in *.
  intros Hne. destruct Hcase as [(_ & Hsw)|(He & _)]; [|done].
  split; [by rewrite Hsw|]. split; [by rewrite Hoth|].
  destruct (schedule_effect s2 s' Hout)
    as (next & s1 & c0 & Hs1 & _ & _ & _ & _ & _ & Hcase).
  assert (Hlists : ready_list s' = ready_list s1 /\
                   ready_queues s' = ready_queues s1 /\
                   waiting_list s' = waiting_list s1).
  { destruct Hcase as [(_ & _ & Htail)|(_ & _ & Htail)];
      apply thread_schedule_tail_effect in Htail
        as (_ & _ & _ & _ & _ & Hl & Hq & Hw & _); done. }
  destruct Hlists as (Hl & Hq & Hw).
  unfold in_ready_structure. rewrite Hl, Hq, Hw.
  destruct Hs1 as [(-> & _)|(-> & _)]; cbn; rewrite ?Hl2, ?Hq2, ?Hw2;
    [done|].
  split.
  - intros Hnot [Hin|Hin]; apply Hnot.
    + left. unfold list_remove in Hin.
      by apply list_elem_of_filter in Hin as [_ ?].
    + right. apply Exists_exists in Hin as (q & Hq' & Hin).
      apply list_elem_of_fmap in Hq' as (q0 & -> & Hq0).
      apply Exists_exists. exists q0. split; [done|].
      unfold list_remove in Hin. by apply list_elem_of_filter in Hin as [_ ?].
  - intros Hnot Hin. apply Hnot. unfold list_remove in Hin.
    by apply list_elem_of_filter in Hin as [_ ?].
Qed.

Lemma thread_block_blocks_witness :
  outcome (thread_block (set_intr_on false rr_two_ready))
    = Some rr_two_ready_blocked /\
  running rr_two_ready_blocked = 3%nat /\
  field status 1 rr_two_ready_blocked = Some THREAD_BLOCKED.
Proof.
  split; [vm_compute; reflexivity|]. split; [vm_compute; reflexivity|].
  destruct (thread_block_blocks (set_intr_on false rr_two_ready)
              rr_two_ready_blocked)
    as (_ & _ & c & Hc & Hsw); [vm_compute; reflexivity|].
  destruct Hsw as (_ & Hrec & _); [vm_compute; discriminate|].
  unfold field.
  change (running (set_intr_on false rr_two_ready)) with 1%nat in Hrec.
  by rewrite Hrec.
Defined.

Local Transparent wrap32 wrap64 recalculate_priority next_recent_cpu next_load_avg.
